(** * Shipwell AI document Q&A agent: a shallow embedding and its properties

  The development follows the layout of the repository:

  - [Py] and [Path]: the Python built-ins the sources call ([str.strip],
    [str.split], [in], slicing, [pathlib.Path.suffix], ...);
  - [Utils]: [src/utils.py];
  - [Loaders]: [src/loaders.py];
  - [Splitter]: the stock recursive text splitter the indexer delegates to;
  - [Chroma]: the persisted vector store;
  - [Indexing]: [src/indexing.py];
  - [Retrieval]: [src/retrieval.py];
  - [App]: [app.py].

  Strings are Python [str] values restricted to code points below 256, one
  [ascii] per character.  Dictionaries are [gmap]s, Python sets are [gset]s.
  Calls that leave the process (document parsers, the embedding and chat
  clients, the file system, the terminal) are fields of an explicit
  environment record, so every theorem holds for every behaviour of the
  outside world.  The text splitter and the vector store are libraries the
  repository imports; [Splitter] and [Chroma] model them. *)

From Stdlib Require Import Ascii ZArith Lia.
From stdpp Require Import gmap strings list pretty.

Local Open Scope nat_scope.

(** ** Exceptions and results *)

(** The exceptions the sources raise or catch.  [except Exception] catches
  the first five; [KeyboardInterrupt] and [SystemExit] derive from
  [BaseException] only and pass through such a handler. *)
Inductive exn : Type :=
| ValueError (msg : string)
| RuntimeError (msg : string)
| OSError (msg : string)
| EOFError
| OtherException (msg : string)
| KeyboardInterrupt
| SystemExit (code : Z).

Definition is_Exception (e : exn) : bool :=
match e with
| KeyboardInterrupt | SystemExit _ => false
| _ => true
end.

Definition exn_str (e : exn) : string :=
match e with
| ValueError m | RuntimeError m | OSError m | OtherException m => m
| EOFError => "EOF when reading a line"
| KeyboardInterrupt => ""
| SystemExit _ => ""
end.

Inductive result (A : Type) : Type :=
| Ok (a : A)
| Raise (e : exn).
Arguments Ok {A} a.
Arguments Raise {A} e.

(** ** Python built-ins *)

Module Py.

Definition len (s : string) : nat := String.length s.

(** The line feed, ["\n"]. *)
Definition nl : string := String "010" EmptyString.

(** [str.isspace] on one character, for code points below 256. *)
Definition isspace (c : ascii) : bool :=
  let n := nat_of_ascii c in
  ((9 <=? n) && (n <=? 13)) || ((28 <=? n) && (n <=? 32))
  || (n =? 133) || (n =? 160).

Fixpoint lstrip (s : string) : string :=
  match s with
  | String c s' => if isspace c then lstrip s' else s
  | EmptyString => EmptyString
  end.

Definition rstrip (s : string) : string := String.rev (lstrip (String.rev s)).

(** [s.strip()] *)
Definition strip (s : string) : string := rstrip (lstrip s).

(** [s.startswith(p)] *)
Definition startswith (s p : string) : bool := String.prefix p s.

(** [s[n:]] and [s[:n]] for [0 <= n]. *)
Fixpoint slice_from (n : nat) (s : string) : string :=
  match n, s with
  | S n', String _ s' => slice_from n' s'
  | _, _ => s
  end.

Fixpoint slice_to (n : nat) (s : string) : string :=
  match n, s with
  | S n', String c s' => String c (slice_to n' s')
  | _, _ => EmptyString
  end.

(** [sub in s] *)
Fixpoint contains (sub s : string) : bool :=
  String.prefix sub s ||
  match s with
  | EmptyString => false
  | String _ s' => contains sub s'
  end.

(** [s.split(sep, 1)] for a non-empty [sep]: [Some (a, b)] is the two-element
    list [[a, b]] cut at the first occurrence of [sep], [None] is the
    one-element list [[s]] returned when [sep] does not occur. *)
Fixpoint split_once (sep s : string) : option (string * string) :=
  if String.prefix sep s then Some (EmptyString, slice_from (len sep) s)
  else match s with
       | EmptyString => None
       | String c s' =>
           match split_once sep s' with
           | Some (a, b) => Some (String c a, b)
           | None => None
           end
       end.

(** [c.lower()] for code points below 256. *)
Definition lower_char (c : ascii) : ascii :=
  let n := nat_of_ascii c in
  if ((65 <=? n) && (n <=? 90))
     || ((192 <=? n) && (n <=? 222) && negb (n =? 215))
  then ascii_of_nat (n + 32) else c.

Fixpoint lower (s : string) : string :=
  match s with
  | EmptyString => EmptyString
  | String c s' => String (lower_char c) (lower s')
  end.

(** [s * n] *)
Fixpoint repeat (s : string) (n : nat) : string :=
  match n with
  | O => EmptyString
  | S n' => s +:+ repeat s n'
  end.

(** [sep.join(parts)] *)
Fixpoint join (sep : string) (parts : list string) : string :=
  match parts with
  | [] => EmptyString
  | [p] => p
  | p :: rest => p +:+ sep +:+ join sep rest
  end.

(** [s.rfind(c)] for a one-character needle: the index of its last
    occurrence. *)
Fixpoint rfind_char (c : ascii) (s : string) : option nat :=
  match s with
  | EmptyString => None
  | String d s' =>
      match rfind_char c s' with
      | Some i => Some (S i)
      | None => if bool_decide (c = d) then Some 0 else None
      end
  end.

End Py.

(** ** src/utils.py *)

Module Utils.

(** [os.environ]: a mapping from variable names to values. *)
Abbreviation environ := (gmap string string).

(** The NUL character. *)
Definition nul : string := String "000" EmptyString.

(** [os.environ[key] = value] on a POSIX system.  The interpreter refuses a
    name or a value that holds a NUL character and a name that holds ['=']
    with [ValueError]; for the empty name the system call fails and the
    interpreter raises [OSError].  The environment is left as it is. *)
Definition environ_set (key value : string) (env : environ)
    : result environ :=
  if Py.contains nul key || Py.contains nul value
  then Raise (ValueError "embedded null byte")
  else if Py.contains "=" key
  then Raise (ValueError "illegal environment variable name")
  else if bool_decide (key = "")
  then Raise (OSError "[Errno 22] Invalid argument")
  else Ok (<[key := value]> env).

(** The body of the [for line in f] loop of [load_env_file]. *)
Definition load_env_line (env : environ) (line : string) : result environ :=
  let line := Py.strip line in
  if bool_decide (line ≠ "") && negb (Py.startswith line "#")
     && Py.contains "=" line
  then match Py.split_once "=" line with
       | Some (key, value) => environ_set (Py.strip key) (Py.strip value) env
       | None => Ok env
       end
  else Ok env.

(** The loop [for line in f]: the environment reached, and whether the loop
    ended or a line raised. *)
Fixpoint load_env_lines (lines : list string) (env : environ)
    : environ * result unit :=
  match lines with
  | [] => (env, Ok tt)
  | line :: rest =>
      match load_env_line env line with
      | Ok env' => load_env_lines rest env'
      | Raise e => (env, Raise e)
      end
  end.

(** [load_env_file(env_path)].  [file] is [None] when
    [env_path.exists()] is false, and otherwise the lines the file object
    yields, in order. *)
Definition load_env_file (file : option (list string)) (env : environ)
    : environ * result unit :=
  match file with
  | None => (env, Ok tt)
  | Some lines => load_env_lines lines env
  end.

(** [validate_folder(folder_path)] *)
Definition validate_folder (exists_ is_dir : bool) : bool :=
  exists_ && is_dir.

End Utils.

(** ** Documents *)

(** [langchain_core.documents.Document]: text and a metadata dictionary. *)
Record Document : Type := mkDocument {
  page_content : string;
  metadata : gmap string string
}.

Global Instance Document_eq_dec : EqDecision Document.
Proof. solve_decision. Defined.

(** [doc.metadata.get("source", "Unknown")] *)
Definition source_of (doc : Document) : string :=
  default "Unknown" (metadata doc !! "source").

(** ** Printing, calls to the outside, and exceptions *)

(** What the process does that is visible from outside: the lines it prints
    and the calls it makes to the parser, embedding, vector-store and chat
    libraries and to the terminal. *)
Inductive event : Type :=
| Print (line : string)
| ParseFile (path : string)
| NewOpenAIEmbeddings
| ChromaFromDocuments (collection_name : string) (chunks : list Document)
| NewChroma (collection_name : string)
| NewChatOpenAI (model : string)
| ChainInvoke (question : string)
| Input (prompt : string).

Definition is_print (ev : event) : bool :=
  match ev with Print _ => true | _ => false end.

(** A computation that emits events and either returns a value or raises.
    The events emitted before an exception are kept. *)
Definition io (A : Type) : Type := list event * result A.

Global Instance io_ret : MRet io := λ A a, ([], Ok a).

Definition io_raise {A} (e : exn) : io A := ([], Raise e).

Global Instance io_bind : MBind io := λ A B f m,
  match m with
  | (out, Ok a) => let '(out', r) := f a in (out ++ out', r)
  | (out, Raise e) => (out, Raise e)
  end.

(** [print(line)] *)
Definition print (line : string) : io unit := ([Print line], Ok tt).

(** A call to the outside whose outcome is [r]. *)
Definition call {A} (ev : event) (r : result A) : io A := ([ev], r).

(** [try: body / except Exception as e: handler(e)] *)
Definition try_except {A} (body : io A) (handler : exn → io A) : io A :=
  match body with
  | (out, Raise e) =>
      if is_Exception e then let '(out', r) := handler e in (out ++ out', r)
      else (out, Raise e)
  | ok => ok
  end.

(** ** pathlib *)

Module Path.

(** [Path(p).name]: the final component. *)
Fixpoint name (p : string) : string :=
  match p with
  | EmptyString => EmptyString
  | String c p' =>
      if Py.contains "/" p' then name p'
      else if bool_decide (c = "/"%char) then p' else p
  end.

(** [Path(p).suffix]: [name[i:]] for [i = name.rfind(".")] when
    [0 < i < len(name) - 1], and the empty string otherwise. *)
Definition suffix (p : string) : string :=
  let n := name p in
  match Py.rfind_char "."%char n with
  | Some i => if (0 <? i) && (i <? Py.len n - 1) then Py.slice_from i n else ""
  | None => ""
  end.

End Path.

(** ** src/loaders.py *)

Module Loaders.

Definition TEXT_EXTENSIONS : list string := [".txt"].
Definition PDF_EXTENSIONS : list string := [".pdf"].
Definition DOCX_EXTENSIONS : list string := [".docx"; ".doc"].
Definition IMAGE_EXTENSIONS : list string :=
  [".jpg"; ".jpeg"; ".png"; ".gif"; ".bmp"].
Definition MARKDOWN_EXTENSIONS : list string := [".md"; ".markdown"].
Definition CSV_EXTENSIONS : list string := [".csv"].

(** The parser classes of [langchain_community.document_loaders]. *)
Inductive loader : Type :=
| TextLoader
| PyPDFLoader
| UnstructuredWordDocumentLoader
| UnstructuredImageLoader
| UnstructuredMarkdownLoader
| CSVLoader.

(** What [loader(path).load()] does for each parser class and path: the
    documents it returns or the exception it raises. *)
Definition parsers : Type := loader → string → result (list Document).

(** The [if]/[elif] chain of [load_document]: the parser for an extension. *)
Definition loader_for (extension : string) : option loader :=
  if bool_decide (extension ∈ TEXT_EXTENSIONS) then Some TextLoader
  else if bool_decide (extension ∈ PDF_EXTENSIONS) then Some PyPDFLoader
  else if bool_decide (extension ∈ DOCX_EXTENSIONS)
       then Some UnstructuredWordDocumentLoader
  else if bool_decide (extension ∈ IMAGE_EXTENSIONS)
       then Some UnstructuredImageLoader
  else if bool_decide (extension ∈ MARKDOWN_EXTENSIONS)
       then Some UnstructuredMarkdownLoader
  else if bool_decide (extension ∈ CSV_EXTENSIONS) then Some CSVLoader
  else None.

(** The body of the loop [for doc in docs] of [load_document]:
    [doc.metadata.update(metadata)], then
    [doc.metadata["file_type"] = extension[1:]]. *)
Definition add_metadata (meta : gmap string string) (extension : string)
    (doc : Document) : Document :=
  mkDocument (page_content doc)
    (<["file_type" := Py.slice_from 1 extension]> (meta ∪ metadata doc)).

(** [DocumentLoader.load_document(file_path)].  Paths are strings in
    pathlib's normal form, so that [str(Path(file_path))] is [file_path]. *)
Definition load_document (load : parsers) (file_path : string)
    : io (list Document) :=
  let extension := Py.lower (Path.suffix file_path) in
  let meta : gmap string string :=
    <["file_name" := Path.name file_path]> {["source" := file_path]} in
  try_except
    (match loader_for extension with
     | Some l =>
         docs ← call (ParseFile file_path) (load l file_path);
         mret (add_metadata meta extension <$> docs)
     | None =>
         (print ("Warning: Unsupported file format: " +:+ extension);;
          mret []) : io (list Document)
     end)
    (fun e =>
       print ("Error loading " +:+ file_path +:+ ": " +:+ exn_str e);;
       mret []).

(** One item of [folder_path.rglob("*")]. *)
Record entry : Type := mkEntry {
  entry_path : string;
  entry_is_file : bool
}.

Definition supported_extensions : list string :=
  TEXT_EXTENSIONS ++ PDF_EXTENSIONS ++ DOCX_EXTENSIONS ++ IMAGE_EXTENSIONS
  ++ MARKDOWN_EXTENSIONS ++ CSV_EXTENSIONS.

(** The test of the loop of [load_folder]. *)
Definition is_supported (e : entry) : bool :=
  entry_is_file e
  && bool_decide (Py.lower (Path.suffix (entry_path e)) ∈ supported_extensions).

(** The loop [for file_path in folder_path.rglob("*")] of [load_folder],
    with [all_documents] as accumulator. *)
Fixpoint load_entries (load : parsers) (entries : list entry)
    (all_documents : list Document) : io (list Document) :=
  match entries with
  | [] => mret all_documents
  | e :: rest =>
      if is_supported e then
        print ("Loading: " +:+ Path.name (entry_path e));;
        docs ← load_document load (entry_path e);
        load_entries load rest (all_documents ++ docs)
      else load_entries load rest all_documents
  end.

(** A folder as the file system shows it: [None] when
    [folder_path.exists()] is false, and otherwise the items of
    [folder_path.rglob("*")] in traversal order. *)
Definition folder : Type := option (list entry).

(** [DocumentLoader.load_folder(folder_path)] *)
Definition load_folder (load : parsers) (folder_path : string) (fs : folder)
    : io (list Document) :=
  match fs with
  | None => io_raise (ValueError ("Folder not found: " +:+ folder_path))
  | Some entries =>
      all_documents ← load_entries load entries [];
      print (Py.nl +:+ "Loaded " +:+ pretty (length all_documents)
             +:+ " document chunks from " +:+ folder_path);;
      mret all_documents
  end.

End Loaders.

(** ** The stock recursive text splitter *)

Module Splitter.

(** Modelled from the spec: the "stock recursive splitter", a library the
    repository imports and does not contain.  The spec has the indexer split
    "loaded documents into overlapping text windows", with "a fixed
    separator-priority recursive strategy (paragraph, then line, then space,
    then character) to respect a configured maximum chunk size and overlap":
    a window has at most [chunk_size] characters, it ends where the first
    separator of the list that allows it starts, and the next window begins
    [chunk_overlap] characters before that end. *)
Record t : Type := mk {
  chunk_size : nat;
  chunk_overlap : nat;
  separators : list string
}.

(** Modelled from the spec: the constructor of the splitter, which is "to
    respect a configured maximum chunk size and overlap".  It rejects a size
    that is not positive, a negative overlap, and an overlap that is not
    below the size, with which overlapping windows could not advance. *)
Definition new (chunk_size chunk_overlap : Z) (separators : list string)
    : result t :=
  if (chunk_size <=? 0)%Z
  then Raise (ValueError "chunk_size must be > 0")
  else if (chunk_overlap <? 0)%Z
  then Raise (ValueError "chunk_overlap must be >= 0")
  else if (chunk_size <=? chunk_overlap)%Z
  then Raise (ValueError "chunk_overlap must be smaller than chunk_size")
  else Ok (mk (Z.to_nat chunk_size) (Z.to_nat chunk_overlap) separators).

(** Modelled from the spec: the last place [e] with
    [lo < e <= lo + width] at which the separator [sep] starts in [text].
    The empty separator, the character level, starts everywhere. *)
Fixpoint cut_before (sep text : string) (lo width : nat) : option nat :=
  match width with
  | O => None
  | S width' =>
      if String.prefix sep (Py.slice_from (lo + width) text)
      then Some (lo + width)
      else cut_before sep text lo width'
  end.

(** Modelled from the spec: the "separator-priority" choice of the end of a
    window: the place found for the first separator of the list that has
    one, and the full width when none has. *)
Fixpoint cut_point (separators : list string) (text : string)
    (lo width : nat) : nat :=
  match separators with
  | [] => lo + width
  | sep :: rest =>
      match cut_before sep text lo width with
      | Some e => e
      | None => cut_point rest text lo width
      end
  end.

(** Modelled from the spec: the "overlapping text windows" of a text.  A
    text that fits is one window.  Otherwise the first window ends at the
    cut point, more than [chunk_overlap] and at most [chunk_size] characters
    in, and the windows of the text from [chunk_overlap] characters before
    that end follow.  [fuel] bounds the number of windows; the length of the
    text is enough, as every window advances. *)
Fixpoint windows (fuel : nat) (sp : t) (text : string) : list string :=
  match fuel with
  | O => []
  | S fuel' =>
      if Py.len text <=? chunk_size sp then [text]
      else
        let e := cut_point (separators sp) text (chunk_overlap sp)
                   (chunk_size sp - chunk_overlap sp) in
        Py.slice_to e text
        :: windows fuel' sp (Py.slice_from (e - chunk_overlap sp) text)
  end.

(** Modelled from the spec: [split_text(text)]; an empty text has no
    chunk. *)
Definition split_text (sp : t) (text : string) : list string :=
  if bool_decide (text = "") then [] else windows (Py.len text) sp text.

(** Modelled from the spec: [split_documents(documents)]: every document is
    split on its own and each chunk carries the metadata of its document. *)
Definition split_documents (sp : t) (documents : list Document)
    : list Document :=
  doc ← documents;
  (λ chunk, mkDocument chunk (metadata doc)) <$> split_text sp (page_content doc).

End Splitter.

(** ** The process and the world around it *)

(** What [qa_chain.invoke] returns: a dictionary that may hold the keys
    ["answer"] and ["context"]. *)
Record chain_result : Type := mkChainResult {
  chain_answer : option string;
  chain_context : option (list Document)
}.

(** The state one run of the program reads and writes: [os.environ], the
    vector-database directories on disk (directory, then collection name,
    then the stored chunks in insertion order) and the number of vector-store
    objects created so far, which tells one object from another. *)
Record process : Type := mkProcess {
  environ : gmap string string;
  disk : gmap string (gmap string (list Document));
  next_object : nat
}.

(** The behaviour of everything outside the program at one moment: files,
    parsers, and the embedding, vector-store and chat services. *)
Record world : Type := mkWorld {
  env_file : option (list string);
  docs_folder : Loaders.folder;
  docs_is_dir : bool;
  parsers : Loaders.parsers;
  openai_embeddings : result unit;
  chroma_from_documents : list Document → result unit;
  chroma_open : result unit;
  chat_openai : result unit;
  chain_invoke : list Document → Z → string → result chain_result
}.

(** Computations over a state [S] that emit events and may raise.  The state
    reached when an exception is raised is kept, as assignments made in a
    [try] block are. *)
Definition st (S A : Type) : Type := S → S * io A.

Global Instance st_ret {S} : MRet (st S) := λ A a s, (s, mret a).

Global Instance st_bind {S} : MBind (st S) := λ A B f m s,
  match m s with
  | (s', (out, Ok a)) =>
      let '(s'', (out', r)) := f a s' in (s'', (out ++ out', r))
  | (s', (out, Raise e)) => (s', (out, Raise e))
  end.

Definition lift {S A} (m : io A) : st S A := λ s, (s, m).

Definition get {S} : st S S := λ s, (s, mret s).

Definition put {S} (s : S) : st S unit := λ _, (s, mret tt).

Definition raise {S A} (e : exn) : st S A := lift (io_raise e).

Definition say {S} (line : string) : st S unit := lift (print line).

(** [sys.exit(code)] *)
Definition sys_exit {S A} (code : Z) : st S A := raise (SystemExit code).

(** [try: body / except Exception as e: handler(e)] *)
Definition try_st {S A} (body : st S A) (handler : exn → st S A) : st S A :=
  λ s,
  match body s with
  | (s', (out, Raise e)) =>
      if is_Exception e
      then let '(s'', (out', r)) := handler e s' in (s'', (out ++ out', r))
      else (s', (out, Raise e))
  | ok => ok
  end.

(** [not os.getenv(name)]: the variable is unset or empty. *)
Definition getenv_missing (name : string) (p : process) : bool :=
  match environ p !! name with
  | Some v => bool_decide (v = "")
  | None => true
  end.

(** ** The vector store *)

Module Chroma.

(** A vector-store object: a handle on one collection of one directory. *)
Record t : Type := mk {
  persist_directory : string;
  collection_name : string;
  object_id : nat
}.

Global Instance eq_dec : EqDecision t.
Proof. solve_decision. Defined.

(** The chunks of the collection a handle points to. *)
Definition contents (p : process) (vs : t) : list Document :=
  default [] (disk p !! persist_directory vs ≫= (.!! collection_name vs)).

(** Modelled from the spec: opening a "named set of (embedding vector,
    chunk) pairs, persisted to disk under a fixed directory" whose
    "lifecycle is create-or-load": the directory and the collection are
    created empty when absent and left as they are otherwise. *)
Definition get_or_create (directory name : string) (p : process) : process :=
  let collections := default ∅ (disk p !! directory) in
  let items := default [] (collections !! name) in
  mkProcess (environ p)
    (<[directory := <[name := items]> collections]> (disk p))
    (next_object p).

(** Modelled from the spec: "the vector store's bulk-insert constructor,
    under a caller-chosen collection name" ([Chroma.from_documents], which
    the repository imports and does not contain).  In the spec's words a
    collection is "never partially updated except by full re-indexing", the
    store is "rebuilt wholesale on reindex" and indexing again "replaces the
    collection contents": the collection is opened or created, it then holds
    the chunks given and nothing else, and a new handle is returned.  A
    failure of the embedding service or of the disk raises and stores
    nothing. *)
Definition from_documents (w : world) (documents : list Document)
    (directory name : string) : st process t :=
  _ ← lift (call (ChromaFromDocuments name documents)
             (chroma_from_documents w documents));
  p ← get;
  let p := get_or_create directory name p in
  let vs := mk directory name (next_object p) in
  put (mkProcess (environ p)
         (<[directory :=
              <[name := documents]> (default ∅ (disk p !! directory))]>
            (disk p))
         (S (next_object p)));;
  mret vs.

(** Modelled from the spec: "loading an existing index opens the persisted
    directory", that is the constructor [Chroma(persist_directory,
    embedding_function, collection_name)]. *)
Definition new (w : world) (directory name : string) : st process t :=
  _ ← lift (call (NewChroma name) (chroma_open w));
  p ← get;
  let p := get_or_create directory name p in
  put (mkProcess (environ p) (disk p) (S (next_object p)));;
  mret (mk directory name (next_object p)).

End Chroma.

(** ** src/indexing.py *)

Module Indexing.

Record DocumentIndexer : Type := mkIndexer {
  chunk_size : Z;
  chunk_overlap : Z;
  persist_directory : string;
  text_splitter : Splitter.t;
  vector_store : option Chroma.t
}.

(** [DocumentIndexer._get_embeddings] *)
Definition _get_embeddings (w : world) : st process unit :=
  p ← get;
  if getenv_missing "OPENAI_API_KEY" p
  then raise (ValueError
    "OPENAI_API_KEY is required. Please set it in your .env file or environment variables.")
  else
    try_st (lift (call NewOpenAIEmbeddings (openai_embeddings w)))
      (λ e, raise (RuntimeError
         ("Failed to initialize OpenAI embeddings: " +:+ exn_str e
          +:+ ". Please check your OPENAI_API_KEY is valid."))).

(** [DocumentIndexer.__init__] with the default [embedding_model] and
    [persist_directory]. *)
Definition new (w : world) (chunk_size chunk_overlap : Z)
    : st process DocumentIndexer :=
  let persist_directory := "./chroma_db" in
  match Splitter.new chunk_size chunk_overlap
          [Py.nl +:+ Py.nl; Py.nl; " "; ""] with
  | Raise e => raise e
  | Ok text_splitter =>
      _get_embeddings w;;
      mret (mkIndexer chunk_size chunk_overlap persist_directory
              text_splitter None)
  end.

(** [DocumentIndexer.chunk_documents] *)
Definition chunk_documents (self : DocumentIndexer)
    (documents : list Document) : io (list Document) :=
  match documents with
  | [] => mret []
  | _ =>
      print ("Chunking " +:+ pretty (length documents) +:+ " documents...");;
      let chunks := Splitter.split_documents (text_splitter self) documents in
      print ("Created " +:+ pretty (length chunks) +:+ " chunks");;
      mret chunks
  end.

(** [DocumentIndexer.index_documents]: the indexer with its [vector_store]
    attribute set, and the vector store returned. *)
Definition index_documents (w : world) (self : DocumentIndexer)
    (documents : list Document) (collection_name : string)
    : st process (DocumentIndexer * Chroma.t) :=
  match documents with
  | [] => raise (ValueError "No documents provided for indexing")
  | _ =>
      chunks ← lift (chunk_documents self documents);
      say ("Indexing " +:+ pretty (length chunks)
           +:+ " chunks into vector store...");;
      vs ← Chroma.from_documents w chunks (persist_directory self)
             collection_name;
      say ("Indexing complete! Vector store saved to "
           +:+ persist_directory self);;
      mret (mkIndexer (chunk_size self) (chunk_overlap self)
              (persist_directory self) (text_splitter self) (Some vs), vs)
  end.

(** [os.path.exists(directory)] for a vector-database directory. *)
Definition path_exists (directory : string) (p : process) : bool :=
  bool_decide (is_Some (disk p !! directory)).

(** [DocumentIndexer.load_existing_index] *)
Definition load_existing_index (w : world) (self : DocumentIndexer)
    (collection_name : string) : st process (DocumentIndexer * Chroma.t) :=
  p ← get;
  if negb (path_exists (persist_directory self) p)
  then raise (ValueError
                ("Vector store not found at " +:+ persist_directory self))
  else
    say ("Loading existing vector store from " +:+ persist_directory self
         +:+ "...");;
    vs ← Chroma.new w (persist_directory self) collection_name;
    mret (mkIndexer (chunk_size self) (chunk_overlap self)
            (persist_directory self) (text_splitter self) (Some vs), vs).

End Indexing.

(** ** src/retrieval.py *)

Module Retrieval.

(** The chain [_create_qa_chain] assembles: the retriever of a vector store
    with its retrieval count, and the chat model that answers from what the
    retriever finds. *)
Record chain : Type := mkChain {
  chain_store : Chroma.t;
  chain_k : Z;
  chain_llm : string
}.

Global Instance chain_eq_dec : EqDecision chain.
Proof. solve_decision. Defined.

(** A [QARetriever] with its attributes. *)
Record QARetriever : Type := mkQARetriever {
  vector_store : Chroma.t;
  k : Z;
  llm : string;
  qa_chain : chain
}.

Global Instance QARetriever_eq_dec : EqDecision QARetriever.
Proof. solve_decision. Defined.

(** [QARetriever._get_llm] *)
Definition _get_llm (w : world) (model_name : option string)
    : st process string :=
  p ← get;
  if getenv_missing "OPENAI_API_KEY" p
  then raise (ValueError
    "OPENAI_API_KEY is required. Please set it in your .env file or environment variables.")
  else
    try_st
      (let model_name :=
         match model_name with
         | Some m => if bool_decide (m = "") then "gpt-3.5-turbo" else m
         | None => "gpt-3.5-turbo"
         end in
       lift (call (NewChatOpenAI model_name) (chat_openai w));;
       mret model_name)
      (λ e, raise (RuntimeError
         ("Failed to initialize OpenAI LLM: " +:+ exn_str e
          +:+ ". Please check your OPENAI_API_KEY is valid."))).

(** [QARetriever._create_qa_chain]: the prompt is fixed, the retriever is
    [vector_store.as_retriever(search_kwargs={"k": k})]. *)
Definition _create_qa_chain (vector_store : Chroma.t) (k : Z) (llm : string)
    : chain :=
  mkChain vector_store k llm.

(** [QARetriever.__init__] *)
Definition new (w : world) (vector_store : Chroma.t)
    (llm_model : option string) (k : Z) : st process QARetriever :=
  llm ← _get_llm w llm_model;
  mret (mkQARetriever vector_store k llm (_create_qa_chain vector_store k llm)).

(** The dictionary [answer_question] returns. *)
Record qa_result : Type := mkResult {
  answer : string;
  sources : list string;
  context : list Document
}.

(** [QARetriever.answer_question].  The chain searches the collection of
    its vector store as it is on disk at the time of the call. *)
Definition answer_question (w : world) (self : QARetriever)
    (question : string) : st process qa_result :=
  p ← get;
  result ← lift (call (ChainInvoke question)
                  (chain_invoke w
                     (Chroma.contents p (chain_store (qa_chain self)))
                     (chain_k (qa_chain self)) question));
  let source_docs := default [] (chain_context result) in
  let sources :=
    elements (list_to_set (source_of <$> source_docs) : gset string) in
  mret (mkResult (default "" (chain_answer result)) sources source_docs).

(** [enumerate(l, 1)] *)
Definition enumerate1 {A} (l : list A) : list (nat * A) :=
  imap (λ i x, (S i, x)) l.

(** The truncation of a displayed chunk. *)
Definition truncate (content : string) : string :=
  if 300 <? Py.len content then Py.slice_to 300 content +:+ "..."
  else content.

(** The lines one displayed chunk adds to [output]. *)
Definition chunk_lines (i : nat) (doc : Document) : list string :=
  [Py.nl +:+ "[Chunk " +:+ pretty i +:+ " from " +:+ source_of doc +:+ "]";
   Py.repeat "-" 60;
   truncate (page_content doc)].

(** The list [output] at the end of [format_response]. *)
Definition format_lines (result : qa_result) (show_context : bool)
    : list string :=
  let output :=
    [Py.repeat "=" 60; "ANSWER:"; Py.repeat "=" 60; answer result; ""] in
  let output :=
    match sources result with
    | [] => output
    | _ =>
        output ++ [Py.repeat "=" 60; "SOURCES:"; Py.repeat "=" 60]
        ++ ((λ '(i, source), pretty i +:+ ". " +:+ source)
              <$> enumerate1 (sources result))
        ++ [""]
    end in
  let output :=
    if show_context && bool_decide (context result ≠ [])
    then
      output ++ [Py.repeat "=" 60; "RETRIEVED CONTEXT:"; Py.repeat "=" 60]
      ++ ('(i, doc) ← enumerate1 (take 3 (context result)); chunk_lines i doc)
    else output in
  output.

(** [QARetriever.format_response] *)
Definition format_response (result : qa_result) (show_context : bool)
    : string :=
  Py.join Py.nl (format_lines result show_context).

End Retrieval.

(** ** app.py *)

Module App.

(** The parsed command line. *)
Record Args : Type := mkArgs {
  docs : string;
  reindex : bool;
  chunk_size : Z;
  chunk_overlap : Z;
  k : Z
}.

(** The local variables of [main] that the interactive loop reads and
    assigns. *)
Record locals : Type := mkLocals {
  documents : list Document;
  indexer : Indexing.DocumentIndexer;
  vector_store : Chroma.t;
  qa_retriever : Retrieval.QARetriever
}.

(** The state of the interactive loop: the process and the local
    variables. *)
Record machine : Type := mkMachine {
  proc : process;
  vars : locals
}.

(** A computation on the process, run inside the loop. *)
Definition zoom {A} (m : st process A) : st machine A :=
  λ s, let '(p, r) := m (proc s) in (mkMachine p (vars s), r).

(** The assignment [documents = ...] *)
Definition set_documents (d : list Document) : st machine unit :=
  λ s, (mkMachine (proc s)
          (mkLocals d (indexer (vars s)) (vector_store (vars s))
             (qa_retriever (vars s))), mret tt).

(** The assignment [vector_store = ...], with the indexer as
    [index_documents] left it. *)
Definition set_vector_store (ix : Indexing.DocumentIndexer) (vs : Chroma.t)
    : st machine unit :=
  λ s, (mkMachine (proc s)
          (mkLocals (documents (vars s)) ix vs (qa_retriever (vars s))),
        mret tt).

(** The assignment [qa_retriever = ...] *)
Definition set_qa_retriever (qa : Retrieval.QARetriever) : st machine unit :=
  λ s, (mkMachine (proc s)
          (mkLocals (documents (vars s)) (indexer (vars s))
             (vector_store (vars s)) qa), mret tt).

(** ["=" * 60] *)
Definition banner : string := Py.repeat "=" 60.

(** [load_env_file()] on the environment of the process. *)
Definition load_env (w : world) : st process unit :=
  λ p, let '(env, r) := Utils.load_env_file (env_file w) (environ p) in
       (mkProcess env (disk p) (next_object p), ([], r)).

(** [main] from [load_env_file()] up to the interactive loop: the local
    variables the loop starts with. *)
Definition setup (args : Args) (w : world) : st process locals :=
  load_env w;;
  p ← get;
  if getenv_missing "OPENAI_API_KEY" p then
    say "Error: OPENAI_API_KEY environment variable is required.";;
    say "Please set it in your .env file or as an environment variable.";;
    say "Get your API key from: https://platform.openai.com/api-keys";;
    sys_exit 1
  else if negb (Utils.validate_folder (bool_decide (is_Some (docs_folder w)))
                  (docs_is_dir w)) then
    say ("Error: Folder not found: " +:+ docs args);;
    sys_exit 1
  else
    say banner;;
    say "AI Document Q&A Agent";;
    say banner;;
    say "";;
    say "Step 1: Loading documents...";;
    documents ← try_st
      (documents ← lift (Loaders.load_folder (parsers w) (docs args)
                           (docs_folder w));
       match documents with
       | [] =>
           say "Error: No documents found in the specified folder.";;
           sys_exit 1
       | _ => mret documents
       end)
      (λ e, say ("Error loading documents: " +:+ exn_str e);; sys_exit 1);
    say (Py.nl +:+ "Step 2: Indexing documents...");;
    indexer ← Indexing.new w (chunk_size args) (chunk_overlap args);
    '(indexer, vector_store) ← try_st
      (p ← get;
       if negb (reindex args)
          && Indexing.path_exists (Indexing.persist_directory indexer) p
       then
         say "Found existing index. Loading...";;
         Indexing.load_existing_index w indexer "documents"
       else
         say "Creating new index...";;
         Indexing.index_documents w indexer documents "documents")
      (λ e, say ("Error indexing documents: " +:+ exn_str e);; sys_exit 1);
    say (Py.nl +:+ "Step 3: Initializing QA system...");;
    qa_retriever ← try_st
      (Retrieval.new w vector_store None (k args))
      (λ e, say ("Error initializing QA system: " +:+ exn_str e);;
            sys_exit 1);
    say (Py.nl +:+ banner);;
    say "Ready! Ask questions about your documents.";;
    say "Type 'quit' to exit.";;
    say "Type 'reindex' to reload and reindex documents from the folder.";;
    say banner;;
    say "";;
    mret (mkLocals documents indexer vector_store qa_retriever).

(** How one round of the [while True] loop ends. *)
Inductive control : Type :=
| Continue
| Break.

(** The statements inside the [try] of the [reindex] command. *)
Definition reindex_body (args : Args) (w : world) : st machine unit :=
  say (Py.nl +:+ "Step 1: Reloading documents from folder...");;
  documents ← lift (Loaders.load_folder (parsers w) (docs args)
                      (docs_folder w));
  set_documents documents;;
  match documents with
  | [] => say "Warning: No documents found in the folder."
  | _ =>
      say (Py.nl +:+ "Step 2: Reindexing documents...");;
      s ← get;
      '(indexer, vector_store) ←
        zoom (Indexing.index_documents w (indexer (vars s)) documents
                "documents");
      set_vector_store indexer vector_store;;
      say (Py.nl +:+ "Step 3: Updating QA system...");;
      qa_retriever ← zoom (Retrieval.new w vector_store None (k args));
      set_qa_retriever qa_retriever;;
      say (Py.nl +:+ banner);;
      say "Reindexing complete! The database has been updated.";;
      say banner;;
      say ""
  end.

(** The [try] statement of the [reindex] command with its handler. *)
Definition reindex_command (args : Args) (w : world) : st machine unit :=
  try_st (reindex_body args w)
    (λ e, say (Py.nl +:+ "Error during reindexing: " +:+ exn_str e);;
          say "The previous index is still available.").

(** The statements inside the [try] of the loop body; [line] is what
    [input] returns or raises. *)
Definition round_body (args : Args) (w : world) (line : result string)
    : st machine control :=
  line ← lift (call (Input (Py.nl +:+ "Question: ")) line);
  let question := Py.strip line in
  if bool_decide (question = "") then mret Continue
  else if bool_decide (Py.lower question = "quit") then
    say (Py.nl +:+ "Goodbye!");;
    mret Break
  else if bool_decide (Py.lower question = "reindex") then
    say (Py.nl +:+ banner);;
    say "Reindexing documents...";;
    say banner;;
    reindex_command args w;;
    mret Continue
  else
    say (Py.nl +:+ "Searching documents...");;
    s ← get;
    result ← zoom (Retrieval.answer_question w (qa_retriever (vars s))
                     question);
    say (Py.nl +:+ Retrieval.format_response result true);;
    mret Continue.

(** One round of the [while True] loop, with its two handlers. *)
Definition round (args : Args) (w : world) (line : result string)
    : st machine control :=
  λ s,
  match round_body args w line s with
  | (s', (out, Raise KeyboardInterrupt)) =>
      (s', (out ++ [Print (Py.nl +:+ Py.nl +:+ "Goodbye!")], Ok Break))
  | (s', (out, Raise e)) =>
      if is_Exception e
      then (s', (out ++ [Print (Py.nl +:+ "Error: " +:+ exn_str e);
                         Print "Please try again or type 'quit' to exit."],
                 Ok Continue))
      else (s', (out, Raise e))
  | ok => ok
  end.

(** How far the loop got on the rounds it was given: it left through
    [break], or it is waiting in [input] for a further line. *)
Inductive status : Type :=
| Finished
| Waiting.

(** The [while True] loop over the rounds the terminal and the world
    provide. *)
Fixpoint loop (args : Args) (rounds : list (world * result string))
    : st machine status :=
  match rounds with
  | [] => mret Waiting
  | (w, line) :: rest =>
      c ← round args w line;
      match c with
      | Break => mret Finished
      | Continue => loop args rest
      end
  end.

(** The loop started on the local variables [setup] leaves. *)
Definition enter_loop (args : Args) (rounds : list (world * result string))
    (vars : locals) : st process status :=
  λ p, let '(s, r) := loop args rounds (mkMachine p vars) in (proc s, r).

(** [main()] after [parser.parse_args()]. *)
Definition main (args : Args) (w : world)
    (rounds : list (world * result string)) : st process status :=
  vars ← setup args w;
  enter_loop args rounds vars.

(** The exit code of the interpreter for an outcome of [main]: 0 on return,
    the argument of [sys.exit], 130 for an interrupt nobody caught and 1 for
    any other exception nobody caught. *)
Definition exit_code {A} (r : result A) : Z :=
  match r with
  | Ok _ => 0
  | Raise (SystemExit code) => code
  | Raise KeyboardInterrupt => 130
  | Raise _ => 1
  end.

End App.

(** * Statements *)

(** ** Vocabulary of the statements *)

(** A line of the environment file names a variable: stripped, it is not
    empty, does not start with ['#'], and has the form [a=b] with no ['='] in
    [a]; the variable is [a] and its value [b], both stripped. *)
Definition sets_variable (line key value : string) : Prop :=
  let l := Py.strip line in
  l ≠ "" ∧ Py.startswith l "#" = false ∧
  ∃ a b, l = a +:+ "=" +:+ b ∧ Py.contains "=" a = false
         ∧ key = Py.strip a ∧ value = Py.strip b.

(** A name and a value the environment accepts: the name is not empty and
    neither holds a NUL character. *)
Definition legal_assignment (key value : string) : Prop :=
  key ≠ "" ∧ Py.contains Utils.nul key = false
  ∧ Py.contains Utils.nul value = false.

(** The chunks one file contributes: what [load_document] returns for it. *)
Definition file_chunks (load : Loaders.parsers) (path : string)
    : list Document :=
  match Loaders.load_document load path with
  | (_, Ok docs) => docs
  | (_, Raise _) => []
  end.

(** A result with the same answer and sources and no context. *)
Definition without_context (result : Retrieval.qa_result)
    : Retrieval.qa_result :=
  Retrieval.mkResult (Retrieval.answer result) (Retrieval.sources result) [].

(** The part of the formatted response that displays the chunks [shown]. *)
Definition context_section (shown : list Document) : list string :=
  match shown with
  | [] => []
  | _ =>
      [Py.repeat "=" 60; "RETRIEVED CONTEXT:"; Py.repeat "=" 60]
      ++ ('(i, doc) ← Retrieval.enumerate1 shown; Retrieval.chunk_lines i doc)
  end.

Section Vocabulary.
Import App.

(** The environment after [load_env_file()] at the start of [main]. *)
Definition after_env_file (w : world) (p : process) : process :=
  mkProcess (Utils.load_env_file (env_file w) (environ p)).1 (disk p)
    (next_object p).

(** [load_env_file()] at the start of [main] returns normally. *)
Definition env_file_loads (w : world) (p : process) : Prop :=
  (Utils.load_env_file (env_file w) (environ p)).2 = Ok tt.

(** The separators the indexer gives its splitter. *)
Definition indexer_separators : list string :=
  [Py.nl +:+ Py.nl; Py.nl; " "; ""].

(** The chunks stored in a collection of a directory. *)
Definition collection (p : process) (directory name : string)
    : list Document :=
  Chroma.contents p (Chroma.mk directory name 0).

(** The process after a successful bulk insert of [chunks]. *)
Definition inserted (directory name : string) (chunks : list Document)
    (p : process) : process :=
  let q := Chroma.get_or_create directory name p in
  mkProcess (environ q)
    (<[directory := <[name := chunks]> (default ∅ (disk q !! directory))]>
       (disk q))
    (S (next_object q)).

(** The indexer with its [vector_store] attribute set. *)
Definition with_store (self : Indexing.DocumentIndexer) (vs : Chroma.t)
    : Indexing.DocumentIndexer :=
  Indexing.mkIndexer (Indexing.chunk_size self) (Indexing.chunk_overlap self)
    (Indexing.persist_directory self) (Indexing.text_splitter self) (Some vs).

(** The exception [_get_embeddings] and [_get_llm] raise without a key. *)
Definition key_missing_error : exn :=
  ValueError
    "OPENAI_API_KEY is required. Please set it in your .env file or environment variables.".

(** The loop state with [documents] assigned. *)
Definition with_documents (d : list Document) (s : machine) : machine :=
  mkMachine (proc s)
    (mkLocals d (indexer (vars s)) (vector_store (vars s))
       (qa_retriever (vars s))).

(** The line read is the [reindex] command. *)
Definition reindex_line (line : result string) : Prop :=
  ∃ q, line = Ok q ∧ Py.lower (Py.strip q) = "reindex".

(** The line read is a question: not empty, not [quit], not [reindex]. *)
Definition question_line (line : result string) (question : string) : Prop :=
  ∃ q, line = Ok q ∧ question = Py.strip q ∧ question ≠ ""
       ∧ Py.lower question ≠ "quit" ∧ Py.lower question ≠ "reindex".

(** An error inside one round of the loop: [input] fails, answering the
    question fails, the [reindex] command fails, or it reloads nothing. *)
Inductive error_occurs (args : App.Args) (w : world) (line : result string)
    (s : App.machine) : Prop :=
| input_failed e :
    line = Raise e → is_Exception e = true → error_occurs args w line s
| question_failed question p out e :
    question_line line question →
    Retrieval.answer_question w (qa_retriever (vars s)) question (proc s)
    = (p, (out, Raise e)) →
    is_Exception e = true → error_occurs args w line s
| reindex_failed s' out e :
    reindex_line line →
    reindex_body args w s = (s', (out, Raise e)) →
    is_Exception e = true → error_occurs args w line s
| reindex_empty out :
    reindex_line line →
    Loaders.load_folder (parsers w) (docs args) (docs_folder w)
    = (out, Ok []) →
    error_occurs args w line s.

(** The events of a round end with the message of one of the handlers or
    with the warning of an empty reload. *)
Definition error_reported (out : list event) : Prop :=
  ∃ pre,
    out = pre ++ [Print "Please try again or type 'quit' to exit."]
    ∨ out = pre ++ [Print "The previous index is still available."]
    ∨ out = pre ++ [Print "Warning: No documents found in the folder."].

(** The loop state [setup] leaves, when it does not exit. *)
Definition machine_after_setup (args : App.Args) (w : world) (p : process)
    : option App.machine :=
  match App.setup args w p with
  | (p', (_, Ok v)) => Some (App.mkMachine p' v)
  | _ => None
  end.

(** Example data: the default command line for the folder [docs]. *)
Definition example_args : App.Args := App.mkArgs "docs" false 1000 200 4.

(** Example data: a folder with one text file holding [text], an environment
    file with a key, working embedding and vector-store services, a chat
    client whose construction ends as [chat], and a chain that returns the
    first [k] stored chunks. *)
Definition example_docs_world (text : string) (chat : result unit) : world :=
  mkWorld (Some ["OPENAI_API_KEY=sk-test"])
    (Some [Loaders.mkEntry "docs/notes.txt" true]) true
    (λ _ _, Ok [mkDocument text ∅]) (Ok tt) (λ _, Ok tt) (Ok tt) chat
    (λ items k _,
       Ok (mkChainResult (Some "answer") (Some (take (Z.to_nat k) items)))).

(** A world without an environment file. *)
Definition example_world_without_key : world :=
  mkWorld None (Some []) true (λ _ _, Ok []) (Ok tt) (λ _, Ok tt) (Ok tt)
    (Ok tt) (λ _ _ _, Ok (mkChainResult None None)).

(** A world with a key and an empty folder. *)
Definition example_empty_world : world :=
  mkWorld (Some ["OPENAI_API_KEY=sk-test"]) (Some []) true
    (λ _ _, Ok []) (Ok tt) (λ _, Ok tt) (Ok tt) (Ok tt)
    (λ _ _ _, Ok (mkChainResult None None)).

(** A loop state as [setup] leaves it in the example world whose file holds
    ["old text"]: the collection holds the chunk of that file. *)
Definition example_state : machine :=
  let vs := Chroma.mk "./chroma_db" "documents" 0 in
  mkMachine
    (mkProcess {["OPENAI_API_KEY" := "sk-test"]}
       {["./chroma_db" :=
           {["documents" :=
               [mkDocument "old text"
                  (<["file_type" := "txt"]>
                     (<["file_name" := "notes.txt"]>
                        {["source" := "docs/notes.txt"]}))]]}]} 1)
    (mkLocals
       [mkDocument "old text"
          (<["file_type" := "txt"]>
             (<["file_name" := "notes.txt"]>
                {["source" := "docs/notes.txt"]}))]
       (Indexing.mkIndexer 1000 200 "./chroma_db"
          (Splitter.mk 1000 200 indexer_separators) (Some vs))
       vs (Retrieval.mkQARetriever vs 4 "gpt-3.5-turbo"
             (Retrieval.mkChain vs 4 "gpt-3.5-turbo"))).

End Vocabulary.

(** The number of characters two consecutive chunks share: the length of the
    longest end of [a] that is a start of [b]. *)
Fixpoint overlap (a b : string) : nat :=
  if String.prefix a b then Py.len a
  else match a with
       | EmptyString => 0
       | String _ a' => overlap a' b
       end.

(** The chunking property as the specification words it: every chunk of
    [text] has at most [chunk_size] characters and every two consecutive
    chunks, the last pair apart, share at least [chunk_overlap]
    characters. *)
Definition chunks_overlap (sp : Splitter.t) (text : string) : Prop :=
  let chunks := Splitter.split_text sp text in
  Forall (λ c, Py.len c ≤ Splitter.chunk_size sp) chunks
  ∧ ∀ i a b, chunks !! i = Some a → chunks !! S i = Some b →
             S (S i) < length chunks →
             Splitter.chunk_overlap sp ≤ overlap a b.

(** The characters of the chunks after the first that are not shared with
    the chunk before, [skip] characters being shared. *)
Fixpoint unshared (skip : nat) (chunks : list string) : string :=
  match chunks with
  | [] => ""
  | c :: rest => Py.slice_from skip c +:+ unshared skip rest
  end.

(** The text a list of overlapping chunks covers: the first chunk, then
    every later chunk without the [skip] characters it shares with the one
    before. *)
Definition rebuild (skip : nat) (chunks : list string) : string :=
  match chunks with
  | [] => ""
  | c :: rest => c +:+ unshared skip rest
  end.

(** Three short paragraphs. *)
Definition example_paragraphs : string :=
  "aaaa" +:+ Py.nl +:+ Py.nl +:+ "bbbb" +:+ Py.nl +:+ Py.nl +:+ "cccc".

(** A chain result with two chunks of one file and a chunk without a
    source. *)
Definition example_answer : chain_result :=
  mkChainResult (Some "Paris")
    (Some [mkDocument "a" {["source" := "notes.txt"]};
           mkDocument "b" {["source" := "notes.txt"]};
           mkDocument "c" ∅]).

(** A world where every service works and the chain always returns [cr]. *)
Definition example_world (cr : chain_result) : world :=
  mkWorld None None false (λ _ _, Ok []) (Ok tt) (λ _, Ok tt) (Ok tt) (Ok tt)
    (λ _ _ _, Ok cr).

(** ** Vocabulary of the further properties *)

(** The paths handed to a parser, in the order of the calls. *)
Definition parsed_paths (out : list event) : list string :=
  omap (λ ev, match ev with ParseFile path => Some path | _ => None end) out.

(** The keys [load_document] writes into the metadata of a chunk. *)
Definition loader_keys : list string := ["source"; "file_name"; "file_type"].

Section ExtraVocabulary.
Import App.

(** Every failure of a parser, a client or the vector store is an exception
    of class [Exception]: none of them raises [KeyboardInterrupt] or
    [SystemExit]. *)
Definition fails_with_exceptions (w : world) : Prop :=
  (∀ l path e, parsers w l path = Raise e → is_Exception e = true)
  ∧ (∀ e, openai_embeddings w = Raise e → is_Exception e = true)
  ∧ (∀ chunks e, chroma_from_documents w chunks = Raise e →
                 is_Exception e = true)
  ∧ (∀ e, chroma_open w = Raise e → is_Exception e = true)
  ∧ (∀ e, chat_openai w = Raise e → is_Exception e = true).

(** The loop state after the bulk insert of a [reindex] command succeeded on
    the documents [docs]; [renew] tells whether the new QA retriever was
    constructed as well. *)
Definition reindexed (args : Args) (docs : list Document) (renew : bool)
    (s : machine) : machine :=
  let ix := indexer (vars s) in
  let vs := Chroma.mk (Indexing.persist_directory ix) "documents"
              (next_object (proc s)) in
  mkMachine
    (inserted (Indexing.persist_directory ix) "documents"
       (Splitter.split_documents (Indexing.text_splitter ix) docs) (proc s))
    (mkLocals docs (with_store ix vs) vs
       (if renew
        then Retrieval.mkQARetriever vs (k args) "gpt-3.5-turbo"
               (Retrieval.mkChain vs (k args) "gpt-3.5-turbo")
        else qa_retriever (vars s))).

(** The variables of the loop fit together: the retriever retrieves [--k]
    chunks through a chain over its own vector store, and that store, the
    [vector_store] variable and the indexer all name the collection
    ["documents"] of the indexer's directory. *)
Definition coherent (args : Args) (s : machine) : Prop :=
  let qa := qa_retriever (vars s) in
  let ix := indexer (vars s) in
  Retrieval.k qa = k args
  ∧ Retrieval.qa_chain qa
    = Retrieval.mkChain (Retrieval.vector_store qa) (k args) (Retrieval.llm qa)
  ∧ Chroma.persist_directory (Retrieval.vector_store qa)
    = Indexing.persist_directory ix
  ∧ Chroma.collection_name (Retrieval.vector_store qa) = "documents"
  ∧ Chroma.persist_directory (vector_store (vars s))
    = Indexing.persist_directory ix
  ∧ Chroma.collection_name (vector_store (vars s)) = "documents"
  ∧ Indexing.vector_store ix = Some (vector_store (vars s)).

(** What no round of the loop changes: the environment and the
    configuration of the indexer. *)
Definition same_configuration (s s' : machine) : Prop :=
  environ (proc s') = environ (proc s)
  ∧ Indexing.chunk_size (indexer (vars s'))
    = Indexing.chunk_size (indexer (vars s))
  ∧ Indexing.chunk_overlap (indexer (vars s'))
    = Indexing.chunk_overlap (indexer (vars s))
  ∧ Indexing.persist_directory (indexer (vars s'))
    = Indexing.persist_directory (indexer (vars s))
  ∧ Indexing.text_splitter (indexer (vars s'))
    = Indexing.text_splitter (indexer (vars s)).

(** The indexing step of [main]: the existing index is loaded when
    [--reindex] is unset and the directory exists, and the documents are
    indexed otherwise. *)
Definition index_step (args : Args) (w : world) (ix : Indexing.DocumentIndexer)
    (docs : list Document) (p : process)
    : process * io (Indexing.DocumentIndexer * Chroma.t) :=
  if negb (reindex args)
     && Indexing.path_exists (Indexing.persist_directory ix) p
  then Indexing.load_existing_index w ix "documents" p
  else Indexing.index_documents w ix docs "documents" p.

End ExtraVocabulary.

(** A round in which nothing raises [KeyboardInterrupt] or [SystemExit] but
    the user: the services fail with exceptions only, the chain too, and
    [input] does not raise [SystemExit]. *)
Definition polite (r : world * result string) : Prop :=
  fails_with_exceptions r.1
  ∧ (∀ items top_k question e,
       chain_invoke r.1 items top_k question = Raise e → is_Exception e = true)
  ∧ ∀ code, r.2 ≠ Raise (SystemExit code).

(** ** Strings *)

Lemma app_cons c a b : String c a +:+ b = String c (a +:+ b).
Proof. reflexivity. Qed.

Lemma app_empty_l b : "" +:+ b = b.
Proof. reflexivity. Qed.

Lemma len_app a b : Py.len (a +:+ b) = Py.len a + Py.len b.
Proof.
  induction a as [|c a IH]; [done |].
  rewrite app_cons. unfold Py.len in *. cbn [String.length]. by rewrite IH.
Qed.

Lemma prefix_cons a s1 b s2 :
  String.prefix (String a s1) (String b s2)
  = if decide (a = b) then String.prefix s1 s2 else false.
Proof.
  cbn [String.prefix]. destruct (ascii_dec a b); by case_decide.
Qed.

Lemma prefix_nil_l s : String.prefix "" s = true.
Proof. by destruct s. Qed.

Lemma slice_to_len n s : n ≤ Py.len s → Py.len (Py.slice_to n s) = n.
Proof.
  revert s. induction n as [|n IH]; intros [|c s]; cbn; try lia.
  intros H. rewrite IH; [done | unfold Py.len; lia].
Qed.

Lemma slice_to_prefix n s : String.prefix (Py.slice_to n s) s = true.
Proof.
  revert s. induction n as [|n IH]; intros [|c s]; try done.
  cbn [Py.slice_to]. rewrite prefix_cons, decide_True by done. apply IH.
Qed.

(** ** src/utils.py: the environment file *)

Section EnvFile.
Import Utils.

Lemma prefix_eq_cons c s :
  String.prefix "=" (String c s) = bool_decide (c = "="%char).
Proof.
  rewrite prefix_cons, prefix_nil_l.
  destruct (decide ("="%char = c)) as [<-|Hne].
  - by rewrite bool_decide_eq_true_2.
  - by rewrite bool_decide_eq_false_2.
Qed.

Lemma contains_eq_cons c s :
  Py.contains "=" (String c s) = bool_decide (c = "="%char) || Py.contains "=" s.
Proof. cbn [Py.contains]. by rewrite prefix_eq_cons. Qed.

Lemma split_once_eq_cons c s :
  Py.split_once "=" (String c s)
  = if bool_decide (c = "="%char) then Some ("", s)
    else match Py.split_once "=" s with
         | Some (a, b) => Some (String c a, b)
         | None => None
         end.
Proof. cbn [Py.split_once]. by rewrite prefix_eq_cons. Qed.

Lemma split_once_eq_Some l a b :
  Py.split_once "=" l = Some (a, b) ↔
  l = a +:+ "=" +:+ b ∧ Py.contains "=" a = false.
Proof.
  revert a. induction l as [|c l IH]; intros a.
  - split; [intros [=] |]. intros [H _]. by destruct a.
  - rewrite split_once_eq_cons. case_bool_decide as Hc.
    + subst c. split.
      * by intros [= <- <-].
      * intros [H Hc]. destruct a as [|c' a].
        -- rewrite app_empty_l, app_cons, app_empty_l in H. by injection H as ->.
        -- rewrite app_cons in H. injection H as <- _.
           rewrite contains_eq_cons, bool_decide_eq_true_2 in Hc; done.
    + split.
      * destruct (Py.split_once "=" l) as [[a' b']|] eqn:Hs; [|intros [=]].
        intros [= <- <-]. destruct (IH a') as [IH1 _].
        destruct (IH1 eq_refl) as [-> Hc'].
        rewrite app_cons, contains_eq_cons, bool_decide_eq_false_2; done.
      * intros [H Hc']. destruct a as [|c' a].
        { rewrite app_empty_l, app_cons in H. congruence. }
        rewrite app_cons in H. injection H as -> H.
        rewrite contains_eq_cons in Hc'.
        apply orb_false_elim in Hc' as [_ Hc'].
        assert (Py.split_once "=" l = Some (a, b)) as -> by (by apply IH).
        done.
Qed.

Lemma contains_app_eq a b : Py.contains "=" (a +:+ "=" +:+ b) = true.
Proof.
  induction a as [|c a IH].
  - by rewrite app_empty_l, app_cons, contains_eq_cons, bool_decide_eq_true_2.
  - rewrite app_cons, contains_eq_cons, IH. apply orb_true_r.
Qed.

Lemma contains_eq_lstrip s :
  Py.contains "=" s = false → Py.contains "=" (Py.lstrip s) = false.
Proof.
  induction s as [|c s IH]; [done |]. cbn [Py.lstrip].
  destruct (Py.isspace c); [|done].
  rewrite contains_eq_cons. intros [_ ?]%orb_false_elim. auto.
Qed.

Lemma contains_eq_rev_app s1 s2 :
  Py.contains "=" (String.rev_app s1 s2)
  = Py.contains "=" s1 || Py.contains "=" s2.
Proof.
  revert s2. induction s1 as [|c s1 IH]; intros s2; [done |].
  cbn [String.rev_app]. rewrite IH, !contains_eq_cons.
  destruct (bool_decide _), (Py.contains "=" s1), (Py.contains "=" s2); done.
Qed.

Lemma contains_eq_rev s :
  Py.contains "=" (String.rev s) = Py.contains "=" s.
Proof. unfold String.rev. rewrite contains_eq_rev_app. apply orb_false_r. Qed.

Lemma contains_eq_strip s :
  Py.contains "=" s = false → Py.contains "=" (Py.strip s) = false.
Proof.
  intros H. unfold Py.strip, Py.rstrip.
  rewrite contains_eq_rev. apply contains_eq_lstrip.
  rewrite contains_eq_rev. by apply contains_eq_lstrip.
Qed.

Lemma environ_set_legal key value env :
  legal_assignment key value → Py.contains "=" key = false →
  environ_set key value env = Ok (<[key := value]> env).
Proof.
  intros (Hne & Hk & Hv) He. unfold environ_set.
  by rewrite Hk, Hv, He, bool_decide_eq_false_2.
Qed.

Lemma environ_set_cases key value env :
  environ_set key value env = Ok (<[key := value]> env)
  ∨ ∃ e, environ_set key value env = Raise e
         ∧ ∃ msg, e = ValueError msg ∨ e = OSError msg.
Proof.
  unfold environ_set.
  destruct (_ || _); [eauto 6 |]. destruct (Py.contains "=" key); [eauto 6 |].
  destruct (bool_decide _); eauto 6.
Qed.

Lemma split_once_sets line a b :
  Py.strip line ≠ "" → Py.startswith (Py.strip line) "#" = false →
  Py.split_once "=" (Py.strip line) = Some (a, b) →
  sets_variable line (Py.strip a) (Py.strip b)
  ∧ Py.contains "=" (Py.strip a) = false.
Proof.
  intros Hne Hst [Hl Hc]%split_once_eq_Some.
  split; [|by apply contains_eq_strip].
  repeat split; [done | done |]. eauto 10.
Qed.

Lemma load_env_line_sets env line key value :
  sets_variable line key value → legal_assignment key value →
  load_env_line env line = Ok (<[key := value]> env).
Proof.
  intros (Hne & Hst & a & b & Hl & Hc & -> & ->) Hlegal.
  unfold load_env_line.
  assert (Py.split_once "=" (Py.strip line) = Some (a, b)) as Hs
    by (apply split_once_eq_Some; done).
  rewrite Hs, Hst, bool_decide_eq_true_2 by done. cbn [negb andb].
  rewrite Hl at 1. rewrite contains_app_eq.
  apply environ_set_legal; [done | by apply contains_eq_strip].
Qed.

Lemma load_env_line_skips env line :
  (∀ key value, ¬ sets_variable line key value) →
  load_env_line env line = Ok env.
Proof.
  intros Hno. unfold load_env_line.
  destruct (bool_decide (Py.strip line ≠ "")) eqn:Hne; [|done].
  destruct (Py.startswith (Py.strip line) "#") eqn:Hst; [done |].
  destruct (Py.contains "=" (Py.strip line)) eqn:Hc; [|done]. cbn [negb andb].
  destruct (Py.split_once "=" (Py.strip line)) as [[a b]|] eqn:Hs; [|done].
  exfalso. apply bool_decide_eq_true in Hne.
  destruct (split_once_sets line a b Hne Hst Hs) as [Hset _].
  by apply (Hno _ _ Hset).
Qed.

Lemma load_env_line_cases env line :
  (load_env_line env line = Ok env)
  ∨ (∃ key value, sets_variable line key value
                  ∧ (load_env_line env line = Ok (<[key := value]> env)
                     ∨ ∃ e, load_env_line env line = Raise e
                            ∧ ∃ msg, e = ValueError msg ∨ e = OSError msg)).
Proof.
  unfold load_env_line.
  destruct (bool_decide (Py.strip line ≠ "")) eqn:Hne; [|by left].
  apply bool_decide_eq_true in Hne.
  destruct (Py.startswith (Py.strip line) "#") eqn:Hst; [by left |].
  destruct (Py.contains "=" (Py.strip line)) eqn:Hc; [|by left].
  cbn [negb andb].
  destruct (Py.split_once "=" (Py.strip line)) as [[a b]|] eqn:Hs; [|by left].
  destruct (split_once_sets line a b Hne Hst Hs) as [Hset _].
  right. exists (Py.strip a), (Py.strip b). split; [done |].
  apply environ_set_cases.
Qed.

Lemma load_env_lines_keep lines env name :
  (∀ l value, l ∈ lines → ¬ sets_variable l name value) →
  (load_env_lines lines env).1 !! name = env !! name.
Proof.
  revert env. induction lines as [|l lines IH]; intros env Hno; [done |].
  cbn [load_env_lines].
  assert (∀ l' v, l' ∈ lines → ¬ sets_variable l' name v) as Hno'
    by (intros l' v ?; apply Hno; by right).
  destruct (load_env_line_cases env l)
    as [->|(key & value & Hs & [->|(e0 & -> & _)])]; [by apply IH | | done].
  rewrite IH by done.
  apply lookup_insert_ne. intros ->. by apply (Hno l value); [left |].
Qed.

Lemma load_env_lines_changed lines env name value :
  (load_env_lines lines env).1 !! name = Some value →
  env !! name = Some value ∨ ∃ l, l ∈ lines ∧ sets_variable l name value.
Proof.
  revert env. induction lines as [|l lines IH]; intros env; [by left |].
  cbn [load_env_lines].
  destruct (load_env_line_cases env l)
    as [->|(key & v & Hs & [->|(e0 & -> & _)])].
  - intros [?|(l' & ? & ?)]%IH; [by left |].
    right. exists l'. split; [by right | done].
  - intros [H|(l' & ? & ?)]%IH.
    + destruct (decide (key = name)) as [->|Hne].
      * rewrite lookup_insert_eq in H. injection H as ->.
        right. exists l. split; [by left | done].
      * rewrite lookup_insert_ne in H by done. by left.
    + right. exists l'. split; [by right | done].
  - by left.
Qed.

Lemma load_env_lines_total lines env :
  (∀ l key value, l ∈ lines → sets_variable l key value →
                  legal_assignment key value) →
  (load_env_lines lines env).2 = Ok tt.
Proof.
  revert env. induction lines as [|l lines IH]; intros env Hlegal; [done |].
  cbn [load_env_lines].
  assert (∀ l' k v, l' ∈ lines → sets_variable l' k v → legal_assignment k v)
    as Hlegal' by (intros l' k v ?; apply Hlegal; by right).
  destruct (load_env_line_cases env l)
    as [->|(key & value & Hs & _)]; [by apply IH |].
  rewrite (load_env_line_sets env l key value) by (done || by eapply Hlegal;
    [left |]).
  by apply IH.
Qed.

Lemma load_env_lines_raises lines env e :
  (load_env_lines lines env).2 = Raise e →
  ∃ msg, e = ValueError msg ∨ e = OSError msg.
Proof.
  revert env. induction lines as [|l lines IH]; intros env; [done |].
  cbn [load_env_lines].
  destruct (load_env_line_cases env l)
    as [->|(key & value & Hs & [->|(e0 & -> & He0)])]; [apply IH | apply IH |].
  by intros [= <-].
Qed.

Lemma load_env_lines_app lines line env :
  load_env_lines (lines ++ [line]) env
  = match load_env_lines lines env with
    | (env', Ok _) =>
        match load_env_line env' line with
        | Ok env'' => (env'', Ok tt)
        | Raise e => (env', Raise e)
        end
    | failed => failed
    end.
Proof.
  revert env. induction lines as [|l lines IH]; intros env.
  - cbn. by destruct (load_env_line env line).
  - cbn [app load_env_lines].
    destruct (load_env_line env l); [apply IH | done].
Qed.

(** C10, as amended.  When the file does not exist [load_env_file] returns
    with the environment unchanged.  Otherwise the lines are processed in
    order; a line that, stripped, is empty, starts with ['#'] or holds no
    ['='] leaves the environment as it is, and any other line names the
    variable given by the stripped text before its first ['='] and the value
    given by the stripped text after it (which may hold ['=']), and sets it
    when the environment accepts them.  Whatever the file holds, a variable
    no line names keeps its value and a value found afterwards was there
    before or was named by a line; and when the environment accepts what
    every line names, [load_env_file] returns normally. *)
Theorem load_env_file_conservative
    (file_lines : list string) (line : string) (env : environ)
    (name : string) :
  load_env_file None env = (env, Ok tt)
  ∧ load_env_file (Some (file_lines ++ [line])) env
    = match load_env_file (Some file_lines) env with
      | (env', Ok _) =>
          match load_env_line env' line with
          | Ok env'' => (env'', Ok tt)
          | Raise e => (env', Raise e)
          end
      | failed => failed
      end
  ∧ ((∀ key value, ¬ sets_variable line key value) →
     load_env_line env line = Ok env)
  ∧ (∀ key value, sets_variable line key value →
       legal_assignment key value →
       load_env_line env line = Ok (<[key := value]> env))
  ∧ ((∀ l value, l ∈ file_lines → ¬ sets_variable l name value) →
     (load_env_file (Some file_lines) env).1 !! name = env !! name)
  ∧ (∀ value,
       (load_env_file (Some file_lines) env).1 !! name = Some value →
       env !! name = Some value
       ∨ ∃ l, l ∈ file_lines ∧ sets_variable l name value)
  ∧ ((∀ l key value, l ∈ file_lines → sets_variable l key value →
                     legal_assignment key value) →
     (load_env_file (Some file_lines) env).2 = Ok tt).
Proof.
  split_and!.
  - done.
  - apply load_env_lines_app.
  - apply load_env_line_skips.
  - apply load_env_line_sets.
  - apply load_env_lines_keep.
  - intros value. apply load_env_lines_changed.
  - apply load_env_lines_total.
Qed.

(** An assignment whose value contains ['=']. *)
Lemma load_env_file_conservative_witness :
  load_env_line ∅ " KEY = a=b " = Ok {["KEY" := "a=b"]}.
Proof.
  destruct (load_env_file_conservative [] " KEY = a=b " ∅ "KEY")
    as (_ & _ & _ & Hset & _).
  apply (Hset "KEY" "a=b").
  - repeat split; [discriminate |]. exists "KEY ", " a=b". by vm_compute.
  - by vm_compute.
Defined.

(** C10, counterexample.  The second line has an empty name: the variable
    of the first line is set, the second line raises, and the third line is
    not read. *)
Lemma load_env_file_raises_on_empty_name :
  load_env_file (Some ["A=1"; "=x"; "B=2"]) ∅
  = ({["A" := "1"]}, Raise (OSError "[Errno 22] Invalid argument")).
Proof. vm_compute. reflexivity. Qed.

End EnvFile.

(** ** src/loaders.py *)

Section LoaderFacts.
Import Loaders.

Lemma load_document_unfold load path :
  load_document load path =
  let extension := Py.lower (Path.suffix path) in
  match loader_for extension with
  | Some l =>
      match load l path with
      | Ok docs =>
          ([ParseFile path],
           Ok (add_metadata (<["file_name" := Path.name path]>
                               {["source" := path]}) extension <$> docs))
      | Raise e =>
          if is_Exception e
          then ([ParseFile path;
                 Print ("Error loading " +:+ path +:+ ": " +:+ exn_str e)],
                Ok [])
          else ([ParseFile path], Raise e)
      end
  | None =>
      ([Print ("Warning: Unsupported file format: " +:+ extension)], Ok [])
  end.
Proof.
  unfold load_document. cbv zeta.
  destruct (loader_for _) as [l|]; [|reflexivity].
  unfold call, mbind, io_bind, mret, io_ret, try_except, print.
  destruct (load l path) as [docs|e]; [reflexivity |].
  destruct (is_Exception e); reflexivity.
Qed.

Lemma add_metadata_source path name ext doc :
  metadata (add_metadata (<["file_name" := name]> {["source" := path]}) ext doc)
    !! "source" = Some path.
Proof.
  unfold add_metadata. cbn [metadata].
  rewrite lookup_insert_ne by done.
  apply lookup_union_Some_l.
  rewrite lookup_insert_ne by done. apply lookup_singleton_eq.
Qed.

Lemma load_document_sources load path out docs :
  load_document load path = (out, Ok docs) →
  Forall (λ d, metadata d !! "source" = Some path) docs.
Proof.
  rewrite load_document_unfold. cbv zeta.
  destruct (loader_for _) as [l|].
  - destruct (load l path) as [docs0|e].
    + intros [= <- <-]. apply Forall_fmap, Forall_forall. intros d _.
      apply add_metadata_source.
    + destruct (is_Exception e); intros [= <- <-]. constructor.
  - intros [= <- <-]. constructor.
Qed.

Lemma load_entries_filter load entries acc :
  load_entries load entries acc
  = load_entries load (filter (λ e, is_supported e) entries) acc.
Proof.
  revert acc. induction entries as [|e entries IH]; intros acc; [done |].
  rewrite filter_cons. cbn [load_entries].
  destruct (is_supported e) eqn:He.
  - rewrite decide_True by exact I. cbn [load_entries]. rewrite He.
    unfold mbind, io_bind, print.
    destruct (load_document load (entry_path e)) as [o [d|ex]]; [|done].
    by rewrite IH.
  - rewrite decide_False by (intros []). apply IH.
Qed.

Lemma load_entries_Ok load entries acc out docs :
  load_entries load entries acc = (out, Ok docs) →
  docs = acc ++ (e ← filter (λ e, is_supported e) entries;
                 file_chunks load (entry_path e)).
Proof.
  revert acc out. induction entries as [|e entries IH]; intros acc out.
  - intros [= <- <-]. by rewrite app_nil_r.
  - rewrite filter_cons. cbn [load_entries].
    destruct (is_supported e) eqn:He.
    + rewrite decide_True by exact I.
      unfold mbind at 1 2, io_bind, print.
      rewrite bind_cons.
      destruct (load_document load (entry_path e)) as [o [d|ex]] eqn:Hd.
      * assert (file_chunks load (entry_path e) = d) as ->
          by (unfold file_chunks; by rewrite Hd).
        destruct (load_entries load entries (acc ++ d)) as [o' r] eqn:Hl.
        intros [= <- ->]. apply IH in Hl. rewrite Hl.
        by rewrite app_assoc.
      * intros [=].
    + rewrite decide_False by (intros []). apply IH.
Qed.

Lemma load_entries_total load entries acc :
  (∀ e l ex, e ∈ entries → load l (entry_path e) = Raise ex →
             is_Exception ex = true) →
  ∃ out docs, load_entries load entries acc = (out, Ok docs).
Proof.
  revert acc. induction entries as [|e entries IH]; intros acc Hex.
  - by eexists _, _.
  - cbn [load_entries].
    assert (∀ e' l ex, e' ∈ entries → load l (entry_path e') = Raise ex →
                       is_Exception ex = true) as Hex'.
    { intros e' l ex He'. apply Hex. by right. }
    destruct (is_supported e); [|by apply IH].
    unfold mbind at 1 2, io_bind, print.
    rewrite load_document_unfold. cbv zeta.
    destruct (loader_for _) as [l|].
    + destruct (load l (entry_path e)) as [d|ex] eqn:Hl.
      * destruct (IH (acc ++ (add_metadata
                   (<["file_name" := Path.name (entry_path e)]>
                      {["source" := entry_path e]})
                   (Py.lower (Path.suffix (entry_path e))) <$> d)) Hex')
          as (o & ds & ->). by eexists _, _.
      * rewrite (Hex e l ex) by (done || by left).
        destruct (IH (acc ++ []) Hex') as (o & ds & ->). by eexists _, _.
    + destruct (IH (acc ++ []) Hex') as (o & ds & ->). by eexists _, _.
Qed.

Lemma load_document_failure load path l ex :
  loader_for (Py.lower (Path.suffix path)) = Some l →
  load l path = Raise ex →
  is_Exception ex = true →
  load_document load path
  = ([ParseFile path;
      Print ("Error loading " +:+ path +:+ ": " +:+ exn_str ex)], Ok []).
Proof.
  intros Hl Hr Hex. rewrite load_document_unfold. cbv zeta.
  by rewrite Hl, Hr, Hex.
Qed.

Lemma load_folder_unfold load folder_path entries :
  load_folder load folder_path (Some entries)
  = match load_entries load entries [] with
    | (out, Ok docs) =>
        (out ++ [Print (Py.nl +:+ "Loaded " +:+ pretty (length docs)
                        +:+ " document chunks from " +:+ folder_path)],
         Ok docs)
    | (out, Raise e) => (out, Raise e)
    end.
Proof.
  unfold load_folder, mbind, io_bind, mret, io_ret, print.
  destruct (load_entries load entries []) as [out [docs|e]]; [|done].
  by rewrite app_nil_r.
Qed.

Lemma file_chunks_sources load path :
  Forall (λ d, metadata d !! "source" = Some path) (file_chunks load path).
Proof.
  unfold file_chunks.
  destruct (load_document load path) as [out [docs|e]] eqn:H; [|constructor].
  by eapply load_document_sources.
Qed.

Lemma load_folder_sources load folder_path entries out docs :
  load_folder load folder_path (Some entries) = (out, Ok docs) →
  Forall (λ d, ∃ e, e ∈ entries ∧ is_supported e = true
                    ∧ metadata d !! "source" = Some (entry_path e)) docs.
Proof.
  rewrite load_folder_unfold.
  destruct (load_entries load entries []) as [o [ds|ex]] eqn:Hl; [|done].
  intros [= <- <-]. apply load_entries_Ok in Hl as ->.
  rewrite app_nil_l. apply Forall_forall. intros d Hd.
  apply list_elem_of_bind in Hd as (e & Hd & He).
  apply list_elem_of_filter in He as [Hs He].
  exists e. split_and!; [done | by apply Is_true_true |].
  pose proof (file_chunks_sources load (entry_path e)) as HF.
  rewrite Forall_forall in HF. by apply HF.
Qed.

(** C6. Whatever the folder holds, [load_folder] behaves as if the items
    that are not files with a supported extension were not there: they add
    no chunk, no event and no error.  A supported file whose parser raises an
    exception yields no chunk and an error line, and when parsers only fail
    that way [load_folder] returns the chunks of all supported files in
    traversal order, a failed file counting for none.  Every chunk returned
    names a supported file of the folder as its source. *)
Theorem load_folder_supported_only
    (load : parsers) (folder_path : string) (entries : list entry) :
  load_folder load folder_path (Some entries)
  = load_folder load folder_path
      (Some (filter (λ e, is_supported e) entries))
  ∧ (∀ e l ex,
       loader_for (Py.lower (Path.suffix (entry_path e))) = Some l →
       load l (entry_path e) = Raise ex → is_Exception ex = true →
       file_chunks load (entry_path e) = []
       ∧ ∃ out, load_document load (entry_path e) = (out, Ok []))
  ∧ ((∀ e l ex, e ∈ entries → load l (entry_path e) = Raise ex →
                is_Exception ex = true) →
     ∃ out, load_folder load folder_path (Some entries)
            = (out, Ok (e ← filter (λ e, is_supported e) entries;
                        file_chunks load (entry_path e))))
  ∧ (∀ out docs, load_folder load folder_path (Some entries) = (out, Ok docs) →
       Forall (λ d, ∃ e, e ∈ entries ∧ is_supported e = true
                         ∧ metadata d !! "source" = Some (entry_path e))
         docs).
Proof.
  split_and!.
  - rewrite !load_folder_unfold. by rewrite load_entries_filter.
  - intros e l ex Hl Hr Hex.
    pose proof (load_document_failure load _ _ _ Hl Hr Hex) as H.
    split; [unfold file_chunks; by rewrite H | eauto].
  - intros Hex. rewrite load_folder_unfold.
    destruct (load_entries_total load entries [] Hex) as (o & ds & Hl).
    rewrite Hl. apply load_entries_Ok in Hl as ->. eauto.
  - apply load_folder_sources.
Qed.

(** C7. Every chunk [load_document] returns carries the path of its file
    under the metadata key ["source"], and so does every chunk of
    [load_folder], for a supported file of the folder.  When the parser for
    the extension returns documents for the file, [load_document] returns as
    many chunks, so at least one when the parser returns at least one. *)
Theorem load_document_source
    (load : parsers) (path : string) (l : loader)
    (parsed : list Document) :
  (∀ out docs, load_document load path = (out, Ok docs) →
     Forall (λ d, metadata d !! "source" = Some path) docs)
  ∧ (∀ folder_path entries out docs,
       load_folder load folder_path (Some entries) = (out, Ok docs) →
       Forall (λ d, ∃ e, e ∈ entries ∧ is_supported e = true
                         ∧ metadata d !! "source" = Some (entry_path e))
         docs)
  ∧ (loader_for (Py.lower (Path.suffix path)) = Some l →
     load l path = Ok parsed → parsed ≠ [] →
     ∃ docs, load_document load path = ([ParseFile path], Ok docs)
             ∧ length docs = length parsed ∧ docs ≠ []
             ∧ Forall (λ d, metadata d !! "source" = Some path) docs).
Proof.
  split_and!.
  - apply load_document_sources.
  - intros. by eapply load_folder_sources.
  - intros Hl Hr Hne. rewrite load_document_unfold. cbv zeta.
    rewrite Hl, Hr. eexists. split_and!; [done | | |].
    + by rewrite length_fmap.
    + by destruct parsed.
    + apply Forall_fmap, Forall_forall. intros d _.
      apply add_metadata_source.
Qed.

(** A text file with one paragraph, as the example scenario has it. *)
Lemma load_document_source_witness :
  ∃ docs,
    load_document (λ _ _, Ok [mkDocument "Paris is the capital of France." ∅])
      "docs/notes.txt" = ([ParseFile "docs/notes.txt"], Ok docs)
    ∧ length docs = 1 ∧ docs ≠ []
    ∧ Forall (λ d, metadata d !! "source" = Some "docs/notes.txt") docs.
Proof.
  apply (load_document_source
           (λ _ _, Ok [mkDocument "Paris is the capital of France." ∅])
           "docs/notes.txt" TextLoader
           [mkDocument "Paris is the capital of France." ∅]).
  - vm_compute. reflexivity.
  - reflexivity.
  - discriminate.
Defined.

(** A folder with a text file, a program and a text file that cannot be
    parsed. *)
Lemma load_folder_supported_only_witness :
  ∃ out,
    load_folder
      (λ _ path, if bool_decide (path = "docs/bad.txt")
                 then Raise (OtherException "cannot decode")
                 else Ok [mkDocument "text" ∅])
      "docs"
      (Some [mkEntry "docs/a.txt" true; mkEntry "docs/tool.exe" true;
             mkEntry "docs/bad.txt" true])
    = (out, Ok (e ← filter (λ e, is_supported e)
                      [mkEntry "docs/a.txt" true; mkEntry "docs/tool.exe" true;
                       mkEntry "docs/bad.txt" true];
                file_chunks
                  (λ _ path, if bool_decide (path = "docs/bad.txt")
                             then Raise (OtherException "cannot decode")
                             else Ok [mkDocument "text" ∅])
                  (entry_path e))).
Proof.
  apply load_folder_supported_only.
  intros e l ex _. case_bool_decide; [|discriminate].
  by intros [= <-].
Defined.

End LoaderFacts.

(** ** src/retrieval.py *)

Section RetrievalFacts.
Import Retrieval.

Lemma truncate_short content :
  Py.len content ≤ 300 → truncate content = content.
Proof.
  intros H. unfold truncate.
  destruct (Nat.ltb_spec 300 (Py.len content)); [lia | done].
Qed.

Lemma truncate_long content :
  300 < Py.len content →
  truncate content = Py.slice_to 300 content +:+ "..."
  ∧ Py.len (Py.slice_to 300 content) = 300
  ∧ String.prefix (Py.slice_to 300 content) content = true
  ∧ Py.len (truncate content) = 303.
Proof.
  intros H. unfold truncate.
  destruct (Nat.ltb_spec 300 (Py.len content)); [|lia].
  rewrite len_app, slice_to_len by lia.
  split_and!; [done | done | apply slice_to_prefix | done].
Qed.

Lemma format_lines_context result show_context :
  format_lines result show_context
  = format_lines (without_context result) show_context
    ++ (if show_context && bool_decide (context result ≠ [])
        then [Py.repeat "=" 60; "RETRIEVED CONTEXT:"; Py.repeat "=" 60]
             ++ ('(i, doc) ← enumerate1 (take 3 (context result));
                 chunk_lines i doc)
        else []).
Proof.
  unfold format_lines, without_context. cbn [answer sources context].
  rewrite (bool_decide_eq_false_2 ([] ≠ [])) by (intros H; by apply H).
  rewrite andb_false_r.
  destruct (show_context && bool_decide (context result ≠ [])).
  - destruct (sources result); by rewrite <- ?app_assoc.
  - by rewrite app_nil_r.
Qed.

Lemma chunk_lines_shape i doc :
  ∃ header, chunk_lines i doc
            = [header; Py.repeat "-" 60; truncate (page_content doc)].
Proof. by eexists. Qed.

(** C3. With [shown] the first three context chunks of the result (none when
    the context is not to be shown), the formatted response is the response
    for the same answer and sources followed by the section for [shown]: at
    most three chunks whatever the number retrieved.  Each shown chunk
    contributes a header, a rule and its text; the text is the content
    itself when that has at most 300 characters, and otherwise its first 300
    characters followed by ["..."], 303 characters in all. *)
Theorem format_response_context
    (result : qa_result) (show_context : bool) :
  let shown := if show_context then take 3 (context result) else [] in
  length shown ≤ 3
  ∧ shown `prefix_of` context result
  ∧ format_response result show_context
    = Py.join Py.nl (format_lines (without_context result) show_context
                     ++ context_section shown)
  ∧ (∀ i doc,
       ∃ header, chunk_lines i doc
                 = [header; Py.repeat "-" 60; truncate (page_content doc)])
  ∧ (∀ content,
       (Py.len content ≤ 300 → truncate content = content)
       ∧ (300 < Py.len content →
          truncate content = Py.slice_to 300 content +:+ "..."
          ∧ Py.len (Py.slice_to 300 content) = 300
          ∧ String.prefix (Py.slice_to 300 content) content = true
          ∧ Py.len (truncate content) = 303)).
Proof.
  cbv zeta. split_and!.
  - destruct show_context; [|cbn; lia]. rewrite length_take. lia.
  - destruct show_context; [apply prefix_take | apply prefix_nil].
  - unfold format_response. rewrite format_lines_context. do 2 f_equal.
    destruct show_context; [|done].
    rewrite andb_true_l. unfold context_section.
    destruct (context result) as [|d ctx]; [done |].
    rewrite bool_decide_eq_true_2 by done. done.
  - apply chunk_lines_shape.
  - intros content. split; [apply truncate_short | apply truncate_long].
Qed.

Lemma answer_question_unfold w self question p :
  answer_question w self question p
  = match chain_invoke w (Chroma.contents p (chain_store (qa_chain self)))
            (chain_k (qa_chain self)) question with
    | Ok cr =>
        (p, ([ChainInvoke question],
             Ok (mkResult (default "" (chain_answer cr))
                   (elements (list_to_set
                                (source_of <$> default [] (chain_context cr))
                              : gset string))
                   (default [] (chain_context cr)))))
    | Raise e => (p, ([ChainInvoke question], Raise e))
    end.
Proof.
  unfold answer_question.
  cbv [mbind st_bind mret st_ret io_ret io_bind get lift call].
  by destruct (chain_invoke w _ _ _).
Qed.

(** C9. When the chain answers, [answer_question] returns its answer text
    (the empty text if the chain gave none), the retrieved chunks unchanged
    as context, and a list of sources without repetition that holds exactly
    the source paths of the retrieved chunks, with ["Unknown"] for a chunk
    whose metadata has no source. *)
Theorem answer_question_sources
    (w : world) (self : QARetriever) (question : string) (p : process)
    (cr : chain_result) :
  chain_invoke w (Chroma.contents p (chain_store (qa_chain self)))
    (chain_k (qa_chain self)) question
  = Ok cr →
  ∃ r, answer_question w self question p
       = (p, ([ChainInvoke question], Ok r))
       ∧ answer r = default "" (chain_answer cr)
       ∧ context r = default [] (chain_context cr)
       ∧ NoDup (sources r)
       ∧ ∀ s, s ∈ sources r ↔
              ∃ doc, doc ∈ context r
                     ∧ (metadata doc !! "source" = Some s
                        ∨ (metadata doc !! "source" = None ∧ s = "Unknown")).
Proof.
  intros H. rewrite answer_question_unfold, H. eexists.
  split; [done |]. cbn [answer context sources].
  split_and!; [done | done | apply NoDup_elements |].
  intros s. rewrite elem_of_elements, elem_of_list_to_set, list_elem_of_fmap.
  unfold source_of. split.
  - intros (doc & -> & Hd). exists doc. split; [done |].
    destruct (metadata doc !! "source"); [by left | by right].
  - intros (doc & Hd & [Hs|[Hs ->]]); exists doc; by rewrite Hs.
Qed.

(** Two chunks of one file and a chunk without a source. *)
Lemma answer_question_sources_witness :
  ∃ r, answer_question (example_world example_answer)
         (mkQARetriever (Chroma.mk "./chroma_db" "documents" 0) 4
            "gpt-3.5-turbo"
            (mkChain (Chroma.mk "./chroma_db" "documents" 0) 4
               "gpt-3.5-turbo"))
         "What is the capital of France?" (mkProcess ∅ ∅ 1)
       = (mkProcess ∅ ∅ 1,
          ([ChainInvoke "What is the capital of France?"], Ok r))
       ∧ answer r = "Paris"
       ∧ context r = [mkDocument "a" {["source" := "notes.txt"]};
                      mkDocument "b" {["source" := "notes.txt"]};
                      mkDocument "c" ∅]
       ∧ NoDup (sources r)
       ∧ ∀ s, s ∈ sources r ↔
              ∃ doc, doc ∈ context r
                     ∧ (metadata doc !! "source" = Some s
                        ∨ (metadata doc !! "source" = None ∧ s = "Unknown")).
Proof.
  exact (answer_question_sources (example_world example_answer)
           (mkQARetriever (Chroma.mk "./chroma_db" "documents" 0) 4
              "gpt-3.5-turbo"
              (mkChain (Chroma.mk "./chroma_db" "documents" 0) 4
                 "gpt-3.5-turbo"))
           "What is the capital of France?" (mkProcess ∅ ∅ 1)
           example_answer eq_refl).
Defined.

End RetrievalFacts.

(** ** The process: indexing, retriever construction and the loop *)

Local Arguments Py.repeat : simpl never.
Local Arguments pretty : simpl never.

Ltac st_unfold :=
  cbv [mbind st_bind mret st_ret io_ret io_bind get put lift say print raise
       sys_exit io_raise call try_st App.zoom].

Ltac norm_out :=
  repeat (rewrite <- ?app_assoc; cbn [app]); rewrite ?app_nil_r.

Ltac in_trace :=
  repeat first [apply list_elem_of_here | apply list_elem_of_further].

Ltac not_in_trace :=
  intros; rewrite !not_elem_of_cons; split_and!;
  first [discriminate | apply not_elem_of_nil].

Ltac in_mixed :=
  repeat (rewrite elem_of_cons || rewrite elem_of_app); intuition.

(** ** The splitter and [chunk_documents] *)

Section SplitterFacts.
Import Splitter.

Lemma app_empty_r s : s +:+ "" = s.
Proof. induction s as [|c s IH]; [done |]. by rewrite app_cons, IH. Qed.

Lemma len_slice_from n s : Py.len (Py.slice_from n s) = Py.len s - n.
Proof.
  revert s. induction n as [|n IH]; intros [|c s]; cbn;
    [done | lia | done | apply IH].
Qed.

Lemma slice_to_all s : Py.slice_to (Py.len s) s = s.
Proof.
  unfold Py.len. induction s as [|c s IH]; [done |]. cbn. by rewrite IH.
Qed.

Lemma slice_to_from n s : Py.slice_to n s +:+ Py.slice_from n s = s.
Proof.
  revert s. induction n as [|n IH]; intros [|c s]; try done.
  cbn. by rewrite app_cons, IH.
Qed.

Lemma slice_from_from a b s :
  Py.slice_from a (Py.slice_from b s) = Py.slice_from (b + a) s.
Proof.
  revert s. induction b as [|b IH]; intros s; [done |].
  destruct s as [|c s]; [by destruct a |]. cbn. apply IH.
Qed.

Lemma slice_from_app n a b :
  n ≤ Py.len a → Py.slice_from n (a +:+ b) = Py.slice_from n a +:+ b.
Proof.
  unfold Py.len. revert a. induction n as [|n IH]; intros a Hn; [done |].
  destruct a as [|c a]; [cbn in Hn; lia |].
  rewrite app_cons. cbn. apply IH. cbn in Hn. lia.
Qed.

Lemma slice_from_slice_to k e s :
  k ≤ e → Py.slice_from k (Py.slice_to e s) = Py.slice_to (e - k) (Py.slice_from k s).
Proof.
  revert e s. induction k as [|k IH]; intros e s Hk.
  - by rewrite Nat.sub_0_r.
  - destruct e as [|e]; [lia |].
    destruct s as [|c s]; [cbn; by destruct (e - k) |].
    cbn. apply IH. lia.
Qed.

Lemma slice_to_slice_to n m s :
  n ≤ m → Py.slice_to n (Py.slice_to m s) = Py.slice_to n s.
Proof.
  revert m s. induction n as [|n IH]; intros m s Hn; [done |].
  destruct m as [|m]; [lia |]. destruct s as [|c s]; [done |].
  cbn. f_equal. apply IH. lia.
Qed.

Lemma overlap_ge a b k :
  String.prefix (Py.slice_from k a) b = true → Py.len a - k ≤ overlap a b.
Proof.
  unfold Py.len. revert k. induction a as [|c a IH]; intros k Hk.
  - cbn. lia.
  - cbn [overlap]. destruct (String.prefix (String c a) b) eqn:Hp.
    + unfold Py.len. cbn. lia.
    + destruct k as [|k]; [cbn [Py.slice_from] in Hk; congruence |].
      cbn [Py.slice_from] in Hk. specialize (IH k Hk). cbn. lia.
Qed.

Lemma cut_before_range sep text lo width e :
  cut_before sep text lo width = Some e → lo < e ≤ lo + width.
Proof.
  induction width as [|width IH]; [done |]. cbn [cut_before].
  destruct (String.prefix _ _).
  - intros [= <-]. lia.
  - intros H. apply IH in H. lia.
Qed.

Lemma cut_point_range seps text lo width :
  0 < width →
  lo < cut_point seps text lo width ≤ lo + width.
Proof.
  intros Hw. induction seps as [|sep seps IH]; cbn [cut_point]; [lia |].
  destruct (cut_before sep text lo width) as [e|] eqn:He; [|done].
  by apply cut_before_range in He.
Qed.

Lemma windows_spec sp :
  chunk_overlap sp < chunk_size sp →
  ∀ fuel text,
    0 < Py.len text → Py.len text ≤ fuel →
    ∃ w ws,
      windows fuel sp text = w :: ws
      ∧ w = Py.slice_to (Py.len w) text
      ∧ chunk_overlap sp `min` Py.len text ≤ Py.len w
      ∧ Forall (λ c, Py.len c ≤ chunk_size sp) (w :: ws)
      ∧ w +:+ unshared (chunk_overlap sp) ws = text
      ∧ ∀ i a b, (w :: ws) !! i = Some a → (w :: ws) !! S i = Some b →
                 chunk_overlap sp ≤ overlap a b.
Proof.
  intros Hsp fuel.
  induction fuel as [|fuel IH]; intros text Hpos Hfuel; [lia |].
  cbn [windows]. destruct (Nat.leb_spec (Py.len text) (chunk_size sp)) as [Hfit|Hlong].
  - exists text, []. split_and!; [done | by rewrite slice_to_all | lia | | |].
    + by repeat constructor.
    + cbn. apply app_empty_r.
    + intros i a b _ Hb. by destruct i.
  - cbv zeta.
    set (e := cut_point (separators sp) text (chunk_overlap sp)
                (chunk_size sp - chunk_overlap sp)).
    assert (chunk_overlap sp < e ≤ chunk_size sp) as He.
    { pose proof (cut_point_range (separators sp) text (chunk_overlap sp)
                    (chunk_size sp - chunk_overlap sp)) as H.
      fold e in H. lia. }
    set (next := Py.slice_from (e - chunk_overlap sp) text).
    assert (Py.len next = Py.len text - (e - chunk_overlap sp)) as Hnext
      by apply len_slice_from.
    destruct (IH next) as (w' & ws' & Hw & Hpre & Hmin & Hall & Hre & Hov);
      [lia | lia |].
    rewrite Hw.
    assert (Py.len (Py.slice_to e text) = e) as Hlen
      by (apply slice_to_len; lia).
    assert (chunk_overlap sp ≤ Py.len w') as Hw' by lia.
    exists (Py.slice_to e text), (w' :: ws').
    split_and!; [done | by rewrite Hlen | lia | | |].
    + constructor; [lia | done].
    + cbn [unshared].
      assert (Py.slice_from (chunk_overlap sp) w'
              +:+ unshared (chunk_overlap sp) ws'
              = Py.slice_from e text) as ->.
      { rewrite <- slice_from_app by done. rewrite Hre. unfold next.
        rewrite slice_from_from. f_equal. lia. }
      apply slice_to_from.
    + intros [|i] a b Ha Hb.
      * cbn in Ha, Hb. injection Ha as <-. injection Hb as <-.
        pose proof (overlap_ge (Py.slice_to e text) w' (e - chunk_overlap sp))
          as Hge.
        rewrite Hlen in Hge.
        assert (e - (e - chunk_overlap sp) = chunk_overlap sp) as Heq by lia.
        rewrite Heq in Hge. apply Hge.
        rewrite slice_from_slice_to by lia. rewrite Heq. fold next.
        rewrite <- (slice_to_slice_to _ (Py.len w')) by done.
        rewrite <- Hpre. apply slice_to_prefix.
      * apply (Hov i a b); done.
Qed.

Lemma split_text_spec sp text :
  chunk_overlap sp < chunk_size sp →
  Forall (λ c, Py.len c ≤ chunk_size sp) (split_text sp text)
  ∧ (∀ i a b, split_text sp text !! i = Some a →
              split_text sp text !! S i = Some b →
              chunk_overlap sp ≤ overlap a b)
  ∧ rebuild (chunk_overlap sp) (split_text sp text) = text.
Proof.
  intros Hsp. unfold split_text. case_bool_decide as Hempty.
  - subst text. by split_and!.
  - destruct (windows_spec sp Hsp (Py.len text) text)
      as (w & ws & -> & _ & _ & Hall & Hre & Hov); [|done |done].
    destruct text; [done | cbn; lia].
Qed.

Lemma split_documents_fits sp documents :
  chunk_overlap sp < chunk_size sp →
  Forall (λ c, Py.len (page_content c) ≤ chunk_size sp
               ∧ ∃ doc, doc ∈ documents ∧ metadata c = metadata doc)
    (split_documents sp documents).
Proof.
  intros Hsp. unfold split_documents. apply Forall_forall. intros c Hc.
  apply list_elem_of_bind in Hc as (doc & Hc & Hdoc).
  apply list_elem_of_fmap in Hc as (piece & -> & Hpiece).
  destruct (split_text_spec sp (page_content doc) Hsp) as (Hall & _).
  rewrite Forall_forall in Hall. split; [by apply Hall | by exists doc].
Qed.

Lemma splitter_new_Ok cs co seps sp :
  Splitter.new cs co seps = Ok sp →
  chunk_overlap sp < chunk_size sp
  ∧ Z.of_nat (chunk_size sp) = cs ∧ Z.of_nat (chunk_overlap sp) = co
  ∧ Splitter.separators sp = seps.
Proof.
  unfold Splitter.new.
  destruct (Z.leb_spec cs 0); [intros [=] |].
  destruct (Z.ltb_spec co 0); [intros [=] |].
  destruct (Z.leb_spec cs co); [intros [=] |].
  intros [= <-]. cbn. split_and!; [lia | lia | lia | done].
Qed.

Lemma indexing_new_Ok w cs co p p' out self :
  Indexing.new w cs co p = (p', (out, Ok self)) →
  Splitter.new cs co indexer_separators = Ok (Indexing.text_splitter self).
Proof.
  unfold Indexing.new. fold indexer_separators.
  destruct (Splitter.new cs co indexer_separators) as [sp|e]; [|intros [=]].
  unfold Indexing._get_embeddings. st_unfold.
  destruct (getenv_missing _ p); [intros [=] |].
  destruct (openai_embeddings w) as [[]|e]; [by intros [= _ _ <-] |].
  destruct (is_Exception e); intros [=].
Qed.

(** C2.  With an indexer that was constructed, the chunk size [C] and the
    overlap [O] are those given, and [chunk_documents] returns the chunks of
    the splitter for every list of documents, those of a document carrying
    its metadata.  Every chunk has at most [C] characters; and for every
    text, every two consecutive chunks of it share at least [O] characters,
    the end of the one being the start of the other (the last pair too), and
    the chunks, without the [O] characters each shares with the one before,
    make up the text. *)
Theorem chunks_overlap_within_chunk_size
    (w : world) (cs co : Z) (p p' : process) (out : list event)
    (self : Indexing.DocumentIndexer) (documents : list Document) :
  Indexing.new w cs co p = (p', (out, Ok self)) →
  let sp := Indexing.text_splitter self in
  let chunks :=
    doc ← documents;
    (λ chunk, mkDocument chunk (metadata doc))
      <$> split_text sp (page_content doc) in
  (Z.of_nat (chunk_size sp) = cs ∧ Z.of_nat (chunk_overlap sp) = co)
  ∧ (∃ out', Indexing.chunk_documents self documents = (out', Ok chunks))
  ∧ Forall (λ c, Py.len (page_content c) ≤ chunk_size sp
                 ∧ ∃ doc, doc ∈ documents ∧ metadata c = metadata doc)
      chunks
  ∧ ∀ text,
      chunks_overlap sp text
      ∧ (∀ i a b, split_text sp text !! i = Some a →
                  split_text sp text !! S i = Some b →
                  chunk_overlap sp ≤ overlap a b)
      ∧ rebuild (chunk_overlap sp) (split_text sp text) = text.
Proof.
  intros Hnew sp chunks. apply indexing_new_Ok in Hnew. fold sp in Hnew.
  apply splitter_new_Ok in Hnew as (Hsp & Hsize & Hover & Hseps).
  split_and!; [done | done | | |].
  - unfold Indexing.chunk_documents.
    destruct documents as [|d documents]; by eexists.
  - by apply split_documents_fits.
  - intros text.
    destruct (split_text_spec sp text Hsp) as (Hall & Hov & Hre).
    split_and!; [|done | done].
    split; [done |]. intros i a b Ha Hb _. by apply (Hov i).
Qed.

(** Chunk size 8 and overlap 2 on three paragraphs: the windows end where a
    paragraph ends. *)
Lemma chunks_overlap_within_chunk_size_witness :
  split_text (Splitter.mk 8 2 indexer_separators) example_paragraphs
  = ["aaaa"; "aa" +:+ Py.nl +:+ Py.nl +:+ "bbbb";
     "bb" +:+ Py.nl +:+ Py.nl +:+ "cccc"]
  ∧ chunks_overlap (Splitter.mk 8 2 indexer_separators) example_paragraphs
  ∧ rebuild 2 (split_text (Splitter.mk 8 2 indexer_separators)
                 example_paragraphs) = example_paragraphs.
Proof.
  split; [vm_compute; reflexivity |].
  destruct (chunks_overlap_within_chunk_size
              (example_docs_world "text" (Ok tt)) 8 2
              (App.proc example_state) (App.proc example_state)
              [NewOpenAIEmbeddings]
              (Indexing.mkIndexer 8 2 "./chroma_db"
                 (Splitter.mk 8 2 indexer_separators) None) [])
    as (_ & _ & _ & Hall); [vm_compute; reflexivity |].
  destruct (Hall example_paragraphs) as (H1 & _ & H2). by split.
Defined.

End SplitterFacts.

Section IndexingFacts.
Import Indexing.

Lemma index_documents_unfold w self documents name p :
  documents ≠ [] →
  index_documents w self documents name p =
  let chunks := Splitter.split_documents (text_splitter self) documents in
  let out :=
    [Print ("Chunking " +:+ pretty (length documents) +:+ " documents...");
     Print ("Created " +:+ pretty (length chunks) +:+ " chunks");
     Print ("Indexing " +:+ pretty (length chunks)
            +:+ " chunks into vector store...");
     ChromaFromDocuments name chunks] in
  match chroma_from_documents w chunks with
  | Ok _ =>
      let vs := Chroma.mk (persist_directory self) name (next_object p) in
      (inserted (persist_directory self) name chunks p,
       (out ++ [Print ("Indexing complete! Vector store saved to "
                       +:+ persist_directory self)],
        Ok (with_store self vs, vs)))
  | Raise e => (p, (out, Raise e))
  end.
Proof.
  intros Hne. destruct documents as [|d documents]; [done |].
  unfold index_documents, chunk_documents, Chroma.from_documents.
  st_unfold. cbv zeta.
  destruct (chroma_from_documents w _) as [[]|e]; reflexivity.
Qed.

End IndexingFacts.

Section RetrieverFacts.
Import Retrieval.

Lemma answer_question_state w self question p :
  (answer_question w self question p).1 = p.
Proof.
  unfold answer_question. st_unfold.
  by destruct (chain_invoke w _ _ _).
Qed.

Lemma new_unfold w vs k p :
  new w vs None k p =
  if getenv_missing "OPENAI_API_KEY" p then (p, ([], Raise key_missing_error))
  else
    match chat_openai w with
    | Ok _ =>
        (p, ([NewChatOpenAI "gpt-3.5-turbo"],
             Ok (mkQARetriever vs k "gpt-3.5-turbo"
                   (mkChain vs k "gpt-3.5-turbo"))))
    | Raise e =>
        (p, ([NewChatOpenAI "gpt-3.5-turbo"],
             Raise (if is_Exception e
                    then RuntimeError
                           ("Failed to initialize OpenAI LLM: " +:+ exn_str e
                            +:+ ". Please check your OPENAI_API_KEY is valid.")
                    else e)))
    end.
Proof.
  unfold new, _get_llm. st_unfold.
  destruct (getenv_missing _ p); [reflexivity |].
  destruct (chat_openai w) as [[]|e]; [reflexivity |].
  destruct (is_Exception e); reflexivity.
Qed.

End RetrieverFacts.

Section LoopFacts.
Import App.

Lemma reindex_body_unfold args w s :
  reindex_body args w s =
  let step1 := Print (Py.nl +:+ "Step 1: Reloading documents from folder...") in
  match Loaders.load_folder (parsers w) (docs args) (docs_folder w) with
  | (out, Raise e) => (s, (step1 :: out, Raise e))
  | (out, Ok []) =>
      (with_documents [] s,
       (step1 :: out ++ [Print "Warning: No documents found in the folder."],
        Ok tt))
  | (out, Ok documents) =>
      let out := step1 :: out
                 ++ [Print (Py.nl +:+ "Step 2: Reindexing documents...")] in
      match Indexing.index_documents w (indexer (vars s)) documents "documents"
              (proc s) with
      | (p, (out2, Raise e)) =>
          (mkMachine p (vars (with_documents documents s)),
           (out ++ out2, Raise e))
      | (p, (out2, Ok (ix, vs))) =>
          let out := out ++ out2
                     ++ [Print (Py.nl +:+ "Step 3: Updating QA system...")] in
          match Retrieval.new w vs None (k args) p with
          | (p', (out3, Raise e)) =>
              (mkMachine p' (mkLocals documents ix vs (qa_retriever (vars s))),
               (out ++ out3, Raise e))
          | (p', (out3, Ok qa)) =>
              (mkMachine p' (mkLocals documents ix vs qa),
               (out ++ out3
                ++ [Print (Py.nl +:+ banner);
                    Print "Reindexing complete! The database has been updated.";
                    Print banner; Print ""],
                Ok tt))
          end
      end
  end.
Proof.
  unfold reindex_body. cbv zeta.
  unfold set_documents, set_vector_store, set_qa_retriever. st_unfold.
  destruct (Loaders.load_folder _ _ _) as [out [[|d documents]|e]];
    [reflexivity | | reflexivity].
  destruct (Indexing.index_documents _ _ _ _ _) as [p [out2 [[ix vs]|e]]].
  - destruct (Retrieval.new _ _ _ _ _) as [p' [out3 [qa|e]]];
      cbn [app vars with_documents]; norm_out; reflexivity.
  - cbn [app vars with_documents]; norm_out; reflexivity.
Qed.

Lemma reindex_command_unfold args w s :
  reindex_command args w s =
  match reindex_body args w s with
  | (s', (out, Raise e)) =>
      if is_Exception e
      then (s', (out ++ [Print (Py.nl +:+ "Error during reindexing: "
                                +:+ exn_str e);
                         Print "The previous index is still available."],
                 Ok tt))
      else (s', (out, Raise e))
  | ok => ok
  end.
Proof.
  unfold reindex_command. st_unfold.
  destruct (reindex_body args w s) as [s' [out [[]|e]]]; [done |].
  by destruct (is_Exception e).
Qed.

Lemma round_body_reindex args w q s :
  Py.lower (Py.strip q) = "reindex" →
  round_body args w (Ok q) s =
  let out0 :=
    [Input (Py.nl +:+ "Question: "); Print (Py.nl +:+ banner);
     Print "Reindexing documents..."; Print banner] in
  match reindex_command args w s with
  | (s', (out, Ok _)) => (s', (out0 ++ out, Ok Continue))
  | (s', (out, Raise e)) => (s', (out0 ++ out, Raise e))
  end.
Proof.
  intros Hq. unfold round_body. st_unfold. cbv zeta.
  rewrite Hq.
  rewrite (bool_decide_eq_false_2 (Py.strip q = ""))
    by (intros Heq; by rewrite Heq in Hq).
  rewrite (bool_decide_eq_false_2 ("reindex" = "quit")) by done.
  rewrite (bool_decide_eq_true_2 ("reindex" = "reindex")) by done.
  destruct (reindex_command args w s) as [s' [out [[]|e]]];
    cbn [app]; norm_out; reflexivity.
Qed.

Lemma round_body_question args w line question s :
  question_line line question →
  round_body args w line s =
  let out0 :=
    [Input (Py.nl +:+ "Question: ");
     Print (Py.nl +:+ "Searching documents...")] in
  match Retrieval.answer_question w (qa_retriever (vars s)) question
          (proc s) with
  | (p, (out, Ok result)) =>
      (mkMachine p (vars s),
       (out0 ++ out
        ++ [Print (Py.nl +:+ Retrieval.format_response result true)],
        Ok Continue))
  | (p, (out, Raise e)) => (mkMachine p (vars s), (out0 ++ out, Raise e))
  end.
Proof.
  intros (q & -> & -> & Hne & Hquit & Hre).
  unfold round_body. st_unfold. cbv zeta.
  rewrite !bool_decide_eq_false_2 by done.
  destruct (Retrieval.answer_question _ _ _ _) as [p [out [r|e]]];
    cbn [app]; norm_out; reflexivity.
Qed.

Lemma round_catches args w line s s' out e :
  round_body args w line s = (s', (out, Raise e)) →
  is_Exception e = true →
  round args w line s
  = (s', (out ++ [Print (Py.nl +:+ "Error: " +:+ exn_str e);
                  Print "Please try again or type 'quit' to exit."],
          Ok Continue)).
Proof.
  intros H He. unfold round. rewrite H. by destruct e.
Qed.

Lemma round_passes args w line s s' out c :
  round_body args w line s = (s', (out, Ok c)) →
  round args w line s = (s', (out, Ok c)).
Proof. intros H. unfold round. by rewrite H. Qed.

Lemma reindex_body_raise args w s s' out e :
  reindex_body args w s = (s', (out, Raise e)) →
  qa_retriever (vars s') = qa_retriever (vars s)
  ∧ ((vector_store (vars s') = vector_store (vars s) ∧ proc s' = proc s)
     ∨ ∃ chunks, ChromaFromDocuments "documents" chunks ∈ out
                 ∧ chroma_from_documents w chunks = Ok tt).
Proof.
  rewrite reindex_body_unfold. cbv zeta.
  destruct (Loaders.load_folder _ _ _) as [outL [[|d documents]|e0]].
  - intros [=].
  - rewrite index_documents_unfold by done. cbv zeta.
    destruct (chroma_from_documents w _) as [[]|e1] eqn:Hc.
    + destruct (Retrieval.new _ _ _ _ _) as [p' [out3 [qa|e2]]];
        intros [= <- <- <-]. split; [done |]. right.
      eexists. split; [|exact Hc]. in_mixed.
    + intros [= <- <- <-]. by split; [|left].
  - intros [= <- <- <-]. by split; [|left].
Qed.

Lemma error_reported_app pre out :
  error_reported out → error_reported (pre ++ out).
Proof.
  intros (pre' & [-> | [-> | ->]]); exists (pre ++ pre'); rewrite app_assoc; auto.
Qed.

Lemma error_reported_outer pre msg :
  error_reported
    (pre ++ [Print msg; Print "Please try again or type 'quit' to exit."]).
Proof. exists (pre ++ [Print msg]). left. by rewrite <- app_assoc. Qed.

Lemma error_reported_inner pre msg :
  error_reported
    (pre ++ [Print msg; Print "The previous index is still available."]).
Proof. exists (pre ++ [Print msg]). right. left. by rewrite <- app_assoc. Qed.

Lemma error_reported_empty pre :
  error_reported (pre ++ [Print "Warning: No documents found in the folder."]).
Proof. exists pre. right. by right. Qed.

(** C4, as amended.  When an error occurs in a round of the loop ([input]
    raises an exception, answering the question raises one, the [reindex]
    command raises one, or it reloads no document), the round ends normally
    and the loop continues; the events of the round end with the handler's
    message or the warning; the QA retriever is the one from before the
    round.  The [vector_store] variable and the process, with the persisted
    collections, are unchanged too, unless the bulk insert of
    [index_documents] had already succeeded in this round; outside the
    [reindex] command the whole state is unchanged. *)
Theorem loop_error_keeps_retriever
    (args : Args) (w : world) (line : result string) (s : machine) :
  error_occurs args w line s →
  ∃ s' out,
    round args w line s = (s', (out, Ok Continue))
    ∧ error_reported out
    ∧ qa_retriever (vars s') = qa_retriever (vars s)
    ∧ ((vector_store (vars s') = vector_store (vars s) ∧ proc s' = proc s)
       ∨ ∃ chunks, ChromaFromDocuments "documents" chunks ∈ out
                   ∧ chroma_from_documents w chunks = Ok tt)
    ∧ (¬ reindex_line line → s' = s).
Proof.
  intros [e -> He|question p out e Hq Ha He|s' out e Hr Hb He|out Hr Hl].
  - eexists _, _. split; [by apply round_catches|].
    split_and!; [apply error_reported_outer | done | by left | done].
  - pose proof (round_body_question args w line question s Hq) as Hb.
    cbv zeta in Hb. rewrite Ha in Hb.
    pose proof (answer_question_state w (qa_retriever (vars s))
                  question (proc s)) as Hst.
    rewrite Ha in Hst. cbn [fst] in Hst. subst p.
    eexists _, _. split; [by eapply round_catches|].
    split_and!; [apply error_reported_outer | done | by left | by destruct s].
  - destruct Hr as (q & -> & Hq).
    pose proof (round_body_reindex args w q s Hq) as Hrb. cbv zeta in Hrb.
    rewrite reindex_command_unfold, Hb, He in Hrb.
    apply reindex_body_raise in Hb as [Hqa Hvs].
    eexists _, _. split; [by apply round_passes|].
    split_and!; [| done | | ].
    + apply error_reported_app, error_reported_inner.
    + destruct Hvs as [?|(chunks & Hin & ?)]; [by left | right].
      exists chunks. split; [|done]. in_mixed.
    + intros []. by exists q.
  - destruct Hr as (q & -> & Hq).
    pose proof (round_body_reindex args w q s Hq) as Hrb. cbv zeta in Hrb.
    rewrite reindex_command_unfold, reindex_body_unfold in Hrb.
    cbv zeta in Hrb. rewrite Hl in Hrb.
    eexists _, _. split; [by apply round_passes|].
    split_and!; [| done | by left | ].
    + apply error_reported_app.
      rewrite app_comm_cons. apply error_reported_empty.
    + intros []. by exists q.
Qed.

Lemma contents_inserted directory name chunks p oid :
  Chroma.contents (inserted directory name chunks p)
    (Chroma.mk directory name oid)
  = chunks.
Proof.
  unfold inserted. cbv zeta. unfold Chroma.contents.
  cbn [disk Chroma.persist_directory Chroma.collection_name].
  rewrite lookup_insert_eq. cbn. by rewrite lookup_insert_eq.
Qed.

(** C1.  When the [reindex] command succeeds (the folder yields documents,
    the bulk insert and the chat client work), then for every state of the
    collection before it and every list of documents loaded, the loop goes
    on with a retriever whose chain searches the new vector store, and the
    collection of that store holds the chunks of the newest load and nothing
    else: no chunk of the index from before remains, and none is stored
    twice. *)
Theorem reindex_replaces
    (args : Args) (w : world) (q : string) (s : machine)
    (outL : list event) (documents : list Document) :
  let ix := indexer (vars s) in
  let chunks := Splitter.split_documents (Indexing.text_splitter ix) documents in
  Py.lower (Py.strip q) = "reindex" →
  Loaders.load_folder (parsers w) (docs args) (docs_folder w)
  = (outL, Ok documents) →
  documents ≠ [] →
  chroma_from_documents w chunks = Ok tt →
  getenv_missing "OPENAI_API_KEY" (proc s) = false →
  chat_openai w = Ok tt →
  ∃ s' out,
    round args w (Ok q) s = (s', (out, Ok Continue))
    ∧ Print "Reindexing complete! The database has been updated." ∈ out
    ∧ ChromaFromDocuments "documents" chunks ∈ out
    ∧ Retrieval.chain_store (Retrieval.qa_chain (qa_retriever (vars s')))
      = vector_store (vars s')
    ∧ Chroma.persist_directory (vector_store (vars s'))
      = Indexing.persist_directory ix
    ∧ Chroma.collection_name (vector_store (vars s')) = "documents"
    ∧ Chroma.contents (proc s') (vector_store (vars s')) = chunks.
Proof.
  intros ix chunks Hq Hl Hne Hc Hkey Hchat.
  pose proof (round_body_reindex args w q s Hq) as Hrb. cbv zeta in Hrb.
  rewrite reindex_command_unfold, reindex_body_unfold in Hrb.
  cbv zeta in Hrb. rewrite Hl in Hrb.
  destruct documents as [|d documents]; [done |].
  rewrite index_documents_unfold in Hrb by done. cbv zeta in Hrb.
  fold ix in Hrb. fold chunks in Hrb. rewrite Hc in Hrb.
  rewrite new_unfold in Hrb.
  assert (getenv_missing "OPENAI_API_KEY"
            (inserted (Indexing.persist_directory ix) "documents" chunks
               (proc s)) = false) as Hkey'.
  { unfold getenv_missing in *. exact Hkey. }
  rewrite Hkey', Hchat in Hrb.
  eexists _, _. split; [by apply round_passes |].
  split_and!.
  - in_mixed.
  - in_mixed.
  - reflexivity.
  - reflexivity.
  - reflexivity.
  - cbn [proc vars vector_store]. apply contents_inserted.
Qed.


(** C4, witness: the [reindex] command on an empty folder. *)
Lemma loop_error_keeps_retriever_witness :
  ∃ s' out,
    round example_args example_empty_world (Ok "reindex") example_state
    = (s', (out, Ok Continue))
    ∧ error_reported out
    ∧ qa_retriever (vars s') = qa_retriever (vars example_state)
    ∧ ((vector_store (vars s') = vector_store (vars example_state)
        ∧ proc s' = proc example_state)
       ∨ ∃ chunks, ChromaFromDocuments "documents" chunks ∈ out
                   ∧ chroma_from_documents example_empty_world chunks = Ok tt)
    ∧ (¬ reindex_line (Ok "reindex") → s' = example_state).
Proof.
  apply loop_error_keeps_retriever.
  eapply reindex_empty.
  - exists "reindex". split; [reflexivity | vm_compute; reflexivity].
  - vm_compute. reflexivity.
Defined.

(** C4, counterexample.  In the state [setup] leaves, the [reindex] command
    indexes the reloaded file and then fails to construct the chat client:
    the error is caught and reported and the loop continues with the old
    retriever, but the prior state is not intact: the [vector_store]
    variable no longer holds the vector store from before, and the
    collection the old retriever searches now holds the new chunk. *)
Lemma reindex_failure_rebinds_vector_store :
  machine_after_setup example_args (example_docs_world "old text" (Ok tt))
    (mkProcess ∅ ∅ 0) = Some example_state
  ∧ let r := round example_args
               (example_docs_world "new text" (Raise (OtherException "down")))
               (Ok "reindex") example_state in
    r.2.2 = Ok Continue
    ∧ last r.2.1 = Some (Print "The previous index is still available.")
    ∧ qa_retriever (vars r.1) = qa_retriever (vars example_state)
    ∧ vector_store (vars r.1) ≠ vector_store (vars example_state)
    ∧ page_content
        <$> Chroma.contents (proc example_state)
              (Retrieval.chain_store
                 (Retrieval.qa_chain (qa_retriever (vars example_state))))
      = ["old text"]
    ∧ page_content
        <$> Chroma.contents (proc r.1)
              (Retrieval.chain_store
                 (Retrieval.qa_chain (qa_retriever (vars r.1))))
      = ["new text"].
Proof.
  split; [vm_compute; reflexivity |].
  cbv zeta.
  split_and!; [vm_compute; reflexivity .. | | vm_compute; reflexivity
              | vm_compute; reflexivity].
  vm_compute. discriminate.
Qed.

(** C1, witness: the [reindex] command after the file changed, in the
    state the start of [main] leaves. *)
Lemma reindex_replaces_witness :
  ∃ s' out,
    round example_args (example_docs_world "new text" (Ok tt)) (Ok "reindex")
      example_state = (s', (out, Ok Continue))
    ∧ page_content <$> collection (proc example_state) "./chroma_db" "documents"
      = ["old text"]
    ∧ page_content <$> Chroma.contents (proc s') (vector_store (vars s'))
      = ["new text"].
Proof.
  destruct (reindex_replaces example_args
              (example_docs_world "new text" (Ok tt)) "reindex" example_state
              (Loaders.load_folder (λ _ _, Ok [mkDocument "new text" ∅]) "docs"
                 (Some [Loaders.mkEntry "docs/notes.txt" true])).1
              [mkDocument "new text"
                 (<["file_type" := "txt"]>
                    (<["file_name" := "notes.txt"]>
                       {["source" := "docs/notes.txt"]}))])
    as (s' & out & Hr & _ & _ & _ & _ & _ & Hc).
  - vm_compute. reflexivity.
  - vm_compute. reflexivity.
  - discriminate.
  - reflexivity.
  - vm_compute. reflexivity.
  - reflexivity.
  - exists s', out. split; [exact Hr |]. split; [vm_compute; reflexivity |].
    rewrite Hc. vm_compute. reflexivity.
Defined.

End LoopFacts.

(** ** app.py: the start of [main] *)

Section SetupFacts.
Import App.

Lemma load_env_unfold w p :
  load_env w p
  = (after_env_file w p,
     ([], (Utils.load_env_file (env_file w) (environ p)).2)).
Proof.
  unfold load_env, after_env_file.
  by destruct (Utils.load_env_file _ _).
Qed.

Lemma setup_env_file_raises args w p e :
  (Utils.load_env_file (env_file w) (environ p)).2 = Raise e →
  setup args w p = (after_env_file w p, ([], Raise e)).
Proof.
  intros H. unfold setup. st_unfold. by rewrite load_env_unfold, H.
Qed.

Lemma setup_missing_key args w p :
  env_file_loads w p →
  getenv_missing "OPENAI_API_KEY" (after_env_file w p) = true →
  setup args w p =
    (after_env_file w p,
     ([Print "Error: OPENAI_API_KEY environment variable is required.";
       Print "Please set it in your .env file or as an environment variable.";
       Print "Get your API key from: https://platform.openai.com/api-keys"],
      Raise (SystemExit 1))).
Proof.
  intros Hok H. unfold setup. st_unfold.
  rewrite load_env_unfold, Hok, H. reflexivity.
Qed.

(** C5.  If the environment, after the environment file has been read, has
    no [OPENAI_API_KEY], [main] ends with exit code 1 whatever the
    arguments, the world and the terminal hold, and all it has done by then
    is print: no indexer, embeddings client, vector store or chat client was
    constructed and no call left the process. *)
Theorem missing_key_exits_first
    (args : Args) (w : world) (rounds : list (world * result string))
    (p : process) :
  environ (after_env_file w p) !! "OPENAI_API_KEY" = None →
  ∃ out r,
    main args w rounds p = (after_env_file w p, (out, Raise r))
    ∧ exit_code (main args w rounds p).2.2 = 1%Z
    ∧ Forall (λ ev, is_print ev = true) out
    ∧ (env_file_loads w p → r = SystemExit 1).
Proof.
  intros H.
  assert (getenv_missing "OPENAI_API_KEY" (after_env_file w p) = true) as Hm
    by (unfold getenv_missing; by rewrite H).
  unfold main. unfold mbind, st_bind.
  destruct (Utils.load_env_file (env_file w) (environ p)).2 as [[]|e] eqn:Hl.
  - rewrite (setup_missing_key _ _ _ Hl Hm).
    eexists _, _.
    split_and!; [reflexivity | reflexivity | repeat constructor | done].
  - rewrite (setup_env_file_raises _ _ _ _ Hl).
    assert (∃ msg, e = ValueError msg ∨ e = OSError msg) as Hcase.
    { destruct (env_file w) as [lines|]; [|done].
      by eapply load_env_lines_raises. }
    destruct Hcase as [msg [->| ->]];
      (eexists _, _; split_and!; [reflexivity | reflexivity | constructor |];
       unfold env_file_loads; by rewrite Hl).
Qed.

(** No environment file and an empty environment. *)
Lemma missing_key_exits_first_witness :
  ∃ out r,
    main example_args example_world_without_key [] (mkProcess ∅ ∅ 0)
    = (after_env_file example_world_without_key (mkProcess ∅ ∅ 0),
       (out, Raise r))
    ∧ exit_code
        (main example_args example_world_without_key [] (mkProcess ∅ ∅ 0)).2.2
      = 1%Z
    ∧ Forall (λ ev, is_print ev = true) out
    ∧ (env_file_loads example_world_without_key (mkProcess ∅ ∅ 0) →
       r = SystemExit 1).
Proof. apply missing_key_exits_first. reflexivity. Defined.

Ltac close_case :=
  cbn; repeat (rewrite <- ?app_assoc; cbn [app]); eexists; split_and!;
  [ first [reflexivity | (rewrite app_nil_r; reflexivity)]
  | try (intros [=]); try (split; [reflexivity | repeat constructor])
  | intros documents' sp' [= <-] Hne' Hsp' Hemb';
    try congruence; try discriminate ].

Ltac index_case :=
  cbn; repeat (rewrite <- ?app_assoc; cbn [app]); eexists; split_and!;
  [ first [reflexivity | (rewrite app_nil_r; reflexivity)]
  | intros [=]
  | intros documents' sp' [= <-] Hne' [= <-] Hemb';
    split; [in_trace | not_in_trace] ].

(** C8.  With the environment file read, the key present and the folder
    valid, [main] first prints its
    banner and loads the documents, whatever the flag and the disk hold.  If
    the load is empty it exits with code 1 and only prints after the load.
    If the load is not empty and the indexer is constructed, the events that
    follow contain the opening of the persisted collection and no bulk insert
    when [--reindex] is unset and the persist directory exists, and in every
    other case the bulk insert of the chunks of the loaded documents and no
    opening. *)
Theorem startup_index_choice (args : Args) (w : world) (p : process)
    (outL : list event) (rL : result (list Document)) :
  let p1 := after_env_file w p in
  env_file_loads w p →
  getenv_missing "OPENAI_API_KEY" p1 = false →
  Utils.validate_folder (bool_decide (is_Some (docs_folder w)))
    (docs_is_dir w) = true →
  Loaders.load_folder (parsers w) (docs args) (docs_folder w) = (outL, rL) →
  ∃ out',
    (setup args w p).2.1
    = [Print banner; Print "AI Document Q&A Agent"; Print banner; Print "";
       Print "Step 1: Loading documents..."] ++ outL ++ out'
    ∧ (rL = Ok [] →
       (setup args w p).2.2 = Raise (SystemExit 1)
       ∧ Forall (λ ev, is_print ev = true) out')
    ∧ (∀ documents sp,
         rL = Ok documents → documents ≠ [] →
         Splitter.new (chunk_size args) (chunk_overlap args) indexer_separators
         = Ok sp →
         openai_embeddings w = Ok tt →
         if negb (reindex args) && Indexing.path_exists "./chroma_db" p1
         then NewChroma "documents" ∈ out'
              ∧ ∀ c chunks, ChromaFromDocuments c chunks ∉ out'
         else ChromaFromDocuments "documents"
                (Splitter.split_documents sp documents) ∈ out'
              ∧ ∀ c, NewChroma c ∉ out').
Proof.
  intros p1 Henv Hkey Hvalid Hload.
  assert (∀ q, environ q = environ p1 →
               getenv_missing "OPENAI_API_KEY" q = false) as Hk.
  { intros q Hq. unfold getenv_missing in *. by rewrite Hq. }
  unfold setup, Indexing.new, Indexing._get_embeddings.
  st_unfold. rewrite load_env_unfold, Henv. fold p1. rewrite Hkey, Hvalid.
  cbn [negb]. rewrite Hload. fold indexer_separators.
  destruct rL as [[|d documents]|e].
  - close_case.
  - destruct (Splitter.new _ _ _) as [sp|e] eqn:Hsp; [|close_case].
    cbv [mbind st_bind mret st_ret io_ret io_bind]. rewrite Hkey.
    destruct (openai_embeddings w) as [[]|e] eqn:Hemb.
    2: { destruct (is_Exception e); close_case. }
    cbn [Indexing.persist_directory is_Exception].
    destruct (negb (reindex args) && Indexing.path_exists "./chroma_db" p1)
      eqn:Hcond.
    + unfold Indexing.load_existing_index, Chroma.new. st_unfold.
      cbn [Indexing.persist_directory].
      apply andb_prop in Hcond as [_ Hex]. rewrite Hex. cbn [negb].
      destruct (chroma_open w) as [[]|e].
      2: { destruct (is_Exception e); index_case. }
      cbn. rewrite new_unfold, Hk by reflexivity.
      destruct (chat_openai w) as [[]|e]; [index_case |].
      destruct (is_Exception e) eqn:He; cbn; rewrite ?He; index_case.
    + rewrite index_documents_unfold by done. cbv zeta.
      cbn [Indexing.persist_directory Indexing.text_splitter].
      destruct (chroma_from_documents w _) as [[]|e].
      2: { destruct (is_Exception e); index_case. }
      cbn. rewrite new_unfold, Hk by reflexivity.
      destruct (chat_openai w) as [[]|e]; [index_case |].
      destruct (is_Exception e) eqn:He; cbn; rewrite ?He; index_case.
  - destruct (is_Exception e); close_case.
Qed.


(** The example world with its one file, started on an empty disk. *)
Lemma startup_index_choice_witness :
  ∃ out',
    (setup example_args (example_docs_world "old text" (Ok tt))
       (mkProcess ∅ ∅ 0)).2.1
    = [Print banner; Print "AI Document Q&A Agent"; Print banner; Print "";
       Print "Step 1: Loading documents..."]
      ++ (Loaders.load_folder (λ _ _, Ok [mkDocument "old text" ∅]) "docs"
            (Some [Loaders.mkEntry "docs/notes.txt" true])).1
      ++ out'
    ∧ ChromaFromDocuments "documents"
        (Splitter.split_documents (Splitter.mk 1000 200 indexer_separators)
           (documents (vars example_state))) ∈ out'.
Proof.
  destruct (startup_index_choice example_args
              (example_docs_world "old text" (Ok tt)) (mkProcess ∅ ∅ 0)
              (Loaders.load_folder (λ _ _, Ok [mkDocument "old text" ∅]) "docs"
                 (Some [Loaders.mkEntry "docs/notes.txt" true])).1
              (Ok (documents (vars example_state))))
    as (out' & Hout & _ & Hindex).
  - reflexivity.
  - vm_compute. reflexivity.
  - reflexivity.
  - vm_compute. reflexivity.
  - exists out'. split; [exact Hout |].
    apply (Hindex _ (Splitter.mk 1000 200 indexer_separators) eq_refl);
      [discriminate | reflexivity | reflexivity].
Defined.

End SetupFacts.

(** * Further properties of the code *)

Ltac each_event tac :=
  repeat (apply Forall_cons; split; [tac |]); by apply Forall_nil.

(** ** src/loaders.py *)

Section LoaderExtras.
Import Loaders.

Lemma loader_for_supported ext :
  is_Some (loader_for ext) ↔ ext ∈ supported_extensions.
Proof.
  unfold loader_for, supported_extensions. rewrite !elem_of_app.
  repeat case_bool_decide; split; intros Hs; try (by eauto 10);
    try (by destruct Hs as [? [=]]).
  exfalso. intuition.
Qed.

Lemma add_metadata_lookup path ext doc :
  let d' := add_metadata (<["file_name" := Path.name path]> {["source" := path]})
              ext doc in
  page_content d' = page_content doc
  ∧ metadata d' !! "file_name" = Some (Path.name path)
  ∧ metadata d' !! "file_type" = Some (Py.slice_from 1 ext)
  ∧ ∀ key, key ∉ loader_keys → metadata d' !! key = metadata doc !! key.
Proof.
  cbv zeta. unfold add_metadata. cbn [page_content metadata].
  split_and!; [done | | apply lookup_insert_eq |].
  - rewrite lookup_insert_ne by done. apply lookup_union_Some_l.
    apply lookup_insert_eq.
  - intros key Hk. unfold loader_keys in Hk.
    rewrite !not_elem_of_cons in Hk. destruct Hk as (H1 & H2 & H3 & _).
    rewrite lookup_insert_ne by done.
    rewrite lookup_union_r; [done |].
    rewrite lookup_insert_ne by done. by rewrite lookup_singleton_ne.
Qed.

(** X1.  When the parser chosen for the extension of a file returns
    documents, [load_document] makes that one parser call and returns one
    chunk per parsed document, in order, with the text unchanged.  The
    extension is one of the supported ones.  Every chunk carries the name of
    the file under [file_name] and the lower-cased extension without its dot
    under [file_type], and every metadata key of the parser other than
    [source], [file_name] and [file_type] keeps its value. *)
Theorem load_document_metadata
    (load : parsers) (path : string) (l : loader) (parsed : list Document) :
  let extension := Py.lower (Path.suffix path) in
  loader_for extension = Some l →
  load l path = Ok parsed →
  ∃ docs,
    load_document load path = ([ParseFile path], Ok docs)
    ∧ page_content <$> docs = page_content <$> parsed
    ∧ extension ∈ supported_extensions
    ∧ ∀ i d', docs !! i = Some d' →
        metadata d' !! "file_name" = Some (Path.name path)
        ∧ metadata d' !! "file_type" = Some (Py.slice_from 1 extension)
        ∧ ∃ d, parsed !! i = Some d
               ∧ ∀ key, key ∉ loader_keys →
                        metadata d' !! key = metadata d !! key.
Proof.
  intros extension Hl Hp. rewrite load_document_unfold. cbv zeta.
  fold extension. rewrite Hl, Hp. eexists. split; [reflexivity |].
  split_and!.
  - rewrite <- list_fmap_compose. by apply list_fmap_ext.
  - apply loader_for_supported. by rewrite Hl.
  - intros i d' Hi. rewrite list_lookup_fmap in Hi.
    destruct (parsed !! i) as [d|] eqn:Hd; [|done]. injection Hi as <-.
    destruct (add_metadata_lookup path extension d) as (_ & Hn & Ht & Hk).
    split_and!; [done | done |]. by exists d.
Qed.

(** A text file with an upper-case extension and a parser that sets a key of
    its own. *)
Lemma load_document_metadata_witness :
  ∃ docs,
    load_document (λ _ _, Ok [mkDocument "text" {["page" := "1"]}])
      "docs/Notes.TXT"
    = ([ParseFile "docs/Notes.TXT"], Ok docs)
    ∧ page_content <$> docs = ["text"]
    ∧ ".txt" ∈ supported_extensions
    ∧ ∀ i d', docs !! i = Some d' →
        metadata d' !! "file_name" = Some "Notes.TXT"
        ∧ metadata d' !! "file_type" = Some "txt"
        ∧ ∃ d, [mkDocument "text" {["page" := "1"]}] !! i = Some d
               ∧ ∀ key, key ∉ loader_keys →
                        metadata d' !! key = metadata d !! key.
Proof.
  exact (load_document_metadata
           (λ _ _, Ok [mkDocument "text" {["page" := "1"]}])
           "docs/Notes.TXT" TextLoader _ eq_refl eq_refl).
Defined.

Lemma load_document_supported load path :
  Py.lower (Path.suffix path) ∈ supported_extensions →
  ∃ l, loader_for (Py.lower (Path.suffix path)) = Some l
       ∧ load_document load path
         = match load l path with
           | Ok docs =>
               ([ParseFile path],
                Ok (add_metadata (<["file_name" := Path.name path]>
                                    {["source" := path]})
                      (Py.lower (Path.suffix path)) <$> docs))
           | Raise e =>
               if is_Exception e
               then ([ParseFile path;
                      Print ("Error loading " +:+ path +:+ ": "
                             +:+ exn_str e)], Ok [])
               else ([ParseFile path], Raise e)
           end.
Proof.
  intros [l Hl]%loader_for_supported. exists l. split; [done |].
  rewrite load_document_unfold. cbv zeta. by rewrite Hl.
Qed.

Lemma is_supported_extension e :
  is_supported e = true →
  Py.lower (Path.suffix (entry_path e)) ∈ supported_extensions.
Proof.
  unfold is_supported. intros [_ H]%andb_prop. by apply bool_decide_eq_true in H.
Qed.

Lemma load_entries_cons load e entries acc :
  is_supported e = true →
  ∃ l, loader_for (Py.lower (Path.suffix (entry_path e))) = Some l ∧
  load_entries load (e :: entries) acc
  = match load l (entry_path e) with
    | Ok docs =>
        let '(out, r) :=
          load_entries load entries
            (acc ++ (add_metadata (<["file_name" := Path.name (entry_path e)]>
                                     {["source" := entry_path e]})
                       (Py.lower (Path.suffix (entry_path e))) <$> docs)) in
        (Print ("Loading: " +:+ Path.name (entry_path e))
         :: ParseFile (entry_path e) :: out, r)
    | Raise ex =>
        if is_Exception ex
        then let '(out, r) := load_entries load entries (acc ++ []) in
             (Print ("Loading: " +:+ Path.name (entry_path e))
              :: ParseFile (entry_path e)
              :: Print ("Error loading " +:+ entry_path e +:+ ": "
                        +:+ exn_str ex) :: out, r)
        else ([Print ("Loading: " +:+ Path.name (entry_path e));
               ParseFile (entry_path e)], Raise ex)
    end.
Proof.
  intros He.
  destruct (load_document_supported load (entry_path e)
              (is_supported_extension e He)) as (l & Hl & Hd).
  exists l. split; [done |].
  cbn [load_entries]. rewrite He, Hd.
  unfold mbind, io_bind, print.
  destruct (load l (entry_path e)) as [docs|ex].
  - by destruct (load_entries _ _ _).
  - destruct (is_Exception ex); [|done]. by destruct (load_entries _ _ _).
Qed.

Lemma load_entries_skip load e entries acc :
  is_supported e = false →
  load_entries load (e :: entries) acc = load_entries load entries acc.
Proof. intros He. cbn [load_entries]. by rewrite He. Qed.

Lemma load_entries_no_warning load entries acc ext :
  Print ("Warning: Unsupported file format: " +:+ ext)
  ∉ (load_entries load entries acc).1.
Proof.
  revert acc. induction entries as [|e entries IH]; intros acc.
  - apply not_elem_of_nil.
  - destruct (is_supported e) eqn:He; [|by rewrite load_entries_skip].
    destruct (load_entries_cons load e entries acc He) as (l & _ & ->).
    destruct (load l (entry_path e)) as [docs|ex].
    + specialize (IH (acc ++ (add_metadata
                   (<["file_name" := Path.name (entry_path e)]>
                      {["source" := entry_path e]})
                   (Py.lower (Path.suffix (entry_path e))) <$> docs))).
      destruct (load_entries _ _ _) as [out r]. cbn [fst] in *.
      rewrite !not_elem_of_cons. split_and!; [by intros [=] | done | done].
    + destruct (is_Exception ex).
      * specialize (IH (acc ++ [])).
        destruct (load_entries _ _ _) as [out r]. cbn [fst] in *.
        rewrite !not_elem_of_cons.
        split_and!; [by intros [=] | done | by intros [=] | done].
      * cbn [fst]. rewrite !not_elem_of_cons.
        split_and!; [by intros [=] | done | apply not_elem_of_nil].
Qed.

(** X2.  The [if]/[elif] chain of [load_document] has a parser for exactly
    the extensions that [load_folder] accepts, so [load_folder] never prints
    the warning about an unsupported file format. *)
Theorem unsupported_warning_unreachable
    (load : parsers) (folder_path : string) (fs : folder)
    (extension : string) :
  (is_Some (loader_for extension) ↔ extension ∈ supported_extensions)
  ∧ Print ("Warning: Unsupported file format: " +:+ extension)
    ∉ (load_folder load folder_path fs).1.
Proof.
  split; [apply loader_for_supported |].
  destruct fs as [entries|]; [|apply not_elem_of_nil].
  rewrite load_folder_unfold.
  pose proof (load_entries_no_warning load entries [] extension) as H.
  destruct (load_entries load entries []) as [out [docs|e]]; cbn [fst] in *;
    [|done].
  rewrite not_elem_of_app, not_elem_of_cons.
  split_and!; [done | by intros [=] | apply not_elem_of_nil].
Qed.

Lemma parsed_paths_app out1 out2 :
  parsed_paths (out1 ++ out2) = parsed_paths out1 ++ parsed_paths out2.
Proof. apply omap_app. Qed.

Lemma load_entries_parsed load entries acc :
  let paths := entry_path <$> filter (λ e, is_supported e) entries in
  parsed_paths (load_entries load entries acc).1 `prefix_of` paths
  ∧ ((∃ docs, (load_entries load entries acc).2 = Ok docs) →
     parsed_paths (load_entries load entries acc).1 = paths).
Proof.
  cbv zeta. revert acc. induction entries as [|e entries IH]; intros acc.
  - split; [apply prefix_nil | done].
  - rewrite filter_cons.
    destruct (is_supported e) eqn:He.
    2: { rewrite decide_False by (intros []). rewrite load_entries_skip by done.
         apply IH. }
    rewrite decide_True by exact I. rewrite fmap_cons.
    destruct (load_entries_cons load e entries acc He) as (l & _ & ->).
    destruct (load l (entry_path e)) as [docs|ex].
    + specialize (IH (acc ++ (add_metadata
                   (<["file_name" := Path.name (entry_path e)]>
                      {["source" := entry_path e]})
                   (Py.lower (Path.suffix (entry_path e))) <$> docs))).
      destruct (load_entries _ _ _) as [out r]. cbn [fst snd] in *.
      destruct IH as [IH1 IH2]. split.
      * destruct IH1 as [rest Hrest]. exists rest. cbn. by rewrite Hrest.
      * intros H. cbn. f_equal. by apply IH2.
    + destruct (is_Exception ex).
      * specialize (IH (acc ++ [])).
        destruct (load_entries _ _ _) as [out r]. cbn [fst snd] in *.
        destruct IH as [IH1 IH2]. split.
        -- destruct IH1 as [rest Hrest]. exists rest. cbn. by rewrite Hrest.
        -- intros H. cbn. f_equal. by apply IH2.
      * cbn [fst snd]. split; [|by intros [? [=]]].
        by eexists.
Qed.

(** X3.  [load_folder] hands the supported files of the folder to a parser
    in traversal order, each once, and nothing else: the paths parsed are a
    start of the list of supported paths, and the whole list when
    [load_folder] returns, which it does when parsers fail with exceptions of
    class [Exception] only. *)
Theorem load_folder_parses_supported_once
    (load : parsers) (folder_path : string) (entries : list entry) :
  let run := load_folder load folder_path (Some entries) in
  let paths := entry_path <$> filter (λ e, is_supported e) entries in
  parsed_paths run.1 `prefix_of` paths
  ∧ ((∃ docs, run.2 = Ok docs) → parsed_paths run.1 = paths)
  ∧ ((∀ e l ex, e ∈ entries → load l (entry_path e) = Raise ex →
                is_Exception ex = true) →
     parsed_paths run.1 = paths).
Proof.
  cbv zeta. rewrite load_folder_unfold.
  destruct (load_entries_parsed load entries []) as [H1 H2].
  assert ((∃ docs, (load_entries load entries []).2 = Ok docs) →
          parsed_paths
            (match load_entries load entries [] with
             | (out, Ok docs) =>
                 (out ++ [Print (Py.nl +:+ "Loaded " +:+ pretty (length docs)
                                 +:+ " document chunks from " +:+ folder_path)],
                  Ok docs)
             | (out, Raise e) => (out, Raise e)
             end).1
          = entry_path <$> filter (λ e, is_supported e) entries) as Hok.
  { intros H. specialize (H2 H).
    destruct (load_entries load entries []) as [out [docs|e]];
      cbn [fst snd] in *; [|by destruct H].
    rewrite parsed_paths_app. cbn. by rewrite app_nil_r. }
  split_and!.
  - destruct (load_entries load entries []) as [out [docs|e]] eqn:Hl;
      cbn [fst snd] in *; [|done].
    rewrite Hok by eauto. done.
  - intros [docs Hd]. apply Hok. exists docs.
    by destruct (load_entries load entries []) as [out [ds|e]].
  - intros Hex. apply Hok.
    destruct (load_entries_total load entries [] Hex) as (out & docs & ->).
    by exists docs.
Qed.

Lemma load_entries_raise load entries acc e :
  (load_entries load entries acc).2 = Raise e →
  is_Exception e = false
  ∧ ∃ en l, en ∈ entries ∧ is_supported en = true
            ∧ load l (entry_path en) = Raise e.
Proof.
  revert acc. induction entries as [|en entries IH]; intros acc; [done |].
  destruct (is_supported en) eqn:He.
  2: { rewrite load_entries_skip by done. intros (? & en' & l & ? & ?)%IH.
       split; [done |]. exists en', l. split; [by right | done]. }
  destruct (load_entries_cons load en entries acc He) as (l & _ & ->).
  destruct (load l (entry_path en)) as [docs|ex] eqn:Hl.
  - specialize (IH (acc ++ (add_metadata
                   (<["file_name" := Path.name (entry_path en)]>
                      {["source" := entry_path en]})
                   (Py.lower (Path.suffix (entry_path en))) <$> docs))).
    destruct (load_entries _ _ _) as [out r]. cbn [snd] in *.
    intros (? & en' & l' & ? & ?)%IH.
    split; [done |]. exists en', l'. split; [by right | done].
  - destruct (is_Exception ex) eqn:Hex.
    + specialize (IH (acc ++ [])).
      destruct (load_entries _ _ _) as [out r]. cbn [snd] in *.
      intros (? & en' & l' & ? & ?)%IH.
      split; [done |]. exists en', l'. split; [by right | done].
    + cbn [snd]. intros [= <-]. split; [done |].
      exists en, l. split; [by left | done].
Qed.

(** X4.  [load_folder] raises in two ways only: [ValueError] for a folder
    that does not exist, before anything is printed or parsed, and a
    [KeyboardInterrupt] or [SystemExit] that a parser raised on a supported
    file, passed on as it is.  An exception of class [Exception] raised by a
    parser never leaves [load_folder]. *)
Theorem load_folder_failure_modes
    (load : parsers) (folder_path : string) (fs : folder) (e : exn) :
  (load_folder load folder_path fs).2 = Raise e →
  (fs = None ∧ e = ValueError ("Folder not found: " +:+ folder_path)
   ∧ (load_folder load folder_path fs).1 = [])
  ∨ (is_Exception e = false
     ∧ ∃ entries en l, fs = Some entries ∧ en ∈ entries
                       ∧ is_supported en = true
                       ∧ load l (entry_path en) = Raise e).
Proof.
  destruct fs as [entries|].
  - rewrite load_folder_unfold.
    destruct (load_entries load entries []) as [out [docs|ex]] eqn:Hl; [done |].
    cbn [snd]. intros [= ->]. right.
    destruct (load_entries_raise load entries [] e) as (? & en & l & ?).
    { by rewrite Hl. }
    split; [done |]. by exists entries, en, l.
  - cbn. intros [= <-]. by left.
Qed.

(** A folder that does not exist. *)
Lemma load_folder_failure_modes_witness :
  (load_folder (λ _ _, Ok []) "docs" None).1 = [].
Proof.
  destruct (load_folder_failure_modes (λ _ _, Ok []) "docs" None
              (ValueError "Folder not found: docs") eq_refl)
    as [(_ & _ & H)|(H & _)]; [exact H | discriminate H].
Defined.

End LoaderExtras.

(** ** src/utils.py *)

Section EnvExtras.
Import Utils.

Lemma load_env_lines_app_gen l1 l2 env :
  load_env_lines (l1 ++ l2) env
  = match load_env_lines l1 env with
    | (env', Ok _) => load_env_lines l2 env'
    | failed => failed
    end.
Proof.
  revert env. induction l1 as [|l l1 IH]; intros env; [done |].
  cbn [app load_env_lines].
  destruct (load_env_line env l); [apply IH | done].
Qed.

Lemma load_env_line_environ_set env line key value :
  sets_variable line key value →
  load_env_line env line = environ_set key value env.
Proof.
  intros (Hne & Hst & a & b & Hl & Hc & -> & ->).
  unfold load_env_line.
  assert (Py.split_once "=" (Py.strip line) = Some (a, b)) as Hs
    by (apply split_once_eq_Some; done).
  rewrite Hs, Hst, bool_decide_eq_true_2 by done. cbn [negb andb].
  rewrite Hl at 1. by rewrite contains_app_eq.
Qed.

(** X5.  When [load_env_file] returns normally, a variable named by a line
    of the file has the value given by the last line that names it, whatever
    the environment held for it before: the file overrides the
    environment. *)
Theorem env_file_last_assignment_wins
    (before after : list string) (line name value : string)
    (env env' : environ) :
  sets_variable line name value →
  (∀ l v, l ∈ after → ¬ sets_variable l name v) →
  load_env_file (Some (before ++ line :: after)) env = (env', Ok tt) →
  env' !! name = Some value.
Proof.
  intros Hset Hafter. cbn [load_env_file].
  rewrite load_env_lines_app_gen.
  destruct (load_env_lines before env) as [env1 [[]|e]]; [|done].
  cbn [load_env_lines].
  rewrite (load_env_line_environ_set env1 line name value Hset).
  destruct (environ_set_cases name value env1) as [->|(e & -> & _)]; [|done].
  intros H.
  pose proof (load_env_lines_keep after (<[name:=value]> env1) name Hafter)
    as Hk.
  rewrite H in Hk. cbn [fst] in Hk. rewrite Hk. apply lookup_insert_eq.
Qed.

(** A variable set in the shell, twice in the file and once in a comment. *)
Lemma env_file_last_assignment_wins_witness :
  (load_env_file (Some ["K=file"; " K = last "; "# K=no"; ""])
     {["K" := "shell"]}).1 !! "K" = Some "last".
Proof.
  rewrite (env_file_last_assignment_wins ["K=file"] ["# K=no"; ""]
             " K = last " "K" "last" {["K" := "shell"]}
             (load_env_file (Some ["K=file"; " K = last "; "# K=no"; ""])
                {["K" := "shell"]}).1); [reflexivity | | |].
  - repeat split; [discriminate |]. exists "K ", " last". by vm_compute.
  - intros l v Hl (Hne & Hst & _).
    apply elem_of_cons in Hl as [->|Hl]; [discriminate Hst |].
    apply elem_of_cons in Hl as [->|Hl]; [by apply Hne |].
    by apply elem_of_nil in Hl.
  - vm_compute. reflexivity.
Defined.

Lemma load_env_line_merge env line env' :
  load_env_line env line = Ok env' →
  ∃ u : environ, ∀ env2, load_env_line env2 line = Ok (u ∪ env2).
Proof.
  unfold load_env_line.
  destruct (_ && _).
  2: { intros _. exists ∅. intros env2. by rewrite (left_id_L ∅ (∪)). }
  destruct (Py.split_once _ _) as [[key value]|].
  2: { intros _. exists ∅. intros env2. by rewrite (left_id_L ∅ (∪)). }
  unfold environ_set.
  destruct (_ || _); [done |]. destruct (Py.contains "=" _); [done |].
  destruct (bool_decide _); [done |].
  intros _. exists {[Py.strip key := Py.strip value]}. intros env2.
  by rewrite insert_union_singleton_l.
Qed.

Lemma load_env_lines_merge lines env env' :
  load_env_lines lines env = (env', Ok tt) →
  ∃ u : environ, ∀ env2, load_env_lines lines env2 = (u ∪ env2, Ok tt).
Proof.
  revert env. induction lines as [|l lines IH]; intros env.
  - intros _. exists ∅. intros env2. cbn. by rewrite (left_id_L ∅ (∪)).
  - cbn [load_env_lines].
    destruct (load_env_line env l) as [env1|e] eqn:Hl; [|done].
    destruct (load_env_line_merge _ _ _ Hl) as [u1 Hu1].
    intros [u2 Hu2]%IH. exists (u2 ∪ u1). intros env2.
    by rewrite Hu1, Hu2, (assoc_L (∪)).
Qed.

(** X6.  Loading the same environment file again changes nothing: if
    [load_env_file] returns normally with the environment [env'], then
    started on [env'] it returns normally with [env'] again; and whether it
    returns normally does not depend on the environment it starts from. *)
Theorem load_env_file_idempotent
    (file : option (list string)) (env env' : environ) :
  load_env_file file env = (env', Ok tt) →
  load_env_file file env' = (env', Ok tt)
  ∧ ∀ env2, (load_env_file file env2).2 = Ok tt.
Proof.
  destruct file as [lines|]; cbn [load_env_file].
  - intros H. destruct (load_env_lines_merge _ _ _ H) as [u Hu].
    rewrite Hu in H. injection H as <-. split.
    + by rewrite Hu, (assoc_L (∪)), (idemp_L (∪)).
    + intros env2. by rewrite Hu.
  - by intros [= <-].
Qed.

(** A file that sets one variable twice. *)
Lemma load_env_file_idempotent_witness :
  load_env_file (Some ["A=1"; "B = 2"; "A=3"]) {["A" := "3"; "B" := "2"]}
  = ({["A" := "3"; "B" := "2"]}, Ok tt).
Proof.
  apply (load_env_file_idempotent (Some ["A=1"; "B = 2"; "A=3"]) ∅).
  vm_compute. reflexivity.
Defined.

End EnvExtras.

(** ** src/indexing.py and src/retrieval.py *)

Section IndexingExtras.
Import Indexing.

Lemma get_embeddings_unfold w p :
  _get_embeddings w p =
  if getenv_missing "OPENAI_API_KEY" p then (p, ([], Raise key_missing_error))
  else
    match openai_embeddings w with
    | Ok _ => (p, ([NewOpenAIEmbeddings], Ok tt))
    | Raise e =>
        (p, ([NewOpenAIEmbeddings],
             Raise (if is_Exception e
                    then RuntimeError
                           ("Failed to initialize OpenAI embeddings: "
                            +:+ exn_str e
                            +:+ ". Please check your OPENAI_API_KEY is valid.")
                    else e)))
    end.
Proof.
  unfold _get_embeddings. st_unfold.
  destruct (getenv_missing _ p); [reflexivity |].
  destruct (openai_embeddings w) as [[]|e]; [reflexivity |].
  destruct (is_Exception e); reflexivity.
Qed.

Lemma indexing_new_unfold w cs co p :
  new w cs co p =
  match Splitter.new cs co indexer_separators with
  | Raise e => (p, ([], Raise e))
  | Ok sp =>
      match _get_embeddings w p with
      | (p', (out, Ok _)) =>
          (p', (out, Ok (mkIndexer cs co "./chroma_db" sp None)))
      | (p', (out, Raise e)) => (p', (out, Raise e))
      end
  end.
Proof.
  unfold new. fold indexer_separators.
  destruct (Splitter.new cs co indexer_separators) as [sp|e]; [|reflexivity].
  st_unfold.
  destruct (_get_embeddings w p) as [p' [out [[]|e]]]; [|reflexivity].
  by rewrite app_nil_r.
Qed.

Lemma splitter_new_raises cs co seps e :
  Splitter.new cs co seps = Raise e → ∃ msg, e = ValueError msg.
Proof.
  unfold Splitter.new.
  repeat (destruct (_ : bool); [intros [= <-]; eauto |]). done.
Qed.

(** X7.  [DocumentIndexer(...)] never changes the process.  Without an API
    key it raises [ValueError] and constructs no embeddings client.  It
    returns exactly when the splitter accepts the sizes, the key is set and
    the embeddings client is constructed, and the indexer then holds the
    sizes given, the directory [./chroma_db] and no vector store.  Whatever
    it raises is a [ValueError] or a [RuntimeError], unless the embeddings
    client itself raised [KeyboardInterrupt] or [SystemExit]. *)
Theorem indexer_construction (w : world) (cs co : Z) (p : process) :
  let run := new w cs co p in
  run.1 = p
  ∧ (getenv_missing "OPENAI_API_KEY" p = true →
     (∃ msg, run.2.2 = Raise (ValueError msg))
     ∧ NewOpenAIEmbeddings ∉ run.2.1)
  ∧ (∀ self, run.2.2 = Ok self ↔
       ∃ sp, Splitter.new cs co indexer_separators = Ok sp
             ∧ getenv_missing "OPENAI_API_KEY" p = false
             ∧ openai_embeddings w = Ok tt
             ∧ self = mkIndexer cs co "./chroma_db" sp None)
  ∧ (∀ e, run.2.2 = Raise e →
       (∃ msg, e = ValueError msg ∨ e = RuntimeError msg)
       ∨ (is_Exception e = false ∧ openai_embeddings w = Raise e)).
Proof.
  cbv zeta. rewrite indexing_new_unfold, get_embeddings_unfold.
  destruct (Splitter.new cs co indexer_separators) as [sp|e0] eqn:Hsp.
  - destruct (getenv_missing "OPENAI_API_KEY" p) eqn:Hkey; cbn [fst snd].
    + split_and!; [done | | |].
      * intros _. split; [by eexists | apply not_elem_of_nil].
      * intros self. split; [done | by intros (? & _ & [=] & _)].
      * intros e [= <-]. left. eexists. by left.
    + destruct (openai_embeddings w) as [[]|e1] eqn:Hemb; cbn [fst snd].
      * split_and!; [done | done | | done].
        intros self. split.
        -- intros [= <-]. by exists sp.
        -- by intros (sp' & [= <-] & _ & _ & ->).
      * split_and!; [done | done | |].
        -- intros self. split; [done | by intros (? & _ & _ & [=] & _)].
        -- intros e [= <-]. destruct (is_Exception e1) eqn:He1.
           ++ left. eexists. by right.
           ++ by right.
  - cbn [fst snd]. split_and!; [done | | |].
    + intros _. split; [|apply not_elem_of_nil].
      destruct (splitter_new_raises _ _ _ _ Hsp) as [msg ->]. by eexists.
    + intros self. split; [done | by intros (? & [=] & _)].
    + intros e [= <-].
      destruct (splitter_new_raises _ _ _ _ Hsp) as [msg ->].
      left. eexists. by left.
Qed.

Lemma contents_get_or_create_any directory name p vs :
  Chroma.contents (Chroma.get_or_create directory name p) vs
  = Chroma.contents p vs.
Proof.
  unfold Chroma.contents, Chroma.get_or_create. cbn [disk].
  destruct (decide (Chroma.persist_directory vs = directory)) as [->|Hd].
  - rewrite lookup_insert_eq. cbn.
    destruct (decide (Chroma.collection_name vs = name)) as [->|Hn].
    + rewrite lookup_insert_eq. cbn.
      destruct (disk p !! _) as [cs|]; cbn; [|done].
      by destruct (cs !! _).
    + rewrite lookup_insert_ne by done.
      by destruct (disk p !! _).
  - by rewrite lookup_insert_ne.
Qed.

Lemma contents_disk p q vs :
  disk p = disk q → Chroma.contents p vs = Chroma.contents q vs.
Proof. unfold Chroma.contents. by intros ->. Qed.

Lemma path_exists_inserted directory name chunks p :
  path_exists directory (inserted directory name chunks p) = true.
Proof.
  unfold path_exists, inserted. cbv zeta. cbn [disk].
  apply bool_decide_eq_true. rewrite lookup_insert_eq. by eexists.
Qed.

Lemma load_existing_index_unfold w self name p :
  load_existing_index w self name p =
  if path_exists (persist_directory self) p then
    let out := [Print ("Loading existing vector store from "
                       +:+ persist_directory self +:+ "...");
                NewChroma name] in
    match chroma_open w with
    | Ok _ =>
        let q := Chroma.get_or_create (persist_directory self) name p in
        let vs := Chroma.mk (persist_directory self) name (next_object p) in
        (mkProcess (environ q) (disk q) (S (next_object p)),
         (out, Ok (with_store self vs, vs)))
    | Raise e => (p, (out, Raise e))
    end
  else (p, ([], Raise (ValueError ("Vector store not found at "
                                   +:+ persist_directory self)))).
Proof.
  unfold load_existing_index, Chroma.new. st_unfold.
  destruct (path_exists _ p); [|reflexivity]. cbn [negb].
  destruct (chroma_open w) as [[]|e]; reflexivity.
Qed.

(** X8.  After [index_documents] has succeeded the persist directory
    exists, and [load_existing_index] on the indexer returned, with a vector
    store that opens, succeeds without a bulk insert and returns a store on
    the same directory and collection, in which it finds the chunks the
    store of [index_documents] holds. *)
Theorem index_then_load
    (w w' : world) (self : DocumentIndexer) (documents : list Document)
    (name : string) (p p' : process) (out : list event)
    (ix : DocumentIndexer) (vs : Chroma.t) :
  index_documents w self documents name p = (p', (out, Ok (ix, vs))) →
  chroma_open w' = Ok tt →
  path_exists (persist_directory ix) p' = true
  ∧ ∃ p'' out' vs',
      load_existing_index w' ix name p' = (p'', (out', Ok (with_store ix vs', vs')))
      ∧ Chroma.persist_directory vs' = Chroma.persist_directory vs
      ∧ Chroma.collection_name vs' = Chroma.collection_name vs
      ∧ Chroma.contents p'' vs' = Chroma.contents p' vs
      ∧ ∀ c chunks, ChromaFromDocuments c chunks ∉ out'.
Proof.
  intros Hix Hopen.
  destruct documents as [|d documents]; [done |].
  rewrite index_documents_unfold in Hix by done. cbv zeta in Hix.
  destruct (chroma_from_documents w _) as [[]|e]; [|done].
  injection Hix as <- <- <- <-.
  cbn [persist_directory with_store].
  split.
  - apply path_exists_inserted.
  - rewrite load_existing_index_unfold.
    cbn [persist_directory with_store]. rewrite path_exists_inserted, Hopen.
    cbv zeta. eexists _, _, _.
    split_and!; [reflexivity | reflexivity | reflexivity | |].
    + rewrite (contents_disk _
                 (Chroma.get_or_create (persist_directory self) name
                    (inserted (persist_directory self) name
                       (Splitter.split_documents (text_splitter self)
                          (d :: documents)) p))) by reflexivity.
      rewrite contents_get_or_create_any.
      by rewrite !contents_inserted.
    + not_in_trace.
Qed.

(** Indexing one document in the state the example run leaves, and opening
    the index again. *)
Lemma index_then_load_witness :
  path_exists "./chroma_db"
    (index_documents (example_docs_world "new text" (Ok tt))
       (App.indexer (App.vars example_state)) [mkDocument "new text" ∅]
       "documents" (App.proc example_state)).1 = true.
Proof.
  pose (run := index_documents (example_docs_world "new text" (Ok tt))
                 (App.indexer (App.vars example_state))
                 [mkDocument "new text" ∅] "documents"
                 (App.proc example_state)).
  destruct (index_then_load (example_docs_world "new text" (Ok tt))
              (example_docs_world "new text" (Ok tt))
              (App.indexer (App.vars example_state))
              [mkDocument "new text" ∅] "documents"
              (App.proc example_state) run.1 run.2.1
              (with_store (App.indexer (App.vars example_state))
                 (Chroma.mk "./chroma_db" "documents" 1))
              (Chroma.mk "./chroma_db" "documents" 1))
    as (H & _); [vm_compute; reflexivity | reflexivity |].
  exact H.
Defined.

Lemma split_text_empty cs co :
  Splitter.split_text (Splitter.mk cs co indexer_separators) "" = [].
Proof. reflexivity. Qed.

Lemma split_documents_blank sp documents :
  Splitter.separators sp = indexer_separators →
  Forall (λ d, page_content d = "") documents →
  Splitter.split_documents sp documents = [].
Proof.
  destruct sp as [cs co seps]. cbn [Splitter.separators]. intros ->.
  induction 1 as [|d documents Hd _ IH]; [done |].
  unfold Splitter.split_documents in *. rewrite bind_cons, IH, Hd.
  by rewrite split_text_empty.
Qed.

(** X9.  Without documents [index_documents] raises [ValueError] before it
    prints or calls anything, and the process is as before.  The test is on
    the documents, not on the chunks: with at least one document the bulk
    insert is called with the chunks of [chunk_documents], and for documents
    whose text is empty it is called with no chunk at all. *)
Theorem index_documents_guard
    (w : world) (self : DocumentIndexer) (documents : list Document)
    (name : string) (p : process) :
  let run := index_documents w self documents name p in
  (documents = [] →
   run = (p, ([], Raise (ValueError "No documents provided for indexing"))))
  ∧ (documents ≠ [] →
     ChromaFromDocuments name
       (Splitter.split_documents (text_splitter self) documents) ∈ run.2.1)
  ∧ (documents ≠ [] →
     Splitter.separators (text_splitter self) = indexer_separators →
     Forall (λ d, page_content d = "") documents →
     ChromaFromDocuments name [] ∈ run.2.1).
Proof.
  cbv zeta. split_and!.
  - by intros ->.
  - intros Hne. rewrite index_documents_unfold by done. cbv zeta.
    destruct (chroma_from_documents w _) as [[]|e]; cbn [fst snd]; in_mixed.
  - intros Hne Hseps Hblank. rewrite index_documents_unfold by done. cbv zeta.
    rewrite split_documents_blank by done.
    destruct (chroma_from_documents w _) as [[]|e]; cbn [fst snd]; in_mixed.
Qed.

End IndexingExtras.

Section RetrievalExtras.
Import Retrieval.

Lemma get_llm_unfold w model p :
  _get_llm w model p =
  let name := match model with
              | Some m => if bool_decide (m = "") then "gpt-3.5-turbo" else m
              | None => "gpt-3.5-turbo"
              end in
  if getenv_missing "OPENAI_API_KEY" p then (p, ([], Raise key_missing_error))
  else
    match chat_openai w with
    | Ok _ => (p, ([NewChatOpenAI name], Ok name))
    | Raise e =>
        (p, ([NewChatOpenAI name],
             Raise (if is_Exception e
                    then RuntimeError
                           ("Failed to initialize OpenAI LLM: " +:+ exn_str e
                            +:+ ". Please check your OPENAI_API_KEY is valid.")
                    else e)))
    end.
Proof.
  unfold _get_llm. st_unfold. cbv zeta.
  destruct (getenv_missing _ p); [reflexivity |].
  destruct (chat_openai w) as [[]|e]; [reflexivity |].
  destruct (is_Exception e); reflexivity.
Qed.

(** X10.  [QARetriever(...)] never changes the process.  Without an API key
    it raises the key error and constructs no chat client.  When it returns,
    the retriever holds the vector store and the [k] given, its chain
    retrieves [k] chunks from that store for the chat model constructed, and
    the model name is never empty: [gpt-3.5-turbo] for no name and for the
    empty name, the name given otherwise.  An exception of the chat client is
    wrapped in a [RuntimeError]; [KeyboardInterrupt] and [SystemExit]
    pass. *)
Theorem retriever_construction
    (w : world) (vs : Chroma.t) (model : option string) (top_k : Z)
    (p : process) :
  let run := new w vs model top_k p in
  run.1 = p
  ∧ (getenv_missing "OPENAI_API_KEY" p = true →
     run.2 = ([], Raise key_missing_error))
  ∧ (∀ qa, run.2.2 = Ok qa →
       vector_store qa = vs ∧ k qa = top_k
       ∧ qa_chain qa = mkChain vs top_k (llm qa)
       ∧ llm qa ≠ ""
       ∧ (model = None ∨ model = Some "" → llm qa = "gpt-3.5-turbo")
       ∧ (∀ m, model = Some m → m ≠ "" → llm qa = m)
       ∧ run.2.1 = [NewChatOpenAI (llm qa)]
       ∧ getenv_missing "OPENAI_API_KEY" p = false
       ∧ chat_openai w = Ok tt)
  ∧ (∀ e, run.2.2 = Raise e →
       e = key_missing_error
       ∨ (∃ e0, chat_openai w = Raise e0 ∧ is_Exception e0 = true
                ∧ e = RuntimeError
                        ("Failed to initialize OpenAI LLM: " +:+ exn_str e0
                         +:+ ". Please check your OPENAI_API_KEY is valid."))
       ∨ (is_Exception e = false ∧ chat_openai w = Raise e)).
Proof.
  cbv zeta. unfold new. st_unfold. rewrite get_llm_unfold. cbv zeta.
  destruct (getenv_missing _ p); cbn [fst snd].
  { split_and!; [done | done | done |]. intros e [= <-]. by left. }
  destruct (chat_openai w) as [[]|e0]; cbn [fst snd].
  - split_and!; [done | done | | done].
    intros qa [= <-]. cbn [vector_store k qa_chain llm _create_qa_chain].
    split_and!; try done.
    + destruct model as [m|]; [|done]. by case_bool_decide.
    + intros [->| ->]; [done |]. by rewrite bool_decide_eq_true_2.
    + intros m -> Hm. by rewrite bool_decide_eq_false_2.
  - split_and!; [done | done | done |].
    intros e [= <-]. right. destruct (is_Exception e0) eqn:He0.
    + left. by exists e0.
    + by right.
Qed.

Lemma answer_question_cases w self question p :
  answer_question w self question p
  = (p, ([ChainInvoke question],
         match chain_invoke w (Chroma.contents p (chain_store (qa_chain self)))
                 (chain_k (qa_chain self)) question with
         | Ok cr =>
             Ok (mkResult (default "" (chain_answer cr))
                   (elements (list_to_set
                                (source_of <$> default [] (chain_context cr))
                              : gset string))
                   (default [] (chain_context cr)))
         | Raise e => Raise e
         end)).
Proof.
  unfold answer_question. st_unfold.
  by destruct (chain_invoke w _ _ _).
Qed.

(** X11.  When the chain answers without context (no [context] key, or an
    empty list), [answer_question] returns no source and no context, and
    [format_response] shows the answer section only, with [show_context] set
    or not. *)
Theorem answer_without_context
    (w : world) (self : QARetriever) (question : string) (p : process)
    (cr : chain_result) :
  chain_invoke w (Chroma.contents p (chain_store (qa_chain self)))
    (chain_k (qa_chain self)) question = Ok cr →
  chain_context cr = None ∨ chain_context cr = Some [] →
  ∃ r, (answer_question w self question p).2.2 = Ok r
       ∧ sources r = [] ∧ context r = []
       ∧ ∀ show_context,
           format_response r show_context
           = Py.join Py.nl
               [Py.repeat "=" 60; "ANSWER:"; Py.repeat "=" 60;
                default "" (chain_answer cr); ""].
Proof.
  intros Hc Hctx. rewrite answer_question_cases, Hc. cbn [snd].
  eexists. split; [reflexivity |]. cbn [sources context].
  assert (default [] (chain_context cr) = []) as ->
    by (by destruct Hctx as [-> | ->]).
  rewrite fmap_nil, list_to_set_nil, elements_empty.
  split_and!; [done | done |]. intros show.
  unfold format_response, format_lines. cbn [sources context answer].
  rewrite (bool_decide_eq_false_2 ([] ≠ [])) by (intros H; by apply H).
  by rewrite andb_false_r.
Qed.

(** A chain that answers without a context key. *)
Lemma answer_without_context_witness :
  ∃ r, (answer_question (example_world (mkChainResult (Some "I don't know.") None))
          (mkQARetriever (Chroma.mk "./chroma_db" "documents" 0) 4
             "gpt-3.5-turbo"
             (mkChain (Chroma.mk "./chroma_db" "documents" 0) 4
                "gpt-3.5-turbo"))
          "Why?" (mkProcess ∅ ∅ 1)).2.2 = Ok r
       ∧ sources r = [] ∧ context r = []
       ∧ ∀ show_context,
           format_response r show_context
           = Py.join Py.nl
               [Py.repeat "=" 60; "ANSWER:"; Py.repeat "=" 60;
                "I don't know."; ""].
Proof.
  exact (answer_without_context
           (example_world (mkChainResult (Some "I don't know.") None))
           (mkQARetriever (Chroma.mk "./chroma_db" "documents" 0) 4
              "gpt-3.5-turbo"
              (mkChain (Chroma.mk "./chroma_db" "documents" 0) 4
                 "gpt-3.5-turbo"))
           "Why?" (mkProcess ∅ ∅ 1)
           (mkChainResult (Some "I don't know.") None) eq_refl
           (or_introl eq_refl)).
Defined.

Lemma enumerate1_lookup {A} (l : list A) i x :
  l !! i = Some x → enumerate1 l !! i = Some (S i, x).
Proof.
  intros H. unfold enumerate1. by rewrite list_lookup_imap, H.
Qed.

(** X12.  The formatted response always starts with the answer section,
    the answer on its fourth line.  Without sources nothing but the context
    section follows it; with sources the heading [SOURCES:] follows, then one
    line for each source, in order and numbered from 1, then an empty
    line. *)
Theorem format_response_sources_numbered
    (result : qa_result) (show_context : bool) :
  take 5 (format_lines result show_context)
  = [Py.repeat "=" 60; "ANSWER:"; Py.repeat "=" 60; answer result; ""]
  ∧ (sources result = [] →
     format_lines (without_context result) show_context
     = [Py.repeat "=" 60; "ANSWER:"; Py.repeat "=" 60; answer result; ""])
  ∧ (sources result ≠ [] →
     format_lines result show_context !! 6 = Some "SOURCES:")
  ∧ (∀ i source,
       sources result !! i = Some source →
       format_lines result show_context !! (8 + i)
       = Some (pretty (S i) +:+ ". " +:+ source))
  ∧ (sources result ≠ [] →
     format_lines result show_context !! (8 + length (sources result))
     = Some "").
Proof.
  rewrite format_lines_context.
  unfold format_lines, without_context.
  cbn [answer sources context].
  rewrite (bool_decide_eq_false_2 ([] ≠ [])) by (intros H; by apply H).
  rewrite andb_false_r.
  destruct (sources result) as [|s0 srcs] eqn:Hs.
  - by split_and!.
  - set (numbered := (λ '(i, source), pretty i +:+ ". " +:+ source)
                       <$> enumerate1 (s0 :: srcs)).
    assert (length numbered = length (s0 :: srcs)) as Hlen.
    { unfold numbered, enumerate1. by rewrite length_fmap, length_imap. }
    cbn [app take]. split_and!; [done | done | done | |].
    + intros i source Hi. cbn [Nat.add lookup list_lookup].
      apply lookup_app_l_Some, lookup_app_l_Some.
      unfold numbered. rewrite list_lookup_fmap.
      by rewrite (enumerate1_lookup _ _ _ Hi).
    + intros _. rewrite <- Hlen. cbn [Nat.add lookup list_lookup].
      apply lookup_app_l_Some. apply list_lookup_middle. done.
Qed.

End RetrievalExtras.

(** ** app.py: the loop *)

Section LoopExtras.
Import App.

Lemma round_body_input_raise args w e s :
  round_body args w (Raise e) s
  = (s, ([Input (Py.nl +:+ "Question: ")], Raise e)).
Proof. reflexivity. Qed.

Lemma round_body_blank args w q s :
  Py.strip q = "" →
  round_body args w (Ok q) s
  = (s, ([Input (Py.nl +:+ "Question: ")], Ok Continue)).
Proof.
  intros Hq. unfold round_body. st_unfold. cbv zeta.
  by rewrite Hq.
Qed.

Lemma round_body_quit args w q s :
  Py.lower (Py.strip q) = "quit" →
  round_body args w (Ok q) s
  = (s, ([Input (Py.nl +:+ "Question: "); Print (Py.nl +:+ "Goodbye!")],
         Ok Break)).
Proof.
  intros Hq. unfold round_body. st_unfold. cbv zeta.
  rewrite Hq.
  rewrite (bool_decide_eq_false_2 (Py.strip q = ""))
    by (intros Heq; by rewrite Heq in Hq).
  reflexivity.
Qed.

Lemma line_cases (line : result string) :
  (∃ e, line = Raise e)
  ∨ (∃ q, line = Ok q ∧ Py.strip q = "")
  ∨ (∃ q, line = Ok q ∧ Py.lower (Py.strip q) = "quit")
  ∨ reindex_line line
  ∨ (∃ question, question_line line question).
Proof.
  destruct line as [q|e]; [|left; by exists e]. right.
  destruct (decide (Py.strip q = "")); [left; by exists q |]. right.
  destruct (decide (Py.lower (Py.strip q) = "quit")); [left; by exists q |].
  right.
  destruct (decide (Py.lower (Py.strip q) = "reindex")); [left; by exists q |].
  right. exists (Py.strip q), q. done.
Qed.

Lemma round_keeps args w line s out r :
  round_body args w line s = (s, (out, r)) →
  (round args w line s).1 = s.
Proof.
  intros H. unfold round. rewrite H.
  destruct r as [c|e]; [done |]. by destruct e.
Qed.

Lemma round_state_of_body args w line s :
  (round args w line s).1 = (round_body args w line s).1.
Proof.
  unfold round.
  destruct (round_body args w line s) as [s' [out [c|e]]]; [done |].
  by destruct e.
Qed.

Lemma round_body_state args w line s :
  (round_body args w line s).1 = s
  ∨ (reindex_line line ∧ (round_body args w line s).1
                         = (reindex_body args w s).1).
Proof.
  destruct (line_cases line)
    as [[e ->]|[(q & -> & Hq)|[(q & -> & Hq)|[Hre|[question Hq]]]]].
  - left. by rewrite round_body_input_raise.
  - left. by rewrite round_body_blank.
  - left. by rewrite round_body_quit.
  - right. split; [done |]. destruct Hre as (q & -> & Hq).
    rewrite round_body_reindex by done. cbv zeta.
    rewrite reindex_command_unfold.
    destruct (reindex_body args w s) as [s' [out [[]|e]]]; [done |].
    by destruct (is_Exception e).
  - left. rewrite (round_body_question _ _ _ _ _ Hq). cbv zeta.
    pose proof (answer_question_state w (qa_retriever (vars s)) question
                  (proc s)) as Hp.
    destruct (Retrieval.answer_question _ _ _ _) as [p [out [r|e]]];
      cbn [fst] in *; subst p; by destruct s.
Qed.

(** X13.  A round of the loop whose line is not the [reindex] command
    leaves the loop state as it is, the process with its environment and
    collections and the four variables: so when [input] fails, when the line
    is blank or [quit], and when it is a question, answered or not.  All such
    a round does is print, read the line and, for a question, call the chain
    with it. *)
Theorem only_reindex_changes_state
    (args : Args) (w : world) (line : result string) (s : machine) :
  ¬ reindex_line line →
  (round args w line s).1 = s
  ∧ Forall (λ ev, is_print ev = true
                  ∨ ev = Input (Py.nl +:+ "Question: ")
                  ∨ ∃ question, question_line line question
                                ∧ ev = ChainInvoke question)
      (round args w line s).2.1.
Proof.
  intros Hre. split.
  { rewrite round_state_of_body.
    by destruct (round_body_state args w line s) as [?|[? _]]. }
  unfold round.
  destruct (line_cases line)
    as [[e ->]|[(q & -> & Hq)|[(q & -> & Hq)|[?|[question Hq]]]]]; [| | |done|].
  - rewrite round_body_input_raise.
    destruct e; cbn [is_Exception fst snd app];
      each_event ltac:(by (left + (right; left))).
  - rewrite round_body_blank by done. cbn [fst snd].
    each_event ltac:(by (left + (right; left))).
  - rewrite round_body_quit by done. cbn [fst snd].
    each_event ltac:(by (left + (right; left))).
  - rewrite (round_body_question _ _ _ _ _ Hq). cbv zeta.
    rewrite answer_question_unfold.
    destruct (chain_invoke w _ _ _) as [cr|e]; [|destruct e];
      cbn [is_Exception fst snd app];
      each_event ltac:(first [by left | by (right; left)
                             | right; right; by exists question]).
Qed.

(** A question in the example state. *)
Lemma only_reindex_changes_state_witness :
  (round example_args (example_world example_answer) (Ok "Why?")
     example_state).1 = example_state.
Proof.
  apply only_reindex_changes_state.
  intros (q & [= <-] & Hq). vm_compute in Hq. discriminate Hq.
Defined.

Lemma reindex_body_state args w s :
  (reindex_body args w s).1 = s
  ∨ ∃ docs, (reindex_body args w s).1 = with_documents docs s
            ∨ ∃ renew, (reindex_body args w s).1 = reindexed args docs renew s.
Proof.
  rewrite reindex_body_unfold. cbv zeta.
  destruct (Loaders.load_folder _ _ _) as [outL [[|d documents]|e]].
  - right. exists []. by left.
  - rewrite index_documents_unfold by done. cbv zeta.
    destruct (chroma_from_documents w _) as [[]|e].
    + rewrite new_unfold.
      destruct (getenv_missing _ _).
      { right. exists (d :: documents). right. by exists false. }
      destruct (chat_openai w) as [[]|e].
      * right. exists (d :: documents). right. by exists true.
      * right. exists (d :: documents). right. by exists false.
    + right. exists (d :: documents). by left.
  - by left.
Qed.

Lemma round_state args w line s :
  (round args w line s).1 = s
  ∨ ∃ docs, (round args w line s).1 = with_documents docs s
            ∨ ∃ renew, (round args w line s).1 = reindexed args docs renew s.
Proof.
  rewrite round_state_of_body.
  destruct (round_body_state args w line s) as [->|[_ ->]]; [by left |].
  apply reindex_body_state.
Qed.

Lemma loop_cons args w line rest s :
  loop args ((w, line) :: rest) s
  = match round args w line s with
    | (s', (out, Ok Break)) => (s', (out, Ok Finished))
    | (s', (out, Ok Continue)) =>
        let '(s'', (out', r)) := loop args rest s' in (s'', (out ++ out', r))
    | (s', (out, Raise e)) => (s', (out, Raise e))
    end.
Proof.
  cbn [loop]. st_unfold.
  destruct (round args w line s) as [s' [out [[]|e]]]; [done | | done].
  by rewrite app_nil_r.
Qed.

Lemma loop_invariant (R : machine → machine → Prop) args :
  (∀ s, R s s) →
  (∀ s1 s2 s3, R s1 s2 → R s2 s3 → R s1 s3) →
  (∀ w line s, R s (round args w line s).1) →
  ∀ rounds s, R s (loop args rounds s).1.
Proof.
  intros Hrefl Htrans Hround rounds.
  induction rounds as [|[w line] rest IH]; intros s; [apply Hrefl |].
  rewrite loop_cons. specialize (Hround w line s).
  destruct (round args w line s) as [s' [out [[]|e]]]; cbn [fst] in *;
    [| done | done].
  specialize (IH s'). destruct (loop args rest s') as [s'' [out' r]].
  cbn [fst] in *. by eapply Htrans.
Qed.

Lemma coherent_round args w line s :
  coherent args s → coherent args (round args w line s).1.
Proof.
  intros H.
  destruct (round_state args w line s) as [->|[docs [->|[renew ->]]]];
    [done | done |].
  destruct H as (Hk & Hchain & Hd & Hn & Hd' & Hn' & Hix).
  unfold coherent, reindexed. cbv zeta.
  cbn [vars qa_retriever indexer vector_store with_store
       Indexing.persist_directory Indexing.vector_store
       Chroma.persist_directory Chroma.collection_name].
  destruct renew; cbn; by split_and!.
Qed.

Lemma same_configuration_round args w line s :
  same_configuration s (round args w line s).1.
Proof.
  destruct (round_state args w line s) as [->|[docs [->|[renew ->]]]];
    by split_and!.
Qed.

(** X14.  Whatever lines are read, the loop never changes the environment
    nor the chunk size, overlap, directory and splitter of the indexer.  And
    if the variables fit together when it starts (the retriever retrieves
    [--k] chunks through a chain over its own store, and the stores and the
    indexer name the collection [documents] of the indexer's directory), they
    do when it stops. *)
Theorem loop_keeps_configuration
    (args : Args) (rounds : list (world * result string)) (s : machine) :
  same_configuration s (loop args rounds s).1
  ∧ (coherent args s → coherent args (loop args rounds s).1).
Proof.
  split.
  - apply (loop_invariant same_configuration).
    + intros s0. by split_and!.
    + intros s1 s2 s3 (H1 & H2 & H3 & H4 & H5) (G1 & G2 & G3 & G4 & G5).
      split_and!; congruence.
    + apply same_configuration_round.
  - apply (loop_invariant (λ s s', coherent args s → coherent args s')).
    + done.
    + intros s1 s2 s3 H1 H2 H. by apply H2, H1.
    + intros w line s0. apply coherent_round.
Qed.

Lemma round_raises args w line s e :
  (round args w line s).2.2 = Raise e → ∃ code, e = SystemExit code.
Proof.
  unfold round.
  destruct (round_body args w line s) as [s' [out [c|e0]]]; [done |].
  destruct e0; cbn; try done. intros [= <-]. by eexists.
Qed.

(** X16.  The loop never ends on an exception of class [Exception] nor on
    [KeyboardInterrupt]: the former is reported and the loop continues, the
    latter ends it normally.  The only exception that leaves the loop is
    [SystemExit]. *)
Theorem loop_raises_only_system_exit
    (args : Args) (rounds : list (world * result string)) (s : machine)
    (e : exn) :
  (loop args rounds s).2.2 = Raise e → ∃ code, e = SystemExit code.
Proof.
  revert s. induction rounds as [|[w line] rest IH]; intros s; [done |].
  rewrite loop_cons.
  pose proof (round_raises args w line s) as Hr.
  destruct (round args w line s) as [s' [out [[]|e0]]]; cbn [snd] in *.
  - specialize (IH s'). by destruct (loop args rest s') as [s'' [out' r]].
  - done.
  - intros [= <-]. by apply Hr.
Qed.

(** A chain that raises [SystemExit(3)]. *)
Lemma loop_raises_only_system_exit_witness :
  ∃ code, SystemExit 3 = SystemExit code.
Proof.
  apply (loop_raises_only_system_exit example_args
           [(mkWorld None None false (λ _ _, Ok []) (Ok tt) (λ _, Ok tt) (Ok tt)
               (Ok tt) (λ _ _ _, Raise (SystemExit 3)), Ok "Why?")]
           example_state).
  vm_compute. reflexivity.
Defined.

(** X17.  A line that is [quit] in any letter case, with any blanks around
    it, ends the loop after the farewell line, with the state unchanged, no
    call made and no further line read; the exit code is 0.
    [KeyboardInterrupt] at the prompt does the same. *)
Theorem quit_ends_loop
    (args : Args) (w : world) (q : string)
    (rest : list (world * result string)) (s : machine) :
  Py.lower (Py.strip q) = "quit" →
  loop args ((w, Ok q) :: rest) s
  = (s, ([Input (Py.nl +:+ "Question: "); Print (Py.nl +:+ "Goodbye!")],
         Ok Finished))
  ∧ loop args ((w, Raise KeyboardInterrupt) :: rest) s
    = (s, ([Input (Py.nl +:+ "Question: ");
            Print (Py.nl +:+ Py.nl +:+ "Goodbye!")], Ok Finished))
  ∧ exit_code (loop args ((w, Ok q) :: rest) s).2.2 = 0%Z.
Proof.
  intros Hq. rewrite !loop_cons. unfold round.
  rewrite round_body_quit by done. rewrite round_body_input_raise.
  by split_and!.
Qed.

(** [quit] in mixed case with blanks, before a [reindex] that is not read. *)
Lemma quit_ends_loop_witness :
  loop example_args
    [(example_empty_world, Ok "  QuIt "); (example_empty_world, Ok "reindex")]
    example_state
  = (example_state,
     ([Input (Py.nl +:+ "Question: "); Print (Py.nl +:+ "Goodbye!")],
      Ok Finished)).
Proof.
  apply quit_ends_loop. vm_compute. reflexivity.
Defined.

End LoopExtras.

(** ** app.py: the start of [main] and its exit code *)

Section SetupExtras.
Import App.

Lemma retrieval_new_state w vs k p :
  (Retrieval.new w vs None k p).1 = p.
Proof.
  rewrite new_unfold. destruct (getenv_missing _ p); [done |].
  by destruct (chat_openai w) as [[]|e].
Qed.

Lemma retrieval_new_origin w vs k p p' out e :
  Retrieval.new w vs None k p = (p', (out, Raise e)) →
  is_Exception e = false → chat_openai w = Raise e.
Proof.
  rewrite new_unfold. destruct (getenv_missing _ p); [by intros [= _ _ <-] |].
  destruct (chat_openai w) as [[]|e0]; [done |].
  destruct (is_Exception e0) eqn:He0; intros [= _ _ <-]; [done |]. done.
Qed.

Lemma load_existing_index_origin w ix name p p' out e :
  Indexing.load_existing_index w ix name p = (p', (out, Raise e)) →
  is_Exception e = false → chroma_open w = Raise e.
Proof.
  rewrite load_existing_index_unfold.
  destruct (Indexing.path_exists _ p); [|by intros [= _ _ <-]].
  cbv zeta. destruct (chroma_open w) as [[]|e0]; [done |].
  by intros [= _ _ <-].
Qed.

Lemma index_documents_origin w ix docs name p p' out e :
  Indexing.index_documents w ix docs name p = (p', (out, Raise e)) →
  is_Exception e = false → ∃ chunks, chroma_from_documents w chunks = Raise e.
Proof.
  destruct docs as [|d docs]; [by intros [= _ _ <-] |].
  rewrite index_documents_unfold by done. cbv zeta.
  destruct (chroma_from_documents w _) as [[]|e0] eqn:Hc; [done |].
  intros [= _ _ <-] _. eauto.
Qed.

Lemma index_step_origin args w ix docs p p' out e :
  index_step args w ix docs p = (p', (out, Raise e)) →
  is_Exception e = false →
  (∃ chunks, chroma_from_documents w chunks = Raise e)
  ∨ chroma_open w = Raise e.
Proof.
  unfold index_step. destruct (_ && _).
  - intros H He. right. by eapply load_existing_index_origin.
  - intros H He. left. by eapply index_documents_origin.
Qed.

Lemma indexing_new_state w cs co p :
  (Indexing.new w cs co p).1 = p.
Proof.
  rewrite indexing_new_unfold, get_embeddings_unfold.
  destruct (Splitter.new _ _ _); [|done].
  destruct (getenv_missing _ p); [done |].
  by destruct (openai_embeddings w) as [[]|e].
Qed.

Lemma setup_cases args w p :
  let p1 := after_env_file w p in
  let run := setup args w p in
  (∃ e, (Utils.load_env_file (env_file w) (environ p)).2 = Raise e
        ∧ run = (p1, ([], Raise e)))
  ∨ (env_file_loads w p
     ∧ (run.2.2 = Raise (SystemExit 1)
        ∨ (∃ e, is_Exception e = false ∧ run.2.2 = Raise e
                ∧ ((Loaders.load_folder (parsers w) (docs args)
                      (docs_folder w)).2 = Raise e
                   ∨ (∃ chunks, chroma_from_documents w chunks = Raise e)
                   ∨ chroma_open w = Raise e
                   ∨ chat_openai w = Raise e))
        ∨ (∃ e, (Indexing.new w (chunk_size args) (chunk_overlap args) p1).2.2
                = Raise e ∧ run.2.2 = Raise e)
        ∨ (∃ documents ix ix' vs qa p2 outI outR,
             getenv_missing "OPENAI_API_KEY" p1 = false
             ∧ (Loaders.load_folder (parsers w) (docs args)
                  (docs_folder w)).2 = Ok documents
             ∧ documents ≠ []
             ∧ (Indexing.new w (chunk_size args) (chunk_overlap args) p1).2.2
               = Ok ix
             ∧ index_step args w ix documents p1 = (p2, (outI, Ok (ix', vs)))
             ∧ Retrieval.new w vs None (k args) p2 = (p2, (outR, Ok qa))
             ∧ run.1 = p2
             ∧ run.2.2 = Ok (mkLocals documents ix' vs qa)))).
Proof.
  cbv zeta.
  destruct (Utils.load_env_file (env_file w) (environ p)).2 as [[]|e] eqn:Henv.
  2: { left. exists e. split; [done |]. by apply setup_env_file_raises. }
  right. split; [done |].
  unfold setup. st_unfold. rewrite load_env_unfold, Henv.
  set (p1 := after_env_file w p).
  destruct (getenv_missing "OPENAI_API_KEY" p1) eqn:Hkey; [by left |].
  destruct (negb _); [by left |].
  destruct (Loaders.load_folder _ _ _) as [outL [[|d documents]|e]] eqn:Hload.
  - by left.
  - pose proof (indexing_new_state w (chunk_size args) (chunk_overlap args) p1)
      as Hp1.
    destruct (Indexing.new w (chunk_size args) (chunk_overlap args) p1)
      as [p1' [outN [ix|e]]] eqn:Hnew; cbn [fst] in Hp1; subst p1'.
    2: { right. right. left. by exists e. }
    assert (index_step args w ix (d :: documents) p1
            = if negb (reindex args)
                 && Indexing.path_exists (Indexing.persist_directory ix) p1
              then Indexing.load_existing_index w ix "documents" p1
              else Indexing.index_documents w ix (d :: documents) "documents"
                     p1) as Hstep by reflexivity.
    destruct (negb (reindex args) && _);
      [destruct (Indexing.load_existing_index w ix "documents" p1)
         as [p2 [outI [[ix' vs]|e]]]
      |destruct (Indexing.index_documents w ix (d :: documents) "documents"
                   p1) as [p2 [outI [[ix' vs]|e]]]].
    1, 3: pose proof (retrieval_new_state w vs (k args) p2) as Hp2;
      destruct (Retrieval.new w vs None (k args) p2)
        as [p2' [outR [qa|e]]] eqn:Hqa; cbn [fst] in Hp2; subst p2';
      [ right; right; right;
        exists (d :: documents), ix, ix', vs, qa, p2, outI, outR;
        by split_and!
      | destruct (is_Exception e) eqn:He; [by left |];
        right; left; exists e; split_and!; [done | done |];
        right; right; right; by eapply retrieval_new_origin ].
    all: destruct (is_Exception e) eqn:He; [by left |];
      right; left; exists e; split_and!; [done | done |];
      right; destruct (index_step_origin _ _ _ _ _ _ _ _ Hstep He); auto.
  - destruct (is_Exception e) eqn:He; [by left |].
    right. left. exists e. split_and!; [done | done |]. by left.
Qed.

Lemma main_setup_raises args w rounds p p' out e :
  setup args w p = (p', (out, Raise e)) →
  main args w rounds p = (p', (out, Raise e)).
Proof. intros H. unfold main. st_unfold. by rewrite H. Qed.

Lemma validate_folder_false w :
  docs_folder w = None ∨ docs_is_dir w = false →
  Utils.validate_folder (bool_decide (is_Some (docs_folder w))) (docs_is_dir w)
  = false.
Proof.
  unfold Utils.validate_folder. intros [-> | ->]; [done |].
  apply andb_false_r.
Qed.

(** X18.  With the key present, a [--docs] path that does not exist or is
    not a directory makes [main] print the folder error and exit with code 1:
    nothing is loaded, constructed or called, nothing is read from the
    terminal. *)
Theorem folder_check_exits
    (args : Args) (w : world) (rounds : list (world * result string))
    (p : process) :
  env_file_loads w p →
  getenv_missing "OPENAI_API_KEY" (after_env_file w p) = false →
  docs_folder w = None ∨ docs_is_dir w = false →
  main args w rounds p
  = (after_env_file w p,
     ([Print ("Error: Folder not found: " +:+ docs args)],
      Raise (SystemExit 1)))
  ∧ exit_code (main args w rounds p).2.2 = 1%Z.
Proof.
  intros Henv Hkey Hdir%validate_folder_false.
  assert (setup args w p
          = (after_env_file w p,
             ([Print ("Error: Folder not found: " +:+ docs args)],
              Raise (SystemExit 1)))) as Hs.
  { unfold setup. st_unfold. rewrite load_env_unfold, Henv, Hkey, Hdir.
    reflexivity. }
  by rewrite (main_setup_raises _ _ _ _ _ _ _ Hs).
Qed.

(** A folder path that names a file. *)
Lemma folder_check_exits_witness :
  main example_args
    (mkWorld (Some ["OPENAI_API_KEY=sk-test"]) (Some []) false
       (λ _ _, Ok []) (Ok tt) (λ _, Ok tt) (Ok tt) (Ok tt)
       (λ _ _ _, Ok (mkChainResult None None)))
    [] (mkProcess ∅ ∅ 0)
  = (mkProcess {["OPENAI_API_KEY" := "sk-test"]} ∅ 0,
     ([Print "Error: Folder not found: docs"], Raise (SystemExit 1))).
Proof.
  apply (folder_check_exits example_args
           (mkWorld (Some ["OPENAI_API_KEY=sk-test"]) (Some []) false
              (λ _ _, Ok []) (Ok tt) (λ _, Ok tt) (Ok tt) (Ok tt)
              (λ _ _ _, Ok (mkChainResult None None)))
           [] (mkProcess ∅ ∅ 0)).
  - reflexivity.
  - vm_compute. reflexivity.
  - by right.
Defined.

Lemma load_folder_origin load folder_path entries e :
  (Loaders.load_folder load folder_path (Some entries)).2 = Raise e →
  ∃ l path, load l path = Raise e.
Proof.
  rewrite load_folder_unfold.
  destruct (Loaders.load_entries load entries []) as [out [docs|ex]] eqn:Hl;
    [done |].
  cbn [snd]. intros [= ->].
  destruct (load_entries_raise load entries [] e) as (_ & en & l & _ & _ & H).
  { by rewrite Hl. }
  eauto.
Qed.

Lemma indexing_new_raises w cs co p e :
  (Indexing.new w cs co p).2.2 = Raise e →
  (∃ msg, e = ValueError msg ∨ e = RuntimeError msg)
  ∨ (is_Exception e = false ∧ openai_embeddings w = Raise e).
Proof.
  rewrite indexing_new_unfold, get_embeddings_unfold.
  destruct (Splitter.new cs co indexer_separators) as [sp|e0] eqn:Hsp.
  - destruct (getenv_missing "OPENAI_API_KEY" p); cbn [snd].
    { intros [= <-]. left. eexists. by left. }
    destruct (openai_embeddings w) as [[]|e1]; cbn [snd]; [done |].
    intros [= <-]. destruct (is_Exception e1) eqn:He1.
    + left. eexists. by right.
    + by right.
  - cbn [snd]. intros [= <-].
    destruct (splitter_new_raises _ _ _ _ Hsp) as [msg ->].
    left. eexists. by left.
Qed.

Lemma setup_raises_cases args w p e :
  fails_with_exceptions w →
  (setup args w p).2.2 = Raise e →
  e = SystemExit 1
  ∨ ∃ msg, e = ValueError msg ∨ e = RuntimeError msg ∨ e = OSError msg.
Proof.
  intros (Hparse & Hemb & Hins & Hopen & Hchat) He.
  destruct (setup_cases args w p)
    as [(e0 & Hl & Hs)|(_ & [Hs|[(e0 & Hne & Hs & Ho)|[(e0 & Hn & Hs)|Hs]]])].
  - rewrite Hs in He. injection He as <-. right.
    destruct (env_file w) as [lines|]; [|done].
    destruct (load_env_lines_raises _ _ _ Hl) as [msg [->| ->]]; eauto.
  - rewrite Hs in He. injection He as <-. by left.
  - exfalso. rewrite Hs in He. injection He as <-.
    assert (is_Exception e0 = true); [|congruence].
    destruct Ho as [Ho|[[chunks Ho]|[Ho|Ho]]]; eauto.
    destruct (docs_folder w) as [entries|]; [|by injection Ho as <-].
    destruct (load_folder_origin _ _ _ _ Ho) as (l & path & H). eauto.
  - rewrite Hs in He. injection He as <-.
    destruct (indexing_new_raises _ _ _ _ _ Hn)
      as [[msg [->| ->]]|[Hne Ho]]; [right; eauto | right; eauto |].
    apply Hemb in Ho. congruence.
  - destruct Hs as (? & ? & ? & ? & ? & ? & ? & ? & _ & _ & _ & _ & _ & _
                    & _ & Hs). by rewrite Hs in He.
Qed.

Lemma exit_code_startup {A} (e : exn) :
  e = SystemExit 1
  ∨ (∃ msg, e = ValueError msg ∨ e = RuntimeError msg ∨ e = OSError msg) →
  exit_code (Raise e : result A) = 1%Z.
Proof. by intros [->|[msg [->|[->| ->]]]]. Qed.

(** X19.  When the services fail with exceptions of class [Exception] only,
    a failure of the start of [main] ends the program with exit code 1,
    whatever the terminal holds: what is raised is [SystemExit(1)], or a
    [ValueError], [RuntimeError] or [OSError] that nobody catches (reading
    the environment file and constructing the indexer are outside every
    [try]; an empty name in the environment file gives the [OSError]). *)
Theorem startup_failure_exit_code
    (args : Args) (w : world) (rounds : list (world * result string))
    (p : process) (e : exn) :
  fails_with_exceptions w →
  (setup args w p).2.2 = Raise e →
  (main args w rounds p).2.2 = Raise e
  ∧ exit_code (main args w rounds p).2.2 = 1%Z
  ∧ (e = SystemExit 1
     ∨ ∃ msg, e = ValueError msg ∨ e = RuntimeError msg ∨ e = OSError msg).
Proof.
  intros Hw He.
  pose proof (setup_raises_cases args w p e Hw He) as Hcases.
  destruct (setup args w p) as [p' [out r]] eqn:Hs. cbn [snd] in He. subst r.
  rewrite (main_setup_raises _ _ _ _ _ _ _ Hs). cbn [snd].
  split_and!; [done | by apply exit_code_startup | done].
Qed.

(** The embeddings client cannot be constructed. *)
Lemma startup_failure_exit_code_witness :
  exit_code
    (main example_args
       (mkWorld (Some ["OPENAI_API_KEY=sk-test"])
          (Some [Loaders.mkEntry "docs/notes.txt" true]) true
          (λ _ _, Ok [mkDocument "text" ∅])
          (Raise (OtherException "no route")) (λ _, Ok tt) (Ok tt) (Ok tt)
          (λ _ _ _, Ok (mkChainResult None None)))
       [] (mkProcess ∅ ∅ 0)).2.2 = 1%Z.
Proof.
  eapply (startup_failure_exit_code example_args
            (mkWorld (Some ["OPENAI_API_KEY=sk-test"])
               (Some [Loaders.mkEntry "docs/notes.txt" true]) true
               (λ _ _, Ok [mkDocument "text" ∅])
               (Raise (OtherException "no route")) (λ _, Ok tt) (Ok tt) (Ok tt)
               (λ _ _ _, Ok (mkChainResult None None)))
            [] (mkProcess ∅ ∅ 0)
            (RuntimeError
               ("Failed to initialize OpenAI embeddings: no route"
                +:+ ". Please check your OPENAI_API_KEY is valid."))).
  - split_and!; cbn; try done. by intros e [= <-].
  - vm_compute. reflexivity.
Defined.

Lemma index_step_ok args w ix docs p p2 outI ix' vs :
  index_step args w ix docs p = (p2, (outI, Ok (ix', vs))) →
  ix' = with_store ix vs
  ∧ vs = Chroma.mk (Indexing.persist_directory ix) "documents" (next_object p)
  ∧ environ p2 = environ p
  ∧ Indexing.path_exists (Indexing.persist_directory ix) p2 = true.
Proof.
  unfold index_step. destruct (_ && _) eqn:Hcond.
  - apply andb_prop in Hcond as [_ Hex].
    rewrite load_existing_index_unfold, Hex. cbv zeta.
    destruct (chroma_open w) as [[]|e]; [|done].
    intros [= <- _ <- <-]. split_and!; [done | done | done |].
    unfold Indexing.path_exists, Chroma.get_or_create. cbn [disk].
    apply bool_decide_eq_true. rewrite lookup_insert_eq. by eexists.
  - destruct docs as [|d docs]; [done |].
    rewrite index_documents_unfold by done. cbv zeta.
    destruct (chroma_from_documents w _) as [[]|e]; [|done].
    intros [= <- _ <- <-]. split_and!; [done | done | done |].
    apply path_exists_inserted.
Qed.

Lemma retrieval_new_ok w vs k p p' out qa :
  Retrieval.new w vs None k p = (p', (out, Ok qa)) →
  qa = Retrieval.mkQARetriever vs k "gpt-3.5-turbo"
         (Retrieval.mkChain vs k "gpt-3.5-turbo").
Proof.
  rewrite new_unfold. destruct (getenv_missing _ p); [done |].
  destruct (chat_openai w) as [[]|e]; [|done]. by intros [= _ _ <-].
Qed.

Lemma indexing_new_ok w cs co p ix :
  (Indexing.new w cs co p).2.2 = Ok ix →
  ∃ sp, Splitter.new cs co indexer_separators = Ok sp
        ∧ ix = Indexing.mkIndexer cs co "./chroma_db" sp None.
Proof.
  rewrite indexing_new_unfold, get_embeddings_unfold.
  destruct (Splitter.new cs co indexer_separators) as [sp|e0]; [|done].
  destruct (getenv_missing "OPENAI_API_KEY" p); [done |].
  destruct (openai_embeddings w) as [[]|e1]; [|done].
  cbn [snd]. intros [= <-]. by exists sp.
Qed.

(** X20.  When the start of [main] reaches the loop, the variables fit
    together, the documents are those [load_folder] returned and there is at
    least one, the indexer has the sizes of the command line, the directory
    [./chroma_db] and the store of the [vector_store] variable, the chat
    model is [gpt-3.5-turbo], the directory exists on disk and the API key is
    set. *)
Theorem setup_establishes
    (args : Args) (w : world) (p p' : process) (out : list event)
    (v : locals) :
  setup args w p = (p', (out, Ok v)) →
  coherent args (mkMachine p' v)
  ∧ documents v ≠ []
  ∧ (Loaders.load_folder (parsers w) (docs args) (docs_folder w)).2
    = Ok (documents v)
  ∧ (∃ sp, Splitter.new (chunk_size args) (chunk_overlap args)
             indexer_separators = Ok sp
           ∧ indexer v
             = Indexing.mkIndexer (chunk_size args) (chunk_overlap args)
                 "./chroma_db" sp (Some (vector_store v)))
  ∧ Retrieval.llm (qa_retriever v) = "gpt-3.5-turbo"
  ∧ Indexing.path_exists "./chroma_db" p' = true
  ∧ getenv_missing "OPENAI_API_KEY" p' = false.
Proof.
  intros Hs.
  destruct (setup_cases args w p)
    as [(e0 & _ & Hr)|(_ & [Hr|[(e0 & _ & Hr & _)|[(e0 & _ & Hr)|Hr]]])];
    try (rewrite Hs in Hr; done).
  destruct Hr as (docs & ix & ix' & vs & qa & p2 & outI & outR & Hkey & Hload
                  & Hne & Hnew & Hix & Hqa & Hp2 & Hv).
  rewrite Hs in Hp2, Hv. cbn [fst snd] in Hp2, Hv. subst p2.
  injection Hv as ->.
  apply indexing_new_ok in Hnew as (sp & Hsp & ->).
  apply index_step_ok in Hix as (-> & -> & Henv & Hex).
  apply retrieval_new_ok in Hqa as ->.
  cbn [Indexing.persist_directory] in *.
  split_and!; try done.
  - by exists sp.
  - unfold getenv_missing in *. by rewrite Henv.
Qed.

(** The example world started on an empty disk. *)
Lemma setup_establishes_witness :
  coherent example_args example_state.
Proof.
  destruct (setup_establishes example_args
              (example_docs_world "old text" (Ok tt)) (mkProcess ∅ ∅ 0)
              (proc example_state)
              (setup example_args (example_docs_world "old text" (Ok tt))
                 (mkProcess ∅ ∅ 0)).2.1
              (vars example_state)) as [H _]; [vm_compute; reflexivity |].
  exact H.
Defined.

End SetupExtras.

Section MainExtras.
Import App.

Lemma reindex_body_origin args w s s' out e :
  reindex_body args w s = (s', (out, Raise e)) →
  is_Exception e = false →
  (∃ l path, parsers w l path = Raise e)
  ∨ (∃ chunks, chroma_from_documents w chunks = Raise e)
  ∨ chat_openai w = Raise e.
Proof.
  rewrite reindex_body_unfold. cbv zeta.
  destruct (Loaders.load_folder _ _ _) as [outL [[|d documents]|e0]] eqn:Hl.
  - done.
  - destruct (Indexing.index_documents _ _ _ _ _)
      as [p [out2 [[ix vs]|e1]]] eqn:Hix.
    + destruct (Retrieval.new _ _ _ _ _) as [p' [out3 [qa|e2]]] eqn:Hqa;
        [done |].
      intros [= _ _ <-] He. right. right. by eapply retrieval_new_origin.
    + intros [= _ _ <-] He. right. left. by eapply index_documents_origin.
  - intros [= _ _ <-] He. left.
    destruct (docs_folder w) as [entries|].
    + eapply load_folder_origin. by rewrite Hl.
    + by injection Hl as _ <-.
Qed.

Lemma round_body_origin args w line s s' out e :
  round_body args w line s = (s', (out, Raise e)) →
  is_Exception e = false →
  line = Raise e
  ∨ (∃ l path, parsers w l path = Raise e)
  ∨ (∃ chunks, chroma_from_documents w chunks = Raise e)
  ∨ chat_openai w = Raise e
  ∨ (∃ items top_k question,
       chain_invoke w items top_k question = Raise e).
Proof.
  destruct (line_cases line)
    as [[e0 ->]|[(q & -> & Hq)|[(q & -> & Hq)|[Hre|[question Hq]]]]].
  - rewrite round_body_input_raise. intros [= _ _ <-]. by left.
  - by rewrite round_body_blank.
  - by rewrite round_body_quit.
  - destruct Hre as (q & -> & Hq).
    rewrite round_body_reindex by done. cbv zeta.
    rewrite reindex_command_unfold.
    destruct (reindex_body args w s) as [s1 [out1 [[]|e1]]] eqn:Hb; [done |].
    destruct (is_Exception e1) eqn:He1; [done |].
    intros [= _ _ <-] _. right.
    destruct (reindex_body_origin _ _ _ _ _ _ Hb He1) as [?|[?|?]]; auto.
  - rewrite (round_body_question _ _ _ _ _ Hq). cbv zeta.
    rewrite answer_question_unfold.
    destruct (chain_invoke w _ _ _) as [cr|e1] eqn:Hc; [done |].
    intros [= _ _ <-] _. right. right. right. right. eauto.
Qed.

Lemma round_polite args w line s :
  polite (w, line) → ∃ c, (round args w line s).2.2 = Ok c.
Proof.
  intros ((Hparse & Hemb & Hins & Hopen & Hchat) & Hchain & Hline).
  cbn [fst snd] in *. unfold round.
  destruct (round_body args w line s) as [s' [out [c|e]]] eqn:Hb;
    [by exists c |].
  destruct (is_Exception e) eqn:He.
  { destruct e; try done; by eexists. }
  destruct e; try done; [by eexists |]. exfalso.
  destruct (round_body_origin _ _ _ _ _ _ _ Hb He)
    as [->|[(l & path & H)|[(chunks & H)|[H|(items & top_k & q & H)]]]].
  - by eapply Hline.
  - apply Hparse in H. congruence.
  - apply Hins in H. congruence.
  - apply Hchat in H. congruence.
  - apply Hchain in H. congruence.
Qed.

Lemma loop_polite args rounds s :
  Forall polite rounds → ∃ st, (loop args rounds s).2.2 = Ok st.
Proof.
  intros H. revert s. induction H as [|[w line] rest Hp _ IH]; intros s.
  - by exists Waiting.
  - rewrite loop_cons.
    destruct (round_polite args w line s Hp) as [c Hc].
    destruct (round args w line s) as [s' [out r]]. cbn [snd] in Hc. subst r.
    destruct c; [|by exists Finished].
    destruct (IH s') as [st Hst].
    destruct (loop args rest s') as [s'' [out' r]]. by exists st.
Qed.

(** X21.  When the services fail with exceptions of class [Exception] only
    and [input] does not raise [SystemExit], [main] ends in one of two ways:
    the start fails and the exit code is 1, or the start succeeds and the
    program does not end on an error at all: it is left through [quit] or an
    interrupt, with exit code 0, or it waits for a line. *)
Theorem main_exit_code
    (args : Args) (w : world) (rounds : list (world * result string))
    (p : process) :
  fails_with_exceptions w →
  Forall polite rounds →
  (∃ e, (setup args w p).2.2 = Raise e
        ∧ (main args w rounds p).2.2 = Raise e
        ∧ exit_code (main args w rounds p).2.2 = 1%Z)
  ∨ (∃ v st, (setup args w p).2.2 = Ok v
             ∧ (main args w rounds p).2.2 = Ok st
             ∧ exit_code (main args w rounds p).2.2 = 0%Z).
Proof.
  intros Hw Hrounds.
  destruct (setup args w p) as [p' [out [v|e]]] eqn:Hs.
  - right. unfold main, enter_loop. st_unfold. rewrite Hs.
    destruct (loop_polite args rounds (mkMachine p' v) Hrounds) as [st Hst].
    destruct (loop args rounds _) as [s' [out' r]]. cbn [snd] in *. subst r.
    by exists v, st.
  - left. exists e. rewrite (main_setup_raises _ _ _ _ _ _ _ Hs). cbn [snd].
    split_and!; [done | done |].
    apply exit_code_startup, (setup_raises_cases args w p); [done |].
    by rewrite Hs.
Qed.

(** The example world, a question, a failing chain call and [quit]. *)
Lemma main_exit_code_witness :
  exit_code
    (main example_args (example_docs_world "old text" (Ok tt))
       [(example_docs_world "old text" (Ok tt), Ok "Why?");
        (mkWorld None None false (λ _ _, Ok []) (Ok tt) (λ _, Ok tt) (Ok tt)
           (Ok tt) (λ _ _ _, Raise (OtherException "timeout")), Ok "Why?");
        (example_docs_world "old text" (Ok tt), Ok "quit")]
       (mkProcess ∅ ∅ 0)).2.2 = 0%Z.
Proof.
  destruct (main_exit_code example_args
              (example_docs_world "old text" (Ok tt))
              [(example_docs_world "old text" (Ok tt), Ok "Why?");
               (mkWorld None None false (λ _ _, Ok []) (Ok tt) (λ _, Ok tt)
                  (Ok tt) (Ok tt) (λ _ _ _, Raise (OtherException "timeout")),
                Ok "Why?");
               (example_docs_world "old text" (Ok tt), Ok "quit")]
              (mkProcess ∅ ∅ 0))
    as [(e & He & _)|(v & st & _ & _ & H)].
  - by split_and!.
  - repeat (apply Forall_cons; split); [| | | by apply Forall_nil];
      (split_and!; cbn; try done; by intros ? ? ? ? [= <-]).
  - vm_compute in He. discriminate He.
  - exact H.
Defined.

Lemma round_input_fails args w e s :
  is_Exception e = true →
  round args w (Raise e) s
  = (s, ([Input (Py.nl +:+ "Question: ");
          Print (Py.nl +:+ "Error: " +:+ exn_str e);
          Print "Please try again or type 'quit' to exit."], Ok Continue)).
Proof.
  intros He. unfold round. rewrite round_body_input_raise.
  by destruct e.
Qed.

(** X22.  End of input does not end the loop: [EOFError] from [input] is
    caught by the generic handler, so on rounds that all raise it the loop
    prints the error and the hint every time, changes nothing and goes on
    asking. *)
Theorem end_of_input_never_ends_loop
    (args : Args) (rounds : list (world * result string)) (s : machine) :
  Forall (λ r, r.2 = Raise EOFError) rounds →
  loop args rounds s
  = (s, (rounds ≫= (λ _, [Input (Py.nl +:+ "Question: ");
                          Print (Py.nl +:+ "Error: EOF when reading a line");
                          Print "Please try again or type 'quit' to exit."]),
         Ok Waiting)).
Proof.
  induction 1 as [|[w line] rest Hl _ IH]; [done |].
  cbn [snd] in Hl. subst line.
  rewrite loop_cons, round_input_fails by done. rewrite IH. done.
Qed.

(** Two rounds at the end of input. *)
Lemma end_of_input_never_ends_loop_witness :
  (loop example_args
     [(example_empty_world, Raise EOFError);
      (example_empty_world, Raise EOFError)] example_state).2.2 = Ok Waiting.
Proof.
  rewrite (end_of_input_never_ends_loop example_args
             [(example_empty_world, Raise EOFError);
              (example_empty_world, Raise EOFError)] example_state);
    [reflexivity |].
  by repeat constructor.
Defined.

End MainExtras.
